(** * v2x: Verilog netlist to pb_type hierarchy

    A shallow embedding of [v2x/vlog_to_pbtype.py] and the properties of its
    name grouping, interconnect resolution, mux classification, mode
    expansion and metadata merging.

    Conventions of the embedding:
    - a Python [str] is a [string]; comparison of strings is by code point,
      which is [String.compare];
    - a Python [dict] is an insertion-ordered association list with unique
      keys ([PyDict]): iteration order is observable in the source (first
      error raised, last assignment kept), so the order is kept in the model;
    - [assert], [raise] and [exit(-1)] all abort the build: they are the
      [Err] results of an error monad, one constructor per failure site;
    - the Yosys netlist object ([YosysJSON], [YosysModule]) is not part of
      the modelled file: it is a record of query functions ([NetlistView]). *)

From Stdlib Require Import String Ascii List Bool Arith ZArith Lia.
From Stdlib Require Import Permutation Sorted DecimalString.
Import ListNotations.
Open Scope string_scope.
Open Scope list_scope.

Set Warnings "-register-all".

(* ===================================================================== *)
(** ** Failures *)

(** Every way a build aborts.  The names are those of the design's error
    taxonomy; the comment gives the statement of the source that raises. *)
Inductive error : Type :=
| GroupingError                     (* assert in get_list_name_and_length *)
| TypeMismatchError                 (* assert d[cname_prefix][0] == ctype *)
| UnconnectedInputError             (* assert len(drvs) > 0 *)
| MultiDriverError                  (* assert len(drvs) < 2 *)
| AttributeConflictError            (* raise ValueError in copy_attrs *)
| InvalidNameError                  (* assert ... in valid_names *)
| MultiOutputMuxError               (* assert len(mux_outputs) == 1, len(sinks) == 1 *)
| RoutingChainError                 (* assert ... not in routing_cells *)
| DuplicateMuxInputError            (* assert sink_pin not in mux_inputs *)
| ModeMetadataWithoutChildrenError  (* exit(-1) in make_pb_type *)
| PrefixCountMismatchError          (* exit(-1) in make_container_pb *)
| MetadataConflictError             (* exit(-1) in update_metadata *)
| ScopeViolationError               (* exit(-1) in sanity_check_*_metadata *)
| AttributeError                    (* None.groups() in strip_name *)
| UnknownClassError                 (* assert False, unknown class *)
| KeyError.                         (* d[k] on a missing key *)

Inductive result (A : Type) : Type :=
| Ok (a : A)
| Err (e : error).

Arguments Ok {A} a.
Arguments Err {A} e.

Definition bind {A B : Type} (m : result A) (f : A -> result B) : result B :=
  match m with
  | Ok a => f a
  | Err e => Err e
  end.

Notation "x <- m ;; k" := (bind m (fun x => k))
  (at level 61, m at next level, right associativity).
Notation "' pat <- m ;; k" := (bind m (fun x => match x with pat => k end))
  (at level 61, pat pattern, m at next level, right associativity).

(** [assert cond] raising [e]. *)
Definition assert (cond : bool) (e : error) : result unit :=
  if cond then Ok tt else Err e.

(** A [for] loop whose body may raise: the state is threaded, the first
    failure aborts. *)
Fixpoint for_each {A S : Type} (body : S -> A -> result S) (l : list A) (s : S)
  : result S :=
  match l with
  | [] => Ok s
  | a :: l' => s' <- body s a ;; for_each body l' s'
  end.

Definition is_ok {A : Type} (r : result A) : bool :=
  match r with Ok _ => true | Err _ => false end.

(* ===================================================================== *)
(** ** Decidable equality on keys *)

Class EqB (K : Type) : Type := {
  eqb : K -> K -> bool;
  eqb_spec : forall x y : K, reflect (x = y) (eqb x y)
}.

#[export] Instance EqB_string : EqB string :=
  {| eqb := String.eqb; eqb_spec := String.eqb_spec |}.

Definition option_eqb {A : Type} `{EqB A} (x y : option A) : bool :=
  match x, y with
  | None, None => true
  | Some a, Some b => eqb a b
  | _, _ => false
  end.

Lemma option_eqb_spec {A : Type} `{EqB A} (x y : option A) :
  reflect (x = y) (option_eqb x y).
Proof.
  destruct x as [a|], y as [b|]; simpl; try (constructor; congruence).
  destruct (eqb_spec a b); constructor; congruence.
Qed.

#[export] Instance EqB_option {A : Type} `{EqB A} : EqB (option A) :=
  {| eqb := option_eqb; eqb_spec := option_eqb_spec |}.

Definition pair_eqb {A B : Type} `{EqB A} `{EqB B} (x y : A * B) : bool :=
  eqb (fst x) (fst y) && eqb (snd x) (snd y).

Lemma pair_eqb_spec {A B : Type} `{EqB A} `{EqB B} (x y : A * B) :
  reflect (x = y) (pair_eqb x y).
Proof.
  destruct x as [a b], y as [c d]; unfold pair_eqb; simpl.
  destruct (eqb_spec a c), (eqb_spec b d); simpl; constructor; congruence.
Qed.

#[export] Instance EqB_pair {A B : Type} `{EqB A} `{EqB B} : EqB (A * B) :=
  {| eqb := pair_eqb; eqb_spec := pair_eqb_spec |}.

(** [x in l] for a list or tuple [l]. *)
Definition mem {K : Type} `{EqB K} (x : K) (l : list K) : bool :=
  existsb (eqb x) l.

(* ===================================================================== *)
(** ** Python dictionaries *)

Module PyDict.

(** Items in insertion order; keys are unique in every dictionary built
    with [set] from [empty]. *)
Definition dict (K V : Type) : Type := list (K * V).

Section Dict.
Context {K V : Type} `{EqB K}.
Implicit Types (d : dict K V).

Definition empty : dict K V := [].

(** [d.get(k)], [None] when the key is missing. *)
Fixpoint get (k : K) d : option V :=
  match d with
  | [] => None
  | (k', v) :: d' => if eqb k k' then Some v else get k d'
  end.

(** [k in d]. *)
Definition has (k : K) d : bool :=
  match get k d with Some _ => true | None => false end.

(** [d[k] = v]: an existing key keeps its position, a new key goes last. *)
Fixpoint set (k : K) (v : V) d : dict K V :=
  match d with
  | [] => [(k, v)]
  | (k', v') :: d' => if eqb k k' then (k', v) :: d' else (k', v') :: set k v d'
  end.

Definition keys d : list K := map fst d.
Definition values d : list V := map snd d.

End Dict.

End PyDict.

(** [d1 == d2] on dictionaries: the same keys with the same values, the
    insertion order is not compared. *)
Definition dict_equal {K V : Type} `{EqB K} (d1 d2 : PyDict.dict K V)
  : Prop :=
  forall k : K, PyDict.get k d1 = PyDict.get k d2.

(* ===================================================================== *)
(** ** Strings *)

Definition newline : ascii := "010"%char.

Definition is_digit (c : ascii) : bool :=
  let n := nat_of_ascii c in ((48 <=? n) && (n <=? 57))%nat.

Definition is_upper (c : ascii) : bool :=
  let n := nat_of_ascii c in ((65 <=? n) && (n <=? 90))%nat.

(** [.] of a regular expression: any character but a newline. *)
Definition is_dot (c : ascii) : bool := negb (Ascii.eqb c newline).

(** [[A-Z0-9_]]. *)
Definition is_mode_char (c : ascii) : bool :=
  is_upper c || is_digit c || Ascii.eqb c "_"%char.

(** [str.lower()] on ASCII letters. *)
Definition lower_ascii (c : ascii) : ascii :=
  if is_upper c then ascii_of_nat (nat_of_ascii c + 32) else c.

Fixpoint lower (s : string) : string :=
  match s with
  | EmptyString => EmptyString
  | String c s' => String (lower_ascii c) (lower s')
  end.

(** [str(i)] and [{}] of [format] on a non-negative integer. *)
Definition str_of_nat (n : nat) : string :=
  NilEmpty.string_of_uint (Nat.to_uint n).

(** ["{}[{}]".format(name, index)]. *)
Definition indexed (name index : string) : string :=
  name ++ "[" ++ index ++ "]".

(** [s.rfind(c)]: position of the last occurrence, [None] for Python's -1. *)
Fixpoint rfind (c : ascii) (s : string) : option nat :=
  match s with
  | EmptyString => None
  | String x s' =>
      match rfind c s' with
      | Some i => Some (S i)
      | None => if Ascii.eqb x c then Some 0 else None
      end
  end.

(** [sub in s] on strings. *)
Definition contains (sub s : string) : bool :=
  match String.index 0 sub s with Some _ => true | None => false end.

(** [s.strip()] for ASCII white space. *)
Definition is_space (c : ascii) : bool :=
  let n := nat_of_ascii c in
  (((9 <=? n) && (n <=? 13)) || (n =? 32) || ((28 <=? n) && (n <=? 31)))%nat.

Fixpoint lstrip (s : string) : string :=
  match s with
  | String c s' => if is_space c then lstrip s' else s
  | EmptyString => EmptyString
  end.

Fixpoint rstrip (s : string) : string :=
  match s with
  | String c s' =>
      match rstrip s' with
      | EmptyString => if is_space c then EmptyString else String c EmptyString
      | r => String c r
      end
  | EmptyString => EmptyString
  end.

Definition strip (s : string) : string := rstrip (lstrip s).

(* ===================================================================== *)
(** ** The regular expressions of the source

    The two patterns of the file are sequences of literal characters,
    alternatives of literals and greedy repetitions of a character class.
    [re_match] is the backtracking matcher of [re.match] on such a sequence:
    anchored at the start, the longest repetition tried first. *)

Inductive atom : Type :=
| Chr (c : ascii)
| Lits (alts : list string) (grp : option nat)
| Star (cls : ascii -> bool) (grp : option nat)
| Plus (cls : ascii -> bool) (grp : option nat).

Definition captures : Type := list (nat * string).

Definition record (grp : option nat) (text : string) (caps : captures) : captures :=
  match grp with
  | Some g => (g, text) :: caps
  | None => caps
  end.

Fixpoint group (g : nat) (caps : captures) : string :=
  match caps with
  | [] => ""
  | (g', t) :: caps' => if Nat.eqb g g' then t else group g caps'
  end.

Fixpoint strip_prefix (p : list ascii) (s : list ascii) : option (list ascii) :=
  match p, s with
  | [], _ => Some s
  | a :: p', b :: s' => if Ascii.eqb a b then strip_prefix p' s' else None
  | _ :: _, [] => None
  end.

(** The greedy loop: consume while the class matches, give back one
    character at a time when the continuation [k] fails. *)
Fixpoint greedy {A : Type} (cls : ascii -> bool)
    (k : list ascii -> list ascii -> option A)
    (s : list ascii) (acc : list ascii) : option A :=
  match s with
  | x :: s' =>
      if cls x then
        match greedy cls k s' (acc ++ [x]) with
        | Some r => Some r
        | None => k s acc
        end
      else k s acc
  | [] => k s acc
  end.

Fixpoint re_match (r : list atom) (s : list ascii) (caps : captures)
  : option captures :=
  match r with
  | [] => Some caps
  | Chr c :: r' =>
      match s with
      | x :: s' => if Ascii.eqb x c then re_match r' s' caps else None
      | [] => None
      end
  | Lits alts grp :: r' =>
      (fix try (alts : list string) : option captures :=
         match alts with
         | [] => None
         | a :: alts' =>
             match strip_prefix (list_ascii_of_string a) s with
             | Some s' =>
                 match re_match r' s' (record grp a caps) with
                 | Some c => Some c
                 | None => try alts'
                 end
             | None => try alts'
             end
         end) alts
  | Star cls grp :: r' =>
      greedy cls
        (fun s' acc => re_match r' s' (record grp (string_of_list_ascii acc) caps))
        s []
  | Plus cls grp :: r' =>
      match s with
      | x :: s' =>
          if cls x then
            greedy cls
              (fun s'' acc =>
                 re_match r' s'' (record grp (string_of_list_ascii acc) caps))
              s' [x]
          else None
      | [] => None
      end
  end.

Definition literal (s : string) : list atom :=
  map Chr (list_ascii_of_string s).

(** The pattern for generate-block cell names: the literal dollar-genblock-dollar,
    any characters, a colon, digits, a dollar, digits, then the index between
    square brackets (group 1), a dot, a backslash and the name (group 2). *)
Definition GENBLOCK_REGEX : list atom :=
  literal "$genblock$" ++
  [Star is_dot None; Chr ":"%char; Plus is_digit None; Chr "$"%char;
   Plus is_digit None; Chr "["%char; Star is_dot (Some 1); Chr "]"%char;
   Chr "."%char; Chr "\"%char; Star is_dot (Some 2)].

(* ===================================================================== *)
(** ** strip_name *)

Definition strip_name (name : string) (include_index : bool) : result string :=
  if String.prefix "$genblock$" name then
    match re_match GENBLOCK_REGEX (list_ascii_of_string name) [] with
    | Some caps =>
        let index := group 1 caps in
        let name := group 2 caps in
        if include_index then Ok (indexed name index) else Ok name
    | None => Err AttributeError
    end
  else Ok name.

(* ===================================================================== *)
(** ** Metadata *)

(** Attribute and metadata dictionaries.  Values are the strings of the
    netlist; [str(value)] is the identity on them. *)
Definition attrs : Type := PyDict.dict string string.

Definition KNOWN_FASM_ATTRS : list string :=
  ["FASM_PREFIX"; "FASM_FEATURES"; "FASM_PARAMS"].

(** One of the known names (group 1), an underscore, and a non-empty run of
    capitals, digits and underscores (group 2). *)
Definition FASM_MODE_REGEX : list atom :=
  [Lits KNOWN_FASM_ATTRS (Some 1); Chr "_"%char; Plus is_mode_char (Some 2)].

Definition parse_fasm_attribute (attribute : string)
  : option string * option string :=
  if mem attribute KNOWN_FASM_ATTRS then (Some attribute, None)
  else
    match re_match FASM_MODE_REGEX (list_ascii_of_string attribute) [] with
    | None => (None, None)
    | Some caps => (Some (group 1 caps), Some (group 2 caps))
    end.

Definition metadata_from_attributes (attributes : attrs) (mode : option string)
  : attrs :=
  fold_left
    (fun metadata '(attr, value) =>
       let '(attr_name, attr_mode) := parse_fasm_attribute attr in
       match attr_name with
       | None => metadata
       | Some attr_name =>
           match mode with
           | Some _ =>
               if eqb attr_mode mode
               then PyDict.set (lower attr_name) value metadata
               else metadata
           | None => PyDict.set (lower attr_name) value metadata
           end
       end)
    attributes PyDict.empty.

(** The third argument of [update_metadata] is tested with [in]: the source
    passes a tuple by default and a plain string at one call site, where
    [in] is the substring test. *)
Inductive py_container : Type :=
| PyTuple (l : list string)
| PyStr (s : string).

Definition py_in (key : string) (c : py_container) : bool :=
  match c with
  | PyTuple l => mem key l
  | PyStr s => contains key s
  end.

Definition update_metadata_step (concatenate_keys : py_container)
    (metadata : attrs) (item : string * string) : result attrs :=
  let '(key, value) := item in
  match PyDict.get key metadata with
  | None => Ok (PyDict.set key value metadata)
  | Some old =>
      if py_in key concatenate_keys
      then Ok (PyDict.set key (old ++ " " ++ value)%string metadata)
      else if String.eqb old value then Ok metadata
           else Err MetadataConflictError
  end.

Definition update_metadata (metadata new_metadata : attrs)
    (concatenate_keys : py_container) : result attrs :=
  for_each (update_metadata_step concatenate_keys) new_metadata metadata.

Definition child_not_allowed_keys : list string := ["fasm_params"; "fasm_lut"].
Definition parent_not_allowed_keys : list string := ["fasm_prefix"].

Definition sanity_check_child_metadata (metadata : attrs) : result unit :=
  for_each
    (fun _ key =>
       if mem key child_not_allowed_keys then Err ScopeViolationError else Ok tt)
    (PyDict.keys metadata) tt.

Definition sanity_check_parent_metadata (metadata : attrs) : result unit :=
  for_each
    (fun _ key =>
       if mem key parent_not_allowed_keys then Err ScopeViolationError else Ok tt)
    (PyDict.keys metadata) tt.

(* ===================================================================== *)
(** ** Sorting

    [list.sort(key=...)] and [sorted(..., key=...)] are stable and compare
    keys with [<] only.  Every stable sort returns the same list; the model
    is the stable insertion sort. *)

Section Sort.
Context {A B : Type} (lt : B -> B -> bool) (key : A -> B).

Fixpoint insert_sorted (x : A) (l : list A) : list A :=
  match l with
  | [] => [x]
  | y :: l' =>
      if lt (key y) (key x) then y :: insert_sorted x l' else x :: y :: l'
  end.

Fixpoint py_sort (l : list A) : list A :=
  match l with
  | [] => []
  | x :: l' => insert_sorted x (py_sort l')
  end.

End Sort.

(** [<] on a pair of strings, as Python compares tuples: the first
    components that differ decide. *)
Definition pair_ltb (a b : string * string) : bool :=
  if String.eqb (fst a) (fst b) then String.ltb (snd a) (snd b)
  else String.ltb (fst a) (fst b).

(* ===================================================================== *)
(** ** The netlist view *)

Definition netid : Type := Z.

Definition CellName : Type := string.
Definition CellType : Type := string.
Definition PinName : Type := string.

(** A pin; the cell name is [None] for the ports of the container itself. *)
Definition CellPin : Type := (option CellName * PinName)%type.

(** A port of a module: [(name, width, bits, iodir)]. *)
Definition Port : Type := (string * nat * list netid * string)%type.

Definition port_iodir (p : Port) : string := snd p.
Definition port_bits (p : Port) : list netid := snd (fst p).
Definition port_width (p : Port) : nat := snd (fst (fst p)).
Definition port_name (p : Port) : string := fst (fst (fst p)).

(** The queries of a [YosysModule] used by the file. *)
Record YosysModule : Type := {
  name : string;
  cells : list (CellName * CellType);
  cell_attrs : CellName -> attrs;
  cell_type : option CellName -> option CellType;
  cell_conns : CellName -> string -> list (PinName * netid);
  net_drivers : netid -> list (CellName * PinName);
  net_sinks : netid -> list (CellName * PinName);
  net_attrs_by_netid : netid -> attrs;
  ports : list Port;
  port_attrs : PinName -> attrs;
  module_attrs : attrs;
  attr : string -> option string;
  CLASS : option string
}.

(** [yj.module(name)]. *)
Definition YosysJSON : Type := string -> YosysModule.

(* ===================================================================== *)
(** ** Attributes of an interconnect edge *)

(** [set(...)]: the distinct elements, in one of the possible iteration
    orders. *)
Definition py_set (l : list string) : list string := nodup string_dec l.

Definition count_true (l : list bool) : nat :=
  list_sum (map (fun b : bool => if b then 1 else 0) l).

(** The attributes found on all the dictionaries of [srcs]. *)
Definition all_have (srcs : list attrs) : list string :=
  filter
    (fun attr =>
       Nat.eqb (length srcs) (count_true (map (PyDict.has attr) srcs)))
    (py_set (concat (map PyDict.keys srcs))).

(** [d[k]]. *)
Definition subscript (k : string) (d : attrs) : result string :=
  match PyDict.get k d with
  | Some v => Ok v
  | None => Err KeyError
  end.

Fixpoint map_result {A B : Type} (f : A -> result B) (l : list A)
  : result (list B) :=
  match l with
  | [] => Ok []
  | a :: l' => b <- f a ;; bs <- map_result f l' ;; Ok (b :: bs)
  end.

(** The body of the second loop of [copy_attrs]. *)
Definition copy_attr (srcs : list attrs) (dst : attrs) (attr : string)
  : result attrs :=
  match srcs with
  | [] => Err KeyError
  | src0 :: rest =>
      avalue <- subscript attr src0 ;;
      avalues <- map_result (subscript attr) rest ;;
      _ <- for_each
             (fun _ other_avalue =>
                if String.eqb avalue other_avalue then Ok tt
                else Err AttributeConflictError)
             avalues tt ;;
      match PyDict.get attr dst with
      | Some dvalue =>
          if String.eqb avalue dvalue
          then Ok (PyDict.set attr avalue dst)
          else Err AttributeConflictError
      | None => Ok (PyDict.set attr avalue dst)
      end
  end.

Definition copy_attrs (dst : attrs) (srcs : list attrs) : result attrs :=
  for_each (copy_attr srcs) (all_have srcs) dst.

Definition filter_src (x : attrs) : attrs :=
  fold_left
    (fun d '(k, v) => if String.eqb k "src" then d else PyDict.set k v d)
    x PyDict.empty.

Definition net_and_pin_attrs (yj : YosysJSON) (mdl : YosysModule)
    (driver sink : CellPin) (net : netid) : result attrs :=
  let potential_attrs := [] in
  let '(driver_cell, driver_pin) := driver in
  let potential_attrs :=
    match cell_type mdl driver_cell with
    | Some driver_type =>
        potential_attrs ++ [filter_src (port_attrs (yj driver_type) driver_pin)]
    | None => potential_attrs
    end in
  let '(sink_cell, sink_pin) := sink in
  let potential_attrs :=
    match cell_type mdl sink_cell with
    | Some sink_type =>
        potential_attrs ++ [filter_src (port_attrs (yj sink_type) sink_pin)]
    | None => potential_attrs
    end in
  let net_attrs := filter_src (net_attrs_by_netid mdl net) in
  copy_attrs net_attrs potential_attrs.

(* ===================================================================== *)
(** ** get_interconnects *)

(** A sink with the attributes of the path to it. *)
Definition Sink : Type := (CellPin * attrs)%type.

(** [defaultdict(list)] from driver pins to sinks. *)
Definition Interconn : Type := PyDict.dict CellPin (list Sink).

(** [d[k]] on a [defaultdict(list)]. *)
Definition sinks_of {K V : Type} `{EqB K} (k : K) (d : PyDict.dict K (list V))
  : list V :=
  match PyDict.get k d with
  | Some l => l
  | None => []
  end.

(** [d[k].append(v)] on a [defaultdict(list)]. *)
Definition append {K V : Type} `{EqB K} (k : K) (v : V)
    (d : PyDict.dict K (list V)) : PyDict.dict K (list V) :=
  PyDict.set k (sinks_of k d ++ [v]) d.

(** [d[k].extend(l)] on a [defaultdict(list)]. *)
Definition extend {K V : Type} `{EqB K} (k : K) (l : list V)
    (d : PyDict.dict K (list V)) : PyDict.dict K (list V) :=
  PyDict.set k (sinks_of k d ++ l) d.

(** The name of a cell as a pin owner: [None] for the container itself. *)
Definition owner (mod_pname : string) (pb_name : string) : option CellName :=
  if String.eqb pb_name mod_pname then None else Some pb_name.

(** The body of the loop over the input connections of cell [cname]. *)
Definition input_conn (yj : YosysJSON) (mdl : YosysModule) (mod_pname : string)
    (valid_names : list string) (pb_name : option CellName)
    (interconn : Interconn) (conn : PinName * netid) : result Interconn :=
  let '(pin, net) := conn in
  let drvs := net_drivers mdl net in
  _ <- assert (0 <? length drvs)%nat UnconnectedInputError ;;
  _ <- assert (length drvs <? 2)%nat MultiDriverError ;;
  for_each
    (fun interconn '(drv_cell, drv_pin) =>
       net_attr <- net_and_pin_attrs yj mdl (Some drv_cell, drv_pin)
                     (pb_name, pin) net ;;
       drv_cell_name <- strip_name drv_cell true ;;
       _ <- assert (mem drv_cell_name valid_names) InvalidNameError ;;
       Ok (append (owner mod_pname drv_cell_name, drv_pin)
             ((pb_name, pin), net_attr) interconn))
    drvs interconn.

(** The body of the loop over the output connections of a cell. *)
Definition output_conn (yj : YosysJSON) (mdl : YosysModule)
    (pb_name : option CellName)
    (interconn : Interconn) (conn : PinName * netid) : result Interconn :=
  let '(pin, net) := conn in
  for_each
    (fun interconn '(sink_cell, sink_pin) =>
       if negb (String.eqb sink_cell (name mdl)) then Ok interconn
       else
         net_attr <- net_and_pin_attrs yj mdl (pb_name, pin)
                       (None, sink_pin) net ;;
         Ok (append (pb_name, pin) ((None, sink_pin), net_attr) interconn))
    (net_sinks mdl net) interconn.

(** The body of the loop over the cells. *)
Definition cell_conn (yj : YosysJSON) (mdl : YosysModule) (mod_pname : string)
    (valid_names : list string)
    (interconn : Interconn) (cell : CellName * CellType) : result Interconn :=
  let '(cname, ctype) := cell in
  pb_name <- strip_name cname true ;;
  _ <- assert (mem pb_name valid_names) InvalidNameError ;;
  let pb_name := owner mod_pname pb_name in
  interconn <- for_each (input_conn yj mdl mod_pname valid_names pb_name)
                 (cell_conns mdl cname "input") interconn ;;
  for_each (output_conn yj mdl pb_name) (cell_conns mdl cname "output") interconn.

(** [enumerate(l)]. *)
Definition enumerate {A : Type} (l : list A) : list (nat * A) :=
  combine (seq 0 (length l)) l.

(** The full name of bit [bit] of a port. *)
Definition bit_name (p : Port) (bit : nat) : string :=
  if Nat.eqb (port_width p) 1 then port_name p
  else indexed (port_name p) (str_of_nat bit).

(** The pass-through connections: an output bit and an input bit of the
    container on the same net. *)
Definition passthrough (mdl : YosysModule) (interconn : Interconn) : Interconn :=
  let inp_ports := filter (fun p => String.eqb (port_iodir p) "input") (ports mdl) in
  let out_ports := filter (fun p => String.eqb (port_iodir p) "output") (ports mdl) in
  fold_left
    (fun interconn out_port =>
       fold_left
         (fun interconn '(out_bit, out_net) =>
            let out_name := bit_name out_port out_bit in
            fold_left
              (fun interconn inp_port =>
                 fold_left
                   (fun interconn '(inp_bit, inp_net) =>
                      let inp_name := bit_name inp_port inp_bit in
                      if Z.eqb out_net inp_net
                      then append (None, inp_name)
                             ((None, out_name), PyDict.empty) interconn
                      else interconn)
                   (enumerate (port_bits inp_port)) interconn)
              inp_ports interconn)
         (enumerate (port_bits out_port)) interconn)
    out_ports interconn.

Definition pin_sort (p : Sink) : string * string :=
  let '(pin, attr) := p in
  match fst pin with
  | None => ("", snd pin)
  | Some cell => (cell, snd pin)
  end.

(** [for l in interconn.values(): l.sort(key=pin_sort)]. *)
Definition sort_sinks (interconn : Interconn) : Interconn :=
  map (fun '(driver, l) => (driver, py_sort pair_ltb pin_sort l)) interconn.

Definition get_interconnects (yj : YosysJSON) (mdl : YosysModule)
    (mod_pname : string) (valid_names : list string) : result Interconn :=
  interconn <- for_each (cell_conn yj mdl mod_pname valid_names)
                 (cells mdl) PyDict.empty ;;
  Ok (sort_sinks (passthrough mdl interconn)).

(* ===================================================================== *)
(** ** get_children *)

(** [ChildrenDict]: prefix to type and members [(short name, attributes)]. *)
Definition ChildrenDict : Type :=
  PyDict.dict string (CellType * list (string * attrs)).

(** The body of the loop over the cells: [d] is [routing] for a cell whose
    module has class routing and [children] otherwise; the test for a new
    prefix is on [children] in both cases. *)
Definition get_children_step (yj : YosysJSON) (mdl : YosysModule)
    (st : ChildrenDict * ChildrenDict) (cell : CellName * CellType)
  : result (ChildrenDict * ChildrenDict) :=
  let '(routing, children) := st in
  let '(cname, ctype) := cell in
  let cattrs := cell_attrs mdl cname in
  let is_routing := eqb (CLASS (yj ctype)) (Some "routing") in
  let d := if is_routing then routing else children in
  cname_prefix <- strip_name cname false ;;
  let d := if PyDict.has cname_prefix children then d
           else PyDict.set cname_prefix (ctype, []) d in
  match PyDict.get cname_prefix d with
  | None => Err KeyError
  | Some (existing, members) =>
      _ <- assert (String.eqb existing ctype) TypeMismatchError ;;
      short <- strip_name cname true ;;
      let d := PyDict.set cname_prefix (existing, members ++ [(short, cattrs)]) d in
      Ok (if is_routing then (d, children) else (routing, d))
  end.

(** One pass of the final loop: the member lists of [children] with more
    than one element are sorted by short name. *)
Definition sort_members (children : ChildrenDict) : ChildrenDict :=
  map
    (fun '(prefix, (ctype, l)) =>
       (prefix,
        (ctype, if (1 <? length l)%nat then py_sort String.ltb fst l else l)))
    children.

(** The final loop runs over [(routing, children)] and sorts the lists of
    [children] on both turns; the call of [get_list_name_and_length] in it
    is commented out in the source. *)
Definition get_children (yj : YosysJSON) (mdl : YosysModule)
  : result (ChildrenDict * ChildrenDict) :=
  '(routing, children) <-
     for_each (get_children_step yj mdl) (cells mdl)
       (PyDict.empty, PyDict.empty) ;;
  Ok (routing, sort_members (sort_members children)).

(* ===================================================================== *)
(** ** get_list_name_and_length *)

(** [s[:i]] where [i] is the result of [rfind]; [s[:-1]] when it is -1. *)
Definition slice_to (i : option nat) (s : string) : string :=
  match i with
  | Some i => substring 0 i s
  | None => substring 0 (String.length s - 1) s
  end.

(** The result is [True] for the empty list ([None] here) and
    [(list_name, len(l))] otherwise. *)
Definition get_list_name_and_length (l : list string)
  : result (option (string * nat)) :=
  match l with
  | [] => Ok None
  | l0 :: _ =>
      _ <- assert (contains "[" l0) GroupingError ;;
      let list_name := slice_to (rfind "["%char l0) l0 in
      let sl := py_sort Nat.ltb String.length l in
      _ <- for_each
             (fun _ i =>
                let expected_item := indexed list_name (str_of_nat i) in
                assert (String.eqb expected_item (nth i sl "")) GroupingError)
             (seq 0 (length l)) tt ;;
      Ok (Some (list_name, length l))
  end.

(* ===================================================================== *)
(** ** make_container_pb *)

(** [s.split(";")]. *)
Fixpoint split_on (sep : ascii) (s : string) : list string :=
  match s with
  | EmptyString => [""]
  | String c s' =>
      if Ascii.eqb c sep then "" :: split_on sep s'
      else match split_on sep s' with
           | h :: t => String c h :: t
           | [] => [String c ""]
           end
  end.

(** A direct connection, as passed to [make_direct_conn]. *)
Definition DirectConn : Type := (CellPin * CellPin * attrs)%type.

(** What [make_mux_conn] emits: the name, the driver of every input pin and
    the sinks of every output pin. *)
Record MuxGroup : Type := {
  mux_name : string;
  mux_inputs : PyDict.dict PinName CellPin;
  mux_outputs : PyDict.dict PinName (list Sink)
}.

Definition make_mux_conn (mux_name : string)
    (mux_inputs : PyDict.dict PinName CellPin)
    (mux_outputs : PyDict.dict PinName (list Sink)) : result MuxGroup :=
  _ <- assert (Nat.eqb (length mux_outputs) 1) MultiOutputMuxError ;;
  _ <- for_each
         (fun _ '(mux_pin, sinks) =>
            assert (Nat.eqb (length sinks) 1) MultiOutputMuxError)
         mux_outputs tt ;;
  Ok {| mux_name := mux_name; mux_inputs := mux_inputs;
        mux_outputs := mux_outputs |}.

(** The metadata of one group of children; [incl_metadata] is the metadata
    read from the included pb_type file of the group's type. *)
Definition array_metadata_step (count : nat) (metadata : attrs)
    (item : nat * attrs) : result attrs :=
  let '(i, child_attrs) := item in
  let attr_metadata := metadata_from_attributes child_attrs None in
  _ <- sanity_check_child_metadata attr_metadata ;;
  attr_metadata <-
    match PyDict.get "fasm_prefix" attr_metadata with
    | Some prefixes =>
        let fasm_prefixes := split_on ";" prefixes in
        _ <- assert (Nat.eqb (length fasm_prefixes) count)
               PrefixCountMismatchError ;;
        Ok (PyDict.set "fasm_prefix" (nth i fasm_prefixes "") attr_metadata)
    | None => Ok attr_metadata
    end ;;
  update_metadata metadata attr_metadata (PyStr "fasm_prefix").

Definition child_metadata (incl_metadata : attrs)
    (children_data : list (string * attrs)) : result attrs :=
  match children_data with
  | [(_, child_attrs)] =>
      let attr_metadata := metadata_from_attributes child_attrs None in
      _ <- sanity_check_child_metadata attr_metadata ;;
      update_metadata attr_metadata incl_metadata (PyTuple [])
  | _ =>
      let children_attrs := map snd children_data in
      metadata <- for_each (array_metadata_step (length children_data))
                    (enumerate children_attrs) PyDict.empty ;;
      let fasm_prefix_count := length children_attrs in
      _ <- assert (negb ((0 <? fasm_prefix_count)%nat &&
                         negb (Nat.eqb fasm_prefix_count (length children_data))))
             PrefixCountMismatchError ;;
      update_metadata metadata incl_metadata (PyTuple [])
  end.

(** The cells of the routing groups. *)
Definition routing_cells_of (routing : ChildrenDict) : list string :=
  flat_map (fun '(_, (_, children_data)) => map fst children_data) routing.

Definition valid_names_of (mod_pname : string) (routing children : ChildrenDict)
  : list string :=
  [mod_pname] ++ routing_cells_of routing ++ routing_cells_of children.

(** [cell in routing_cells] for a pin owner. *)
Definition is_routing_cell (routing_cells : list string) (cell : option CellName)
  : bool :=
  match cell with
  | Some c => mem c routing_cells
  | None => false
  end.

(** The direct connections: neither end is a routing cell. *)
Definition direct_conns (routing_cells : list string) (interconn : Interconn)
  : list DirectConn :=
  flat_map
    (fun '(driver, sinks) =>
       if is_routing_cell routing_cells (fst driver) then []
       else
         flat_map
           (fun '(sink, path_attr) =>
              if is_routing_cell routing_cells (fst sink) then []
              else [(driver, sink, path_attr)])
           sinks)
    interconn.

(** The sinks of every output pin of [mux_cell]. *)
Definition collect_mux_outputs (mux_cell : string) (interconn : Interconn)
  : PyDict.dict PinName (list Sink) :=
  fold_left
    (fun mux_outputs '((driver_cell, driver_pin), sinks) =>
       if negb (eqb driver_cell (Some mux_cell)) then mux_outputs
       else extend driver_pin sinks mux_outputs)
    interconn PyDict.empty.

(** The loop that fills [mux_inputs].  [sink_pin] is the variable of that
    name of [make_container_pb]: this loop binds the pin of the sink to
    [mux_pin], and the assertion reads [sink_pin], which still holds the pin
    of the sink of the output of the mux. *)
Definition collect_mux_inputs (routing_cells : list string) (mux_cell : string)
    (sink_pin : PinName) (interconn : Interconn)
  : result (PyDict.dict PinName CellPin) :=
  for_each
    (fun mux_inputs '((driver_cell, driver_pin), sinks) =>
       for_each
         (fun mux_inputs '((sink_cell, mux_pin), path_attr) =>
            if negb (eqb sink_cell (Some mux_cell)) then Ok mux_inputs
            else
              _ <- assert (negb (is_routing_cell routing_cells driver_cell))
                     RoutingChainError ;;
              _ <- assert (negb (PyDict.has sink_pin mux_inputs))
                     DuplicateMuxInputError ;;
              Ok (PyDict.set mux_pin (driver_cell, driver_pin) mux_inputs))
         sinks mux_inputs)
    interconn PyDict.empty.

(** The body of the loop over the routing cells.  The match on
    [mux_outputs] is the two assertions on its length and on the length of
    its only list of sinks; the loop over that list runs once and leaves
    its sink in [sink_cell] and [sink_pin]. *)
Definition make_mux (routing_cells : list string) (interconn : Interconn)
    (mux_cell : string) : result MuxGroup :=
  let mux_outputs := collect_mux_outputs mux_cell interconn in
  match mux_outputs with
  | [(mux_output_pin, [((sink_cell, sink_pin), path_attr)])] =>
      _ <- assert (negb (is_routing_cell routing_cells sink_cell))
             RoutingChainError ;;
      mux_inputs <- collect_mux_inputs routing_cells mux_cell sink_pin interconn ;;
      make_mux_conn mux_cell mux_inputs mux_outputs
  | _ => Err MultiOutputMuxError
  end.

(** What [make_container_pb] emits: the metadata of every group of
    children, the direct connections and the muxes.  The names of the cells
    of a direct connection are those of the interconnect; the source
    rewrites them with [normalize_pb_name] when it writes the element. *)
Record Container : Type := {
  children_metadata : list (string * attrs);
  directs : list DirectConn;
  muxes : list MuxGroup
}.

Definition make_container_pb (incl_metadata : CellType -> attrs)
    (yj : YosysJSON) (mdl : YosysModule) (mod_pname : string)
    (routing children : ChildrenDict) : result Container :=
  metadata <-
    map_result
      (fun '(child_prefix, (child_type, children_data)) =>
         m <- child_metadata (incl_metadata child_type) children_data ;;
         Ok (child_prefix, m))
      children ;;
  let routing_cells := routing_cells_of routing in
  let valid_names := valid_names_of mod_pname routing children in
  interconn <- get_interconnects yj mdl mod_pname valid_names ;;
  let direct := direct_conns routing_cells interconn in
  mux <- map_result (make_mux routing_cells interconn) routing_cells ;;
  Ok {| children_metadata := metadata; directs := direct; muxes := mux |}.

(* ===================================================================== *)
(** ** make_pb_type *)

Definition is_lower (c : ascii) : bool :=
  let n := nat_of_ascii c in ((97 <=? n) && (n <=? 122))%nat.

Definition upper_ascii (c : ascii) : ascii :=
  if is_lower c then ascii_of_nat (nat_of_ascii c - 32) else c.

(** [str.upper()] on ASCII letters. *)
Fixpoint upper (s : string) : string :=
  match s with
  | EmptyString => EmptyString
  | String c s' => String (upper_ascii c) (upper s')
  end.

(** [attr(name, 0) == 1] on a module; an integer attribute is its decimal
    string. *)
Definition attr_is_one (mdl : YosysModule) (attr_name : string) : bool :=
  eqb (attr mdl attr_name) (Some "1").

Definition is_mod_blackbox (mdl : YosysModule) : bool :=
  attr_is_one mdl "lib_whitebox" || attr_is_one mdl "whitebox" ||
  attr_is_one mdl "blackbox".

Definition mode_interconnects (mdl : YosysModule) (mode_name : string)
  : Interconn :=
  fold_left
    (fun interconn p =>
       if String.eqb (port_iodir p) "input"
       then PyDict.set (None, port_name p)
              [((Some mode_name, port_name p), PyDict.empty)] interconn
       else PyDict.set (Some mode_name, port_name p)
              [((None, port_name p), PyDict.empty)] interconn)
    (ports mdl) PyDict.empty.

(** The connections written for a mode: one [make_direct_conn] per sink. *)
Definition mode_conns (inter : Interconn) : list DirectConn :=
  flat_map
    (fun '(driver, sinks) =>
       map (fun '(sink, attrs) => (driver, sink, attrs)) sinks)
    inter.

(** The pb_type tree.  Ports and timing elements are written from the
    module alone and are not part of the tree here. *)
Inductive pb_type : Type :=
| PbLeaf (pb_name : string) (pb_attrs : attrs) (metadata : attrs)
| PbContainer (pb_name : string) (pb_attrs : attrs) (body : Container)
    (metadata : attrs)
| PbModes (pb_name : string) (pb_attrs : attrs)
    (modes : list (string * option pb_type * list DirectConn))
    (metadata : attrs).

(** A [mode] element: its name, the pb_type below it when the mode has
    children, and its interconnect. *)
Definition Mode : Type := (string * option pb_type * list DirectConn)%type.

Definition mode_pb_type (m : Mode) : option pb_type := snd (fst m).
Definition mode_interconnect (m : Mode) : list DirectConn := snd m.

(** [pb_attrs] from the class of the module. *)
Definition class_attrs (mdl : YosysModule) (is_blackbox has_modes : bool)
  : result attrs :=
  let model_name :=
    match attr mdl "MODEL_NAME" with Some m => m | None => name mdl end in
  match CLASS mdl with
  | Some mod_cls =>
      if String.eqb mod_cls "input"
      then Ok [("blif_model", ".input")]
      else if String.eqb mod_cls "output"
      then Ok [("blif_model", ".output")]
      else if String.eqb mod_cls "lut"
      then Ok [("blif_model", ".names"); ("class", "lut")]
      else if String.eqb mod_cls "routing" then Ok []
      else if String.eqb mod_cls "mux" then Ok []
      else if String.eqb mod_cls "flipflop"
      then Ok [("blif_model", ".latch"); ("class", "flipflop")]
      else Err UnknownClassError
  | None =>
      if is_blackbox && negb has_modes
      then Ok [("blif_model", (".subckt " ++ model_name)%string)]
      else Ok []
  end.

Section MakePbType.

(** [YosysJSON(run.vlog_to_json(infiles, mode=smode, module_with_mode=m))]:
    the netlist of module [m] elaborated again under mode [smode]. *)
Variable elaborate_with_mode : string -> string -> YosysJSON.

(** The metadata of the pb_type file included for a child type. *)
Variable incl_metadata : CellType -> attrs.

(** The recursive call [make_pb_type(..., mode_yj, mode_mod, True, mode_xml,
    smode, ...)]. *)
Variable self : YosysJSON -> YosysModule -> string -> result pb_type.

(** The body of the loop over the modes. *)
Definition make_mode (mdl : YosysModule) (mode : string) : result Mode :=
  let smode := strip mode in
  let mode_yj := elaborate_with_mode (name mdl) smode in
  let mode_mod := mode_yj (name mdl) in
  if Nat.eqb (length (cells mode_mod)) 0 then
    inter <- get_interconnects mode_yj mode_mod smode [smode] ;;
    let mode_metadata :=
      metadata_from_attributes (module_attrs mode_mod) (Some smode) in
    if negb (Nat.eqb (length mode_metadata) 0)
    then Err ModeMetadataWithoutChildrenError
    else Ok (smode, None, mode_conns inter)
  else
    child <- self mode_yj mode_mod smode ;;
    let inter := mode_interconnects mdl smode in
    Ok (smode, Some child, mode_conns inter).

(** The block under [if not modes or mode_processing]. *)
Definition make_body (yj : YosysJSON) (mdl : YosysModule) (pb_name : string)
    (is_blackbox : bool) (pb_attrs metadata : attrs) : result pb_type :=
  '(routing, children) <-
     (if negb is_blackbox then get_children yj mdl
      else Ok (PyDict.empty, PyDict.empty)) ;;
  if negb (Nat.eqb (length routing) 0) || negb (Nat.eqb (length children) 0)
  then
    body <- make_container_pb incl_metadata yj mdl (name mdl) routing children ;;
    Ok (PbContainer pb_name pb_attrs body metadata)
  else Ok (PbLeaf pb_name pb_attrs metadata).

Definition make_pb_type_with (yj : YosysJSON) (mdl : YosysModule)
    (mode_processing : bool) (mode_name : option string) : result pb_type :=
  let modes := option_map (split_on ";") (attr mdl "MODES") in
  let metadata := metadata_from_attributes (module_attrs mdl) mode_name in
  let mod_pname := name mdl in
  _ <- assert (String.eqb mod_pname (upper mod_pname)) InvalidNameError ;;
  let is_blackbox := is_mod_blackbox mdl || Nat.eqb (length (cells mdl)) 0 in
  let has_modes := match modes with Some _ => true | None => false end in
  pb_attrs <- class_attrs mdl is_blackbox has_modes ;;
  let pb_name := match mode_name with Some m => m | None => mod_pname end in
  match modes, mode_processing with
  | Some ((_ :: _) as modes), false =>
      built <- map_result (make_mode mdl) modes ;;
      _ <- sanity_check_parent_metadata metadata ;;
      Ok (PbModes pb_name pb_attrs built metadata)
  | _, _ =>
      pb <- make_body yj mdl pb_name is_blackbox pb_attrs metadata ;;
      _ <- sanity_check_parent_metadata metadata ;;
      Ok pb
  end.

End MakePbType.

(** A call with [mode_processing] set makes no further call of itself. *)
Definition make_pb_type_mode (elaborate_with_mode : string -> string -> YosysJSON)
    (incl_metadata : CellType -> attrs)
    (yj : YosysJSON) (mdl : YosysModule) (mode_name : string) : result pb_type :=
  make_pb_type_with elaborate_with_mode incl_metadata
    (fun _ _ _ => Err KeyError) yj mdl true (Some mode_name).

Definition make_pb_type (elaborate_with_mode : string -> string -> YosysJSON)
    (incl_metadata : CellType -> attrs)
    (yj : YosysJSON) (mdl : YosysModule) : result pb_type :=
  make_pb_type_with elaborate_with_mode incl_metadata
    (make_pb_type_mode elaborate_with_mode incl_metadata)
    yj mdl false None.

(* ===================================================================== *)
(** ** Netlists for the examples *)

(** A module with no cell, port, net or attribute. *)
Definition empty_module (nm : string) : YosysModule :=
  {| name := nm;
     cells := [];
     cell_attrs := fun _ => [];
     cell_type := fun _ => None;
     cell_conns := fun _ _ => [];
     net_drivers := fun _ => [];
     net_sinks := fun _ => [];
     net_attrs_by_netid := fun _ => [];
     ports := [];
     port_attrs := fun _ => [];
     module_attrs := [];
     attr := fun _ => None;
     CLASS := None |}.

Definition lookup_or {A : Type} (default : A) (k : string)
    (table : list (string * A)) : A :=
  match PyDict.get k table with
  | Some a => a
  | None => default
  end.

(** The type of a cell, from the list of cells. *)
Definition cell_type_of (cs : list (CellName * CellType))
    (cell : option CellName) : option CellType :=
  match cell with
  | Some c => PyDict.get c cs
  | None => None
  end.

(** A library of two leaf modules: [LUT] with input [I] and output [O],
    the output carrying the attribute pack, and [FF] with input [D] and
    output [Q]. *)
Definition LUT_module : YosysModule :=
  {| name := "LUT";
     cells := [];
     cell_attrs := fun _ => [];
     cell_type := fun _ => None;
     cell_conns := fun _ _ => [];
     net_drivers := fun _ => [];
     net_sinks := fun _ => [];
     net_attrs_by_netid := fun _ => [];
     ports := [("I", 1, [2%Z], "input"); ("O", 1, [3%Z], "output")];
     port_attrs := fun p => lookup_or [] p [("O", [("pack", "P")])];
     module_attrs := [];
     attr := fun _ => None;
     CLASS := Some "lut" |}.

Definition FF_module : YosysModule :=
  {| name := "FF";
     cells := [];
     cell_attrs := fun _ => [];
     cell_type := fun _ => None;
     cell_conns := fun _ _ => [];
     net_drivers := fun _ => [];
     net_sinks := fun _ => [];
     net_attrs_by_netid := fun _ => [];
     ports := [("D", 1, [2%Z], "input"); ("Q", 1, [3%Z], "output")];
     port_attrs := fun _ => [];
     module_attrs := [];
     attr := fun _ => None;
     CLASS := Some "flipflop" |}.

(** [PAIR]: input [in] to [a.I], [a.O] to [b.D] over net 5, [b.Q] to
    output [out]; [net5_attrs] are the attributes of net 5. *)
Definition PAIR_cells : list (CellName * CellType) :=
  [("a", "LUT"); ("b", "FF")].

Definition PAIR_module (net5_attrs : attrs) : YosysModule :=
  {| name := "PAIR";
     cells := PAIR_cells;
     cell_attrs := fun _ => [];
     cell_type := cell_type_of PAIR_cells;
     cell_conns := fun c d =>
       lookup_or [] (c ++ "/" ++ d)%string
         [("a/input", [("I", 4%Z)]); ("a/output", [("O", 5%Z)]);
          ("b/input", [("D", 5%Z)]); ("b/output", [("Q", 6%Z)])];
     net_drivers := fun n =>
       if Z.eqb n 4 then [("PAIR", "in")]
       else if Z.eqb n 5 then [("a", "O")]
       else if Z.eqb n 6 then [("b", "Q")] else [];
     net_sinks := fun n =>
       if Z.eqb n 4 then [("a", "I")]
       else if Z.eqb n 5 then [("b", "D")]
       else if Z.eqb n 6 then [("PAIR", "out")] else [];
     net_attrs_by_netid := fun n => if Z.eqb n 5 then net5_attrs else [];
     ports := [("in", 1, [4%Z], "input"); ("out", 1, [6%Z], "output")];
     port_attrs := fun _ => [];
     module_attrs := [];
     attr := fun _ => None;
     CLASS := None |}.

Definition PAIR_json (net5_attrs : attrs) : YosysJSON :=
  fun m =>
    if String.eqb m "LUT" then LUT_module
    else if String.eqb m "FF" then FF_module
    else PAIR_module net5_attrs.

(** [FAN]: input [in] (net 4) feeds [b.D], [a.I] and the output [thru];
    [a.O] (net 5) and [b.Q] (net 6) feed the outputs [x] and [y]. *)
Definition FAN_cells : list (CellName * CellType) :=
  [("b", "FF"); ("a", "LUT")].

Definition FAN_module : YosysModule :=
  {| name := "FAN";
     cells := FAN_cells;
     cell_attrs := fun _ => [];
     cell_type := cell_type_of FAN_cells;
     cell_conns := fun c d =>
       lookup_or [] (c ++ "/" ++ d)%string
         [("a/input", [("I", 4%Z)]); ("a/output", [("O", 5%Z)]);
          ("b/input", [("D", 4%Z)]); ("b/output", [("Q", 6%Z)])];
     net_drivers := fun n =>
       if Z.eqb n 4 then [("FAN", "in")]
       else if Z.eqb n 5 then [("a", "O")]
       else if Z.eqb n 6 then [("b", "Q")] else [];
     net_sinks := fun n =>
       if Z.eqb n 4 then [("b", "D"); ("a", "I"); ("FAN", "thru")]
       else if Z.eqb n 5 then [("FAN", "x")]
       else if Z.eqb n 6 then [("FAN", "y")] else [];
     net_attrs_by_netid := fun _ => [];
     ports := [("in", 1, [4%Z], "input"); ("thru", 1, [4%Z], "output");
               ("x", 1, [5%Z], "output"); ("y", 1, [6%Z], "output")];
     port_attrs := fun _ => [];
     module_attrs := [];
     attr := fun _ => None;
     CLASS := None |}.

Definition FAN_json : YosysJSON :=
  fun m =>
    if String.eqb m "LUT" then LUT_module
    else if String.eqb m "FF" then FF_module
    else FAN_module.

Definition FAN_interconn : Interconn :=
  [((None, "in"),
    [((None, "thru"), []); ((Some "a", "I"), []); ((Some "b", "D"), [])]);
   ((Some "b", "Q"), [((None, "y"), [])]);
   ((Some "a", "O"), [((None, "x"), [("pack", "P")])])].

(** A resolved interconnect around one routing cell [m]: the inputs [a] and
    [b] of the container drive [m.I0] and [m.I1], [m.O] drives the output
    [out]. *)
Definition MUX_interconn : Interconn :=
  [((None, "a"), [((Some "m", "I0"), [])]);
   ((None, "b"), [((Some "m", "I1"), [])]);
   ((Some "m", "O"), [((None, "out"), [])])].

(** The same with both inputs of the container on the pin [m.I0]. *)
Definition DUP_interconn : Interconn :=
  [((None, "a"), [((Some "m", "I0"), [])]);
   ((None, "b"), [((Some "m", "I0"), [])]);
   ((Some "m", "O"), [((None, "out"), [])])].

(** The output of the routing cell with two sinks. *)
Definition TWO_SINKS_interconn : Interconn :=
  [((None, "a"), [((Some "m", "I0"), [])]);
   ((Some "m", "O"), [((None, "out"), []); ((None, "out2"), [])])].

Definition MUX_module : YosysModule :=
  {| name := "MUX";
     cells := [];
     cell_attrs := fun _ => [];
     cell_type := fun _ => None;
     cell_conns := fun _ _ => [];
     net_drivers := fun _ => [];
     net_sinks := fun _ => [];
     net_attrs_by_netid := fun _ => [];
     ports := [("I0", 1, [2%Z], "input"); ("O", 1, [3%Z], "output")];
     port_attrs := fun _ => [];
     module_attrs := [];
     attr := fun _ => None;
     CLASS := Some "routing" |}.

(** [TWIN]: two generate blocks, each with one routing cell named [m] at
    index 0.  The first takes the input [a] and drives the cell [l]; the
    second takes the input [b] and its output is left open. *)
Definition TWIN_m1 : CellName := "$genblock$twin.sim.v:10$1[0].\m".
Definition TWIN_m2 : CellName := "$genblock$twin.sim.v:20$2[0].\m".

Definition TWIN_cells : list (CellName * CellType) :=
  [(TWIN_m1, "MUX"); (TWIN_m2, "MUX"); ("l", "LUT")].

Definition TWIN_module : YosysModule :=
  {| name := "TWIN";
     cells := TWIN_cells;
     cell_attrs := fun _ => [];
     cell_type := cell_type_of TWIN_cells;
     cell_conns := fun c d =>
       lookup_or [] (c ++ "/" ++ d)%string
         [((TWIN_m1 ++ "/input")%string, [("I0", 4%Z)]);
          ((TWIN_m1 ++ "/output")%string, [("O", 6%Z)]);
          ((TWIN_m2 ++ "/input")%string, [("I0", 5%Z)]);
          ((TWIN_m2 ++ "/output")%string, [("O", 7%Z)]);
          ("l/input", [("I", 6%Z)]); ("l/output", [("O", 8%Z)])];
     net_drivers := fun n =>
       if Z.eqb n 4 then [("TWIN", "a")]
       else if Z.eqb n 5 then [("TWIN", "b")]
       else if Z.eqb n 6 then [(TWIN_m1, "O")]
       else if Z.eqb n 7 then [(TWIN_m2, "O")]
       else if Z.eqb n 8 then [("l", "O")] else [];
     net_sinks := fun n =>
       if Z.eqb n 4 then [(TWIN_m1, "I0")]
       else if Z.eqb n 5 then [(TWIN_m2, "I0")]
       else if Z.eqb n 6 then [("l", "I")]
       else if Z.eqb n 8 then [("TWIN", "out")] else [];
     net_attrs_by_netid := fun _ => [];
     ports := [("a", 1, [4%Z], "input"); ("b", 1, [5%Z], "input");
               ("out", 1, [8%Z], "output")];
     port_attrs := fun _ => [];
     module_attrs := [];
     attr := fun _ => None;
     CLASS := None |}.

Definition TWIN_json : YosysJSON :=
  fun m =>
    if String.eqb m "LUT" then LUT_module
    else if String.eqb m "MUX" then MUX_module
    else TWIN_module.

(** [GAP]: one generate block with the cell [a] at the indices 0 and 2. *)
Definition GAP_cells : list (CellName * CellType) :=
  [("$genblock$gap.sim.v:10$1[0].\a", "LUT");
   ("$genblock$gap.sim.v:10$1[2].\a", "LUT")].

Definition GAP_module : YosysModule :=
  {| name := "GAP";
     cells := GAP_cells;
     cell_attrs := fun _ => [];
     cell_type := cell_type_of GAP_cells;
     cell_conns := fun _ _ => [];
     net_drivers := fun _ => [];
     net_sinks := fun _ => [];
     net_attrs_by_netid := fun _ => [];
     ports := [];
     port_attrs := fun _ => [];
     module_attrs := [];
     attr := fun _ => None;
     CLASS := None |}.

Definition GAP_json : YosysJSON :=
  fun m => if String.eqb m "LUT" then LUT_module else GAP_module.

(** [MODAL]: a module with the modes [A] and [B].  Under mode [A] it has no
    cell and its input [in] is wired to its output [out]; under mode [B] it
    holds the cells of [PAIR].  [mode_attrs] are the attributes of the
    module as elaborated under mode [A]. *)
Definition MODAL_host : YosysModule :=
  {| name := "MODAL";
     cells := [];
     cell_attrs := fun _ => [];
     cell_type := fun _ => None;
     cell_conns := fun _ _ => [];
     net_drivers := fun _ => [];
     net_sinks := fun _ => [];
     net_attrs_by_netid := fun _ => [];
     ports := [("in", 1, [4%Z], "input"); ("out", 1, [6%Z], "output")];
     port_attrs := fun _ => [];
     module_attrs := [("MODES", "A; B")];
     attr := fun a => if String.eqb a "MODES" then Some "A; B" else None;
     CLASS := None |}.

Definition MODAL_A (mode_attrs : attrs) : YosysModule :=
  {| name := "MODAL";
     cells := [];
     cell_attrs := fun _ => [];
     cell_type := fun _ => None;
     cell_conns := fun _ _ => [];
     net_drivers := fun n => if Z.eqb n 4 then [("MODAL", "in")] else [];
     net_sinks := fun n => if Z.eqb n 4 then [("MODAL", "out")] else [];
     net_attrs_by_netid := fun _ => [];
     ports := [("in", 1, [4%Z], "input"); ("out", 1, [4%Z], "output")];
     port_attrs := fun _ => [];
     module_attrs := mode_attrs;
     attr := fun a => PyDict.get a mode_attrs;
     CLASS := None |}.

Definition MODAL_B : YosysModule :=
  {| name := "MODAL";
     cells := PAIR_cells;
     cell_attrs := fun _ => [];
     cell_type := cell_type_of PAIR_cells;
     cell_conns := cell_conns (PAIR_module []);
     net_drivers := fun n =>
       if Z.eqb n 4 then [("MODAL", "in")] else net_drivers (PAIR_module []) n;
     net_sinks := fun n =>
       if Z.eqb n 6 then [("MODAL", "out")] else net_sinks (PAIR_module []) n;
     net_attrs_by_netid := fun _ => [];
     ports := [("in", 1, [4%Z], "input"); ("out", 1, [6%Z], "output")];
     port_attrs := fun _ => [];
     module_attrs := [("MODES", "A; B")];
     attr := fun a => if String.eqb a "MODES" then Some "A; B" else None;
     CLASS := None |}.

Definition MODAL_elaborate (mode_attrs : attrs) (m smode : string) : YosysJSON :=
  fun t =>
    if String.eqb t "LUT" then LUT_module
    else if String.eqb t "FF" then FF_module
    else if String.eqb smode "A" then MODAL_A mode_attrs
    else MODAL_B.

(** [OPEN]: the input [I] of the cell [a] is on a net without driver. *)
Definition OPEN_cells : list (CellName * CellType) := [("a", "LUT")].

Definition OPEN_module : YosysModule :=
  {| name := "OPEN";
     cells := OPEN_cells;
     cell_attrs := fun _ => [];
     cell_type := cell_type_of OPEN_cells;
     cell_conns := fun c d =>
       lookup_or [] (c ++ "/" ++ d)%string [("a/input", [("I", 4%Z)])];
     net_drivers := fun _ => [];
     net_sinks := fun n => if Z.eqb n 4 then [("a", "I")] else [];
     net_attrs_by_netid := fun _ => [];
     ports := [];
     port_attrs := fun _ => [];
     module_attrs := [];
     attr := fun _ => None;
     CLASS := None |}.

Definition OPEN_json : YosysJSON :=
  fun m => if String.eqb m "LUT" then LUT_module else OPEN_module.

(* ===================================================================== *)
(** ** Predicates of the statements *)

(** What a key holds after merging value [b] of the new mapping into value
    [a] of the accumulated one. *)
Definition merged (concatenate_keys : py_container) (key : string)
    (a b : option string) : option string :=
  match b with
  | None => a
  | Some b =>
      match a with
      | None => Some b
      | Some a =>
          if py_in key concatenate_keys
          then Some (a ++ " " ++ b)%string else Some a
      end
  end.

(** The attribute is on every dictionary of a non-empty [srcs]. *)
Definition shared (k : string) (srcs : list attrs) : bool :=
  match srcs with
  | [] => false
  | _ :: _ => forallb (PyDict.has k) srcs
  end.

(** The value of a shared attribute: that of the first dictionary. *)
Definition shared_value (k : string) (srcs : list attrs) : option string :=
  match srcs with
  | [] => None
  | src0 :: _ => PyDict.get k src0
  end.

(** Two of the dictionaries of [srcs], or one of them and [dst], hold
    different values of the attribute. *)
Definition conflict (k : string) (srcs : list attrs) (dst : attrs) : bool :=
  match srcs with
  | [] => false
  | src0 :: rest =>
      existsb (fun s => negb (eqb (PyDict.get k s) (PyDict.get k src0))) rest ||
      match PyDict.get k dst with
      | Some dvalue => negb (eqb (Some dvalue) (PyDict.get k src0))
      | None => false
      end
  end.

(** The attributes of the declared port of a pin whose owner is a cell of
    the module. *)
Definition pin_attrs (yj : YosysJSON) (mdl : YosysModule) (pin : CellPin)
  : list attrs :=
  match cell_type mdl (fst pin) with
  | Some t => [filter_src (port_attrs (yj t) (snd pin))]
  | None => []
  end.

Definition potential_attrs (yj : YosysJSON) (mdl : YosysModule)
    (driver sink : CellPin) : list attrs :=
  pin_attrs yj mdl driver ++ pin_attrs yj mdl sink.

(** [x] may stand before [y]: the key of [y] is not below the key of [x]. *)
Definition in_order {A B : Type} (lt : B -> B -> bool) (key : A -> B)
    (x y : A) : Prop :=
  lt (key y) (key x) = false.

(** The order in which [get_interconnects] leaves the sinks of a driver. *)
Definition sink_order : Sink -> Sink -> Prop := in_order pair_ltb pin_sort.

(** The edge from [driver] to [sink] is in the interconnect. *)
Definition has_edge (driver : CellPin) (sink : Sink) (ic : Interconn) : Prop :=
  In sink (sinks_of driver ic).

(** One output pin with one sink. *)
Definition single_output (outputs : PyDict.dict PinName (list Sink)) : Prop :=
  exists pin sink, outputs = [(pin, [sink])].

(** The names that a list of [n] members of the array [list_name] has. *)
Definition expected_items (list_name : string) (n : nat) : list string :=
  map (fun i => indexed list_name (str_of_nat i)) (seq 0 n).

(** The attribute is one of the known metadata kinds qualified with the
    mode. *)
Definition is_scoped (smode attr : string) : bool :=
  match parse_fasm_attribute attr with
  | (Some _, attr_mode) => eqb attr_mode (Some smode)
  | (None, _) => false
  end.

(** Both ends of the connection are ports of the container. *)
Definition on_boundary (c : DirectConn) : Prop :=
  fst (fst (fst c)) = None /\ fst (snd (fst c)) = None.

Definition boundary_only (ic : Interconn) : Prop :=
  forall d l, In (d, l) ic ->
    fst d = None /\ forall s, In s l -> fst (fst s) = None.

(** The module as elaborated under a mode. *)
Definition mode_module (elaborate_with_mode : string -> string -> YosysJSON)
    (mdl : YosysModule) (mode : string) : YosysModule :=
  elaborate_with_mode (name mdl) (strip mode) (name mdl).

(** Some attribute of the module under the mode is metadata qualified with
    the mode. *)
Definition has_mode_metadata (elaborate_with_mode : string -> string -> YosysJSON)
    (mdl : YosysModule) (mode : string) : Prop :=
  exists attr value,
    In (attr, value) (module_attrs (mode_module elaborate_with_mode mdl mode)) /\
    is_scoped (strip mode) attr = true.

(** The longest run of characters of a class at the head of a list. *)
Fixpoint take_while (cls : ascii -> bool) (s : list ascii) : list ascii :=
  match s with
  | x :: s' => if cls x then x :: take_while cls s' else []
  | [] => []
  end.

Fixpoint drop_while (cls : ascii -> bool) (s : list ascii) : list ascii :=
  match s with
  | x :: s' => if cls x then drop_while cls s' else s
  | [] => []
  end.

(** [s] is a string of decimal digits, at least one. *)
Definition is_number (s : string) : Prop :=
  s <> "" /\ forallb is_digit (list_ascii_of_string s) = true.

(** Where an edge of the interconnect comes from: an input pin of a cell
    and the driver of its net; an output pin of a cell and a sink of its
    net on the container; or an input bit and an output bit of the
    container on one net. *)
Definition input_edge (yj : YosysJSON) (mdl : YosysModule) (mod_pname : string)
    (driver : CellPin) (sink : Sink) : Prop :=
  exists cname ctype pb pin net drv_cell drv_pin drv_name,
    In (cname, ctype) (cells mdl) /\ strip_name cname true = Ok pb /\
    In (pin, net) (cell_conns mdl cname "input") /\
    net_drivers mdl net = [(drv_cell, drv_pin)] /\
    strip_name drv_cell true = Ok drv_name /\
    driver = (owner mod_pname drv_name, drv_pin) /\
    fst sink = (owner mod_pname pb, pin) /\
    net_and_pin_attrs yj mdl (Some drv_cell, drv_pin) (owner mod_pname pb, pin) net
    = Ok (snd sink).

Definition output_edge (yj : YosysJSON) (mdl : YosysModule) (mod_pname : string)
    (driver : CellPin) (sink : Sink) : Prop :=
  exists cname ctype pb pin net sink_pin,
    In (cname, ctype) (cells mdl) /\ strip_name cname true = Ok pb /\
    In (pin, net) (cell_conns mdl cname "output") /\
    In (name mdl, sink_pin) (net_sinks mdl net) /\
    driver = (owner mod_pname pb, pin) /\
    fst sink = (None, sink_pin) /\
    net_and_pin_attrs yj mdl (owner mod_pname pb, pin) (None, sink_pin) net
    = Ok (snd sink).

Definition passthrough_edge (mdl : YosysModule) (driver : CellPin) (sink : Sink)
  : Prop :=
  exists inp_port inp_bit out_port out_bit net,
    In inp_port (ports mdl) /\ port_iodir inp_port = "input" /\
    In out_port (ports mdl) /\ port_iodir out_port = "output" /\
    nth_error (port_bits inp_port) inp_bit = Some net /\
    nth_error (port_bits out_port) out_bit = Some net /\
    driver = (None, bit_name inp_port inp_bit) /\
    sink = ((None, bit_name out_port out_bit), PyDict.empty).

Definition edge_origin (yj : YosysJSON) (mdl : YosysModule) (mod_pname : string)
    (driver : CellPin) (sink : Sink) : Prop :=
  input_edge yj mdl mod_pname driver sink \/
  output_edge yj mdl mod_pname driver sink \/
  passthrough_edge mdl driver sink.

(** The driver keys are distinct and no driver has an empty list of
    sinks. *)
Definition well_formed (ic : Interconn) : Prop :=
  NoDup (PyDict.keys ic) /\ forall d l, In (d, l) ic -> l <> [].

(** The connection that [mode_interconnects] makes for a port: from the
    port of the container to the port of the mode for an input, the other
    way round for any other port. *)
Definition mode_port_conn (mode_name : string) (p : Port) : DirectConn :=
  if String.eqb (port_iodir p) "input"
  then ((None, port_name p), (Some mode_name, port_name p), PyDict.empty)
  else ((Some mode_name, port_name p), (None, port_name p), PyDict.empty).

(** The edge from [driver] to [sink] is stored in the interconnect. *)
Definition stored_edge (driver : CellPin) (sink : Sink) (ic : Interconn) : Prop :=
  exists sinks, In (driver, sinks) ic /\ In sink sinks.

(* ===================================================================== *)
(** ** vlog_to_pbtype: the name of the top module *)

(** The class of letters, digits and the underscore. *)
Definition is_word_char (c : ascii) : bool :=
  is_upper c || is_lower c || is_digit c || Ascii.eqb c "_".

(** The pattern for the name of the input file: letters, digits and
    underscores (group 1), then the literal [.sim.v]. *)
Definition SIM_V_REGEX : list atom :=
  Plus is_word_char (Some 1) :: literal ".sim.v".

(** The name of the top module from the argument [top] or, without it, from
    the base name [iname] of the first input file; [None] where the source
    prints an error and leaves. *)
Definition top_name (top : option string) (iname : string) : option string :=
  match top with
  | Some top => Some (upper top)
  | None =>
      match re_match SIM_V_REGEX (list_ascii_of_string iname) [] with
      | Some caps => Some (upper (upper (group 1 caps)))
      | None => None
      end
  end.

(* ===================================================================== *)
(** ** normalize_pb_name *)

(** [$] of a regular expression: the end of the text, or the place before a
    newline that ends the text. *)
Definition at_end (s : list ascii) : bool :=
  match s with
  | [] => true
  | [c] => Ascii.eqb c newline
  | _ => false
  end.

(** The pattern of [normalize_pb_name] tried at the start of [s]: an opening
    bracket, digits, a closing bracket, and then not [$].  The result is the
    run of digits. *)
Definition match_index (s : list ascii) : option (list ascii) :=
  match s with
  | x :: d :: s' =>
      if Ascii.eqb x "[" && is_digit d then
        greedy is_digit
          (fun rest acc =>
             match rest with
             | y :: rest' =>
                 if Ascii.eqb y "]" && negb (at_end rest') then Some acc else None
             | [] => None
             end)
          s' [d]
      else None
  | _ => None
  end.

(** [re.search]: the first place of the text where the pattern matches. *)
Fixpoint search_index (s : list ascii) : option (list ascii) :=
  match s with
  | [] => None
  | _ :: s' =>
      match match_index s with
      | Some d => Some d
      | None => search_index s'
      end
  end.

(** [s.replace(old, "")] for a text [old] that is not empty: the occurrences
    of [old] are taken out from left to right, none overlapping another;
    [skip] counts the characters left of the occurrence being taken out. *)
Fixpoint remove_all (old : list ascii) (skip : nat) (s : list ascii) : list ascii :=
  match s with
  | [] => []
  | c :: s' =>
      match skip with
      | S k => remove_all old k s'
      | 0 =>
          match strip_prefix old s with
          | Some _ => remove_all old (length old - 1) s'
          | None => c :: remove_all old 0 s'
          end
      end
  end.

Definition dot_to_underscore (c : ascii) : ascii :=
  if Ascii.eqb c "." then "_"%char else c.

Definition normalize_chars (pb_name : list ascii) : list ascii :=
  let index := search_index pb_name in
  let normalized_name := map dot_to_underscore pb_name in
  match index with
  | Some d =>
      remove_all ("["%char :: d ++ ["]"%char]) 0 normalized_name
        ++ "_"%char :: d
  | None => normalized_name
  end.

Definition normalize_pb_name (pb_name : option string) : option string :=
  match pb_name with
  | None => None
  | Some pb_name =>
      Some (string_of_list_ascii (normalize_chars (list_ascii_of_string pb_name)))
  end.

(** A text without the character [c]. *)
Definition free_of (c : ascii) (s : list ascii) : Prop := ~ In c s.

(** [s.replace('.', '_')]. *)
Definition replace_dots (s : string) : string :=
  string_of_list_ascii (map dot_to_underscore (list_ascii_of_string s)).

(* ===================================================================== *)
(** ** vlog_to_model *)

(** The queries of the flattened top module that only [vlog_to_model] uses,
    beside those of [YosysModule]. *)
Record TimingQueries : Type := {
  all_cells : list (CellName * CellType);
  port_conns : string -> list netid;
  cell_conn_list : CellName -> string -> list netid;
  net_attr : string -> string -> option string
}.

Definition bits_eqb (a b : list netid) : bool :=
  if list_eq_dec Z.eq_dec a b then true else false.

(** A path from [pin] to [pout] is registered when a [$dff] cell has the
    bits of [pin] on [D] and the bits of [pout] on [Q]. *)
Definition is_registered_path (tmod : TimingQueries) (pin pout : string) : bool :=
  existsb
    (fun '(cell, ctype) =>
       String.eqb ctype "$dff" &&
       (bits_eqb (port_conns tmod pin) (cell_conn_list tmod cell "D") &&
        bits_eqb (port_conns tmod pout) (cell_conn_list tmod cell "Q")))
    (all_cells tmod).

(** [l.remove(x)]: the first element equal to [x] is taken out. *)
Fixpoint remove_first (x : string) (l : list string) : list string :=
  match l with
  | [] => []
  | y :: l' => if String.eqb x y then l' else y :: remove_first x l'
  end.

(** The loop [for sink in sinks: if registered(sink): sinks.remove(sink)].
    The iterator of a list keeps an index [i] into the list as it is now
    and stops when the index reaches its end, so the loop is run on the
    list and the index; it makes at most [len(sinks)] turns, which is the
    [fuel]. *)
Fixpoint prune_from (registered : string -> bool) (fuel i : nat)
    (sinks : list string) : list string :=
  match fuel with
  | 0 => sinks
  | S fuel' =>
      match nth_error sinks i with
      | None => sinks
      | Some sink =>
          if registered sink
          then prune_from registered fuel' (S i) (remove_first sink sinks)
          else prune_from registered fuel' (S i) sinks
      end
  end.

Definition prune_sinks (registered : string -> bool) (sinks : list string)
  : list string :=
  prune_from registered (length sinks) 0 sinks.

(** A loop whose body can stop the program. *)
Fixpoint loop {A S : Type} (body : S -> A -> option S) (l : list A) (s : S)
  : option S :=
  match l with
  | [] => Some s
  | a :: l' =>
      match body s a with
      | Some s' => loop body l' s'
      | None => None
      end
  end.

Section ModelPort.

(** The answers of Yosys for the top module: [run.list_clocks],
    [run.get_clock_assoc_signals] for a clock, and
    [run.get_related_output_for_input] and [run.get_combinational_sinks]
    for a port. *)
Variable clocks : list string.
Variable get_clock_assoc_signals : string -> list string.
Variable get_related_output_for_input : string -> list string.
Variable get_combinational_sinks : string -> list string.

(** [utils.is_clock_name]. *)
Variable is_clock_name : string -> bool.

(** [int(v)] on the value of an attribute; [None] when it raises. *)
Variable py_int : string -> option Z.

Variable tmod : YosysModule.
Variable tq : TimingQueries.

(** [None] stands for the failed assertion on a bidirectional port. *)
Definition is_clock_assoc (clk port direction : string) : option bool :=
  let clock_assoc_signals := get_clock_assoc_signals clk in
  if String.eqb direction "input" then
    Some (existsb (fun out => mem out clock_assoc_signals)
            (get_related_output_for_input port))
  else if String.eqb direction "output" then Some (mem port clock_assoc_signals)
  else None.

(** [NO_COMB] and [NO_SEQ] of a port: not given, or [bool(int(v))]. *)
Definition port_flag (port attr_name : string) : option (option bool) :=
  match net_attr tq port attr_name with
  | None => Some None
  | Some v => option_map (fun z => Some (negb (Z.eqb z 0))) (py_int v)
  end.

Definition port_is_clock (port : string) : option bool :=
  match PyDict.get "CLOCK" (port_attrs tmod port) with
  | Some v => option_map (fun z => negb (Z.eqb z 0)) (py_int v)
  | None => Some (mem port clocks || is_clock_name port)
  end.

(** [x is not True]. *)
Definition is_not_true (x : option bool) : bool :=
  match x with Some true => false | _ => true end.

(** [x is False]. *)
Definition is_false (x : option bool) : bool :=
  match x with Some false => true | _ => false end.

Definition non_empty {A : Type} (l : list A) : bool :=
  match l with [] => false | _ :: _ => true end.

(** The body of the loop over the clocks; the attribute is written inside
    the loop. *)
Definition clock_step (port iodir : string) (no_seq : option bool)
    (st : list string * attrs) (clk : string) : option (list string * attrs) :=
  let '(clks, attrs) := st in
  match is_clock_assoc clk port iodir with
  | None => None
  | Some assoc =>
      let clks := if assoc then clks ++ [clk] else clks in
      let attrs :=
        if non_empty clks && is_not_true no_seq
        then PyDict.set "clock" (String.concat " " clks) attrs
        else attrs in
      Some (clks, attrs)
  end.

(** The body of the loop over the ports of a leaf model: the list the port
    element goes to ([input] for [input_ports], [output] for
    [output_ports]) and its attributes. *)
Definition model_port (port : Port) : option (string * attrs) :=
  let name := port_name port in
  let iodir := port_iodir port in
  match port_flag name "NO_COMB", port_flag name "NO_SEQ", port_is_clock name with
  | Some no_comb, Some no_seq, Some is_clock =>
      let attrs : attrs := [("name", name)] in
      let sinks :=
        prune_sinks (is_registered_path tq name) (get_combinational_sinks name) in
      match
        (if is_clock then Some (PyDict.set "is_clock" "1" attrs)
         else option_map snd (loop (clock_step name iodir no_seq) clocks ([], attrs)))
      with
      | None => None
      | Some attrs =>
          let attrs :=
            if non_empty sinks && String.eqb iodir "input" &&
               ((negb is_clock && is_not_true no_comb) ||
                (is_clock && is_false no_comb))
            then PyDict.set "combinational_sink_ports"
                   (String.concat " " sinks) attrs
            else attrs in
          if String.eqb iodir "input" then Some ("input", attrs)
          else if String.eqb iodir "output" then Some ("output", attrs)
          else None
      end
  | _, _, _ => None
  end.

(** The clocks a port is associated with. *)
Definition assoc_clocks (port iodir : string) : list string :=
  filter
    (fun clk =>
       match is_clock_assoc clk port iodir with Some b => b | None => false end)
    clocks.

End ModelPort.

(* ===================================================================== *)
(** ** make_pb_type: the ports *)

(** A [clock], [input] or [output] element: its tag, its attributes and the
    name of its carry pack pattern, if it has one. *)
Definition PortElement : Type := (string * attrs * option string)%type.

Definition clocks_add (x : string) (clocks : list string) : list string :=
  if mem x clocks then clocks else x :: clocks.

Definition clocks_discard (x : string) (clocks : list string) : list string :=
  filter (fun y => negb (String.eqb x y)) clocks.

Section MakePorts.

(** [run.list_clocks], [utils.is_clock_name], [int(v)] on the value of an
    attribute ([None] when it raises) and [mod.net_attr]. *)
Variable list_clocks : list string.
Variable is_clock_name : string -> bool.
Variable py_int : string -> option Z.
Variable mod_net_attr : string -> string -> option string.

Variable mdl : YosysModule.

(** [is_clock] at the end of a turn of the loop over the ports. *)
Definition pb_port_is_clock (port : Port) : option bool :=
  let is_clock := is_clock_name (port_name port) in
  let is_clock :=
    if String.eqb (port_iodir port) "output" then false else is_clock in
  match PyDict.get "CLOCK" (port_attrs mdl (port_name port)) with
  | Some v => option_map (fun z => negb (Z.eqb z 0)) (py_int v)
  | None => Some is_clock
  end.

(** The set [clocks] after the loop over the ports. *)
Definition pb_clocks : option (list string) :=
  loop
    (fun clocks port =>
       match pb_port_is_clock port with
       | Some true => Some (clocks_add (port_name port) clocks)
       | Some false => Some (clocks_discard (port_name port) clocks)
       | None => None
       end)
    (ports mdl) (py_set list_clocks).

Definition port_ioattrs (port : Port) : attrs :=
  let ioattrs : attrs :=
    [("name", port_name port); ("num_pins", str_of_nat (port_width port))] in
  match mod_net_attr (port_name port) "PORT_CLASS" with
  | Some pclass => PyDict.set "port_class" pclass ioattrs
  | None => ioattrs
  end.

Definition port_carry (port : Port) : option string :=
  match PyDict.get "carry" (port_attrs mdl (port_name port)) with
  | Some carry_name => if String.eqb carry_name "" then None else Some carry_name
  | None => None
  end.

(** [only_type and only_type != t]. *)
Definition other_type (only_type : option string) (t : string) : bool :=
  match only_type with
  | Some o => negb (String.eqb o "") && negb (String.eqb o t)
  | None => false
  end.

(** The body of the loop of [make_ports]; [None] is the failed assertion
    on a bidirectional port. *)
Definition make_ports_step (clocks : list string) (only_type : option string)
    (els : list PortElement) (port : Port) : option (list PortElement) :=
  let ioattrs := port_ioattrs port in
  if mem (port_name port) clocks then
    if other_type only_type "clocks" then Some els
    else Some (els ++ [("clock", ioattrs, port_carry port)])
  else if String.eqb (port_iodir port) "input" then
    if other_type only_type "inputs" then Some els
    else Some (els ++ [("input", ioattrs, port_carry port)])
  else if String.eqb (port_iodir port) "output" then
    if other_type only_type "outputs" then Some els
    else Some (els ++ [("output", ioattrs, port_carry port)])
  else None.

Definition make_ports (clocks : list string) (only_type : option string)
    (els : list PortElement) : option (list PortElement) :=
  loop (make_ports_step clocks only_type) (ports mdl) els.

(** The three calls of [make_ports] in [make_pb_type]. *)
Definition pb_ports : option (list PortElement) :=
  match pb_clocks with
  | None => None
  | Some clocks =>
      match make_ports clocks (Some "clocks") [] with
      | None => None
      | Some els =>
          match make_ports clocks (Some "inputs") els with
          | None => None
          | Some els => make_ports clocks (Some "outputs") els
          end
      end
  end.

(** The kind of element of a port, from the port alone. *)
Definition port_kind (port : Port) : option string :=
  match pb_port_is_clock port with
  | Some true => Some "clock"
  | Some false =>
      if String.eqb (port_iodir port) "input" then Some "input"
      else if String.eqb (port_iodir port) "output" then Some "output"
      else None
  | None => None
  end.

Definition of_kind (k : string) (port : Port) : bool :=
  match port_kind port with
  | Some k' => String.eqb k' k
  | None => false
  end.

Definition port_element (port : Port) : PortElement :=
  (match port_kind port with Some k => k | None => "" end,
   port_ioattrs port, port_carry port).

End MakePorts.

(* ===================================================================== *)
(** ** make_leaf_pb *)

(** A timing element: its tag, its attributes and its text, if any. *)
Definition TimingElement : Type := (string * attrs * option string)%type.

(** [s.replace(a, b)] for single characters. *)
Fixpoint replace_char (a b : ascii) (s : string) : string :=
  match s with
  | EmptyString => EmptyString
  | String c s' => String (if Ascii.eqb c a then b else c) (replace_char a b s')
  end.

(** [s[n:]]. *)
Definition drop_chars (n : nat) (s : string) : string :=
  substring n (String.length s - n) s.

(** [process_clocked_tmg]; [None] is a failed assertion. *)
Definition process_clocked_tmg (tmgspec : option string)
    (port iodir xmltype : string) : option (list TimingElement) :=
  match tmgspec with
  | None => Some []
  | Some tmgspec =>
      match split_on " " tmgspec with
      | [clock; value] =>
          let attrs : attrs := [("port", port); ("clock", clock)] in
          if String.eqb xmltype "T_clock_to_Q" then
            if String.eqb iodir "output"
            then Some [(xmltype, PyDict.set "max" value attrs, None)]
            else None
          else Some [(xmltype, PyDict.set "value" value attrs, None)]
      | _ => None
      end
  end.

(** The elements for the combinational delays of a port, from the
    attributes of its net. *)
Definition delay_elements (port : string) (net_attrs : attrs)
  : list TimingElement :=
  flat_map
    (fun '(attr, atvalue) =>
       if String.prefix "DELAY_CONST_" attr then
         [("delay_constant",
           [("in_port", drop_chars (String.length "DELAY_CONST_") attr);
            ("out_port", port); ("max", atvalue)],
           None)]
       else if String.prefix "DELAY_MATRIX_" attr then
         [("delay_matrix",
           [("in_port", drop_chars (String.length "DELAY_MATRIX_") attr);
            ("out_port", port); ("type", "max")],
           Some (String newline
                   (replace_char ";" newline atvalue ++ String newline "")))]
       else [])
    net_attrs.

Section MakeLeafPb.

(** [mod.net_attr] and [mod.net_attrs]. *)
Variable mod_net_attr : string -> string -> option string.
Variable mod_net_attrs : string -> attrs.

Variable mdl : YosysModule.

(** The elements written on the turn of one port. *)
Definition leaf_port (p : Port) : option (list TimingElement) :=
  let port := port_name p in
  let iodir := port_iodir p in
  match process_clocked_tmg (mod_net_attr port "SETUP") port iodir "T_setup",
        process_clocked_tmg (mod_net_attr port "HOLD") port iodir "T_hold",
        process_clocked_tmg (mod_net_attr port "CLK_TO_Q") port iodir "T_clock_to_Q"
  with
  | Some setup, Some hold, Some ctoq =>
      Some (setup ++ hold ++ ctoq ++ delay_elements port (mod_net_attrs port))
  | _, _, _ => None
  end.

Definition make_leaf_pb : option (list TimingElement) :=
  loop
    (fun els p =>
       match leaf_port p with
       | Some more => Some (els ++ more)
       | None => None
       end)
    (ports mdl) [].

(** A timing attribute that is given has two parts around one blank. *)
Definition two_parts (tmgspec : option string) : Prop :=
  forall s, tmgspec = Some s ->
            exists clock value, split_on " " s = [clock; value].

Definition well_timed (p : Port) : Prop :=
  two_parts (mod_net_attr (port_name p) "SETUP") /\
  two_parts (mod_net_attr (port_name p) "HOLD") /\
  two_parts (mod_net_attr (port_name p) "CLK_TO_Q") /\
  (mod_net_attr (port_name p) "CLK_TO_Q" <> None ->
   port_iodir p = "output"%string).

End MakeLeafPb.

(** The port an element is about. *)
Definition element_port (e : TimingElement) : option string :=
  match PyDict.get "port" (snd (fst e)) with
  | Some p => Some p
  | None => PyDict.get "out_port" (snd (fst e))
  end.
(* ===================================================================== *)
(** * Properties *)

(** ** Keys and membership *)

Lemma eqb_refl {K : Type} `{EqB K} (x : K) : eqb x x = true.
Proof. destruct (eqb_spec x x); congruence. Qed.

Lemma eqb_neq {K : Type} `{EqB K} (x y : K) : x <> y -> eqb x y = false.
Proof. intros Hn; destruct (eqb_spec x y); congruence. Qed.

Lemma eqb_eq {K : Type} `{EqB K} (x y : K) : eqb x y = true -> x = y.
Proof. destruct (eqb_spec x y); congruence. Qed.

Lemma mem_In {K : Type} `{EqB K} (x : K) (l : list K) :
  mem x l = true <-> In x l.
Proof.
  unfold mem; rewrite existsb_exists; split.
  - intros [y [Hy He]]; apply eqb_eq in He; congruence.
  - intros Hi; exists x; split; [assumption | apply eqb_refl].
Qed.

(** ** Dictionary facts *)

Module PyDictFacts.
Import PyDict.

Section Facts.
Context {K V : Type} `{EqB K}.
Implicit Types (d : dict K V).

Lemma get_set_same (k : K) (v : V) d : get k (set k v d) = Some v.
Proof.
  induction d as [|[k' v'] d IH]; simpl.
  - now rewrite eqb_refl.
  - destruct (eqb k k') eqn:E; simpl; rewrite E; auto.
Qed.

Lemma get_set_other (k k0 : K) (v : V) d :
  k0 <> k -> get k0 (set k v d) = get k0 d.
Proof.
  intros Hn; induction d as [|[k' v'] d IH]; simpl.
  - now rewrite (eqb_neq _ _ Hn).
  - destruct (eqb k k') eqn:E; simpl.
    + apply eqb_eq in E; subst k'. now rewrite (eqb_neq _ _ Hn).
    + now rewrite IH.
Qed.

Lemma get_set (k k0 : K) (v : V) d :
  get k0 (set k v d) = if eqb k0 k then Some v else get k0 d.
Proof.
  destruct (eqb_spec k0 k) as [->|Hn].
  - apply get_set_same.
  - now apply get_set_other.
Qed.

Lemma get_In (k : K) (v : V) d : get k d = Some v -> In (k, v) d.
Proof.
  induction d as [|[k' v'] d IH]; simpl; [discriminate|].
  destruct (eqb_spec k k') as [->|Hn].
  - intros [= ->]; now left.
  - intros Hg; right; auto.
Qed.

Lemma get_None_keys (k : K) d : get k d = None <-> ~ In k (keys d).
Proof.
  induction d as [|[k' v'] d IH]; simpl; [tauto|].
  destruct (eqb_spec k k') as [->|Hn].
  - split; [discriminate | intros Hni; exfalso; apply Hni; now left].
  - rewrite IH. split; [intros Hg [He|Hi]; [congruence | tauto] | tauto].
Qed.

Lemma has_keys (k : K) d : has k d = true <-> In k (keys d).
Proof.
  unfold has; destruct (get k d) eqn:E.
  - split; [intros _|reflexivity].
    apply get_In in E. unfold keys. now apply (in_map fst) in E.
  - split; [discriminate|]. intros Hi. apply get_None_keys in E; tauto.
Qed.

Lemma In_get (k : K) (v : V) d :
  NoDup (keys d) -> In (k, v) d -> get k d = Some v.
Proof.
  induction d as [|[k' v'] d IH]; simpl; [tauto|].
  intros Hnd [He|Hi].
  - injection He as -> ->. now rewrite eqb_refl.
  - inversion Hnd as [|? ? Hni Hnd']; subst.
    destruct (eqb_spec k k') as [->|Hn]; [|auto].
    exfalso; apply Hni. now apply (in_map fst) in Hi.
Qed.

Lemma keys_set (k : K) (v : V) d :
  keys (set k v d) = if has k d then keys d else keys d ++ [k].
Proof.
  unfold has; induction d as [|[k' v'] d IH]; simpl; [reflexivity|].
  destruct (eqb_spec k k') as [->|Hn]; simpl; [reflexivity|].
  rewrite IH. now destruct (get k d).
Qed.

Lemma NoDup_keys_set (k : K) (v : V) d :
  NoDup (keys d) -> NoDup (keys (set k v d)).
Proof.
  intros Hnd; rewrite keys_set. destruct (has k d) eqn:E; [assumption|].
  apply NoDup_app; [assumption | repeat constructor; simpl; tauto |].
  intros x Hx [<-|[]]. apply has_keys in Hx; congruence.
Qed.

(** The doctests of [strip_name]. *)

End Facts.

End PyDictFacts.

(** ** The doctests of the source *)

Example strip_name_doctest_1 :
  strip_name "$genblock$/tests/multiple_instance/multiple_instance.sim.v:12$64[57].\comb" true
  = Ok "comb[57]".
Proof. vm_compute. reflexivity. Qed.

Example strip_name_doctest_2 :
  strip_name "$genblock$/tests/multiple_instance/multiple_instance.sim.v:12$64[57].\comb" false
  = Ok "comb".
Proof. vm_compute. reflexivity. Qed.

Example strip_name_doctest_3 :
  strip_name "$genblock$/tests/multiple_instance/multiple_instance.sim.v:15$10[3].\comba" true
  = Ok "comba[3]".
Proof. vm_compute. reflexivity. Qed.

Example parse_fasm_attribute_plain :
  parse_fasm_attribute "FASM_FEATURES" = (Some "FASM_FEATURES", None).
Proof. reflexivity. Qed.

Example parse_fasm_attribute_mode :
  parse_fasm_attribute "FASM_FEATURES_MODE_A" = (Some "FASM_FEATURES", Some "MODE_A").
Proof. vm_compute. reflexivity. Qed.

Example parse_fasm_attribute_other :
  parse_fasm_attribute "CLASS" = (None, None).
Proof. vm_compute. reflexivity. Qed.

Example update_metadata_p1_p2 :
  update_metadata [("fasm_prefix", "p1")] [("fasm_prefix", "p2")] (PyStr "fasm_prefix")
  = Ok [("fasm_prefix", "p1 p2")].
Proof. vm_compute. reflexivity. Qed.


(** ** Loops in the error monad *)

Lemma bind_Ok {A B : Type} (m : result A) (f : A -> result B) (b : B) :
  bind m f = Ok b -> exists a, m = Ok a /\ f a = Ok b.
Proof. destruct m as [a|e]; simpl; [eauto | discriminate]. Qed.

Lemma assert_Ok (c : bool) (e : error) (u : unit) : assert c e = Ok u -> c = true.
Proof. destruct c; simpl; [reflexivity | discriminate]. Qed.

Lemma for_each_app {A S : Type} (body : S -> A -> result S) (l1 l2 : list A) (s : S) :
  for_each body (l1 ++ l2) s = (s' <- for_each body l1 s ;; for_each body l2 s').
Proof.
  revert s; induction l1 as [|a l1 IH]; intros s; simpl; [reflexivity|].
  destruct (body s a); simpl; auto.
Qed.

(** An invariant kept by the body is kept by the loop. *)
Lemma for_each_invariant {A S : Type} (P : S -> Prop) (body : S -> A -> result S)
    (l : list A) :
  (forall s a s', In a l -> P s -> body s a = Ok s' -> P s') ->
  forall s s', P s -> for_each body l s = Ok s' -> P s'.
Proof.
  induction l as [|a l IH]; intros Hstep s s' Hs; simpl.
  - intros [= <-]; assumption.
  - intros Hb. apply bind_Ok in Hb as (s1 & H1 & H2).
    apply (IH (fun s0 a0 s0' Hi => Hstep s0 a0 s0' (or_intror Hi)) s1 s');
      [|assumption].
    apply (Hstep s a s1); simpl; auto.
Qed.

(** A loop that succeeds has run its body with success on every element. *)
Lemma for_each_In {A S : Type} (body : S -> A -> result S) (l : list A) (a : A) :
  In a l ->
  forall s s', for_each body l s = Ok s' ->
  exists s1 s2, body s1 a = Ok s2.
Proof.
  induction l as [|x l IH]; intros Hi s s'; simpl; [destruct Hi|].
  intros Hb. apply bind_Ok in Hb as (s1 & H1 & H2).
  destruct Hi as [->|Hi]; eauto.
Qed.

(* ===================================================================== *)
(** ** strip_name *)

(** C10: a name that does not start with the generate-block prefix is
    returned unchanged by [strip_name], whatever the [include_index] flag. *)
Theorem strip_name_identity_without_genblock (nm : string) (include_index : bool) :
  String.prefix "$genblock$" nm = false ->
  strip_name nm include_index = Ok nm.
Proof.
  intros Hp. unfold strip_name. rewrite Hp. reflexivity.
Qed.

Lemma strip_name_identity_without_genblock_witness :
  String.prefix "$genblock$" "lut[3]" = false /\
  strip_name "lut[3]" true = Ok "lut[3]" /\
  strip_name "lut[3]" false = Ok "lut[3]".
Proof.
  split; [reflexivity|].
  split; apply strip_name_identity_without_genblock; reflexivity.
Defined.

(* ===================================================================== *)
(** ** Scope checks on metadata *)

Lemma not_allowed_scan (keys not_allowed : list string) :
  for_each
    (fun (_ : unit) key =>
       if mem key not_allowed then Err ScopeViolationError else Ok tt)
    keys tt
  = if existsb (fun key => mem key not_allowed) keys
    then Err ScopeViolationError else Ok tt.
Proof.
  induction keys as [|k keys IH]; simpl; [reflexivity|].
  destruct (mem k not_allowed); simpl; [reflexivity | exact IH].
Qed.

Lemma existsb_mem_has (md : attrs) (not_allowed : list string) :
  existsb (fun key => mem key not_allowed) (PyDict.keys md)
  = existsb (fun key => PyDict.has key md) not_allowed.
Proof.
  apply eq_true_iff_eq. rewrite !existsb_exists. split.
  - intros (k & Hk & Hm). apply mem_In in Hm.
    exists k; split; [assumption|]. now apply PyDictFacts.has_keys.
  - intros (k & Hk & Hm). apply PyDictFacts.has_keys in Hm.
    exists k; split; [assumption|]. now apply mem_In.
Qed.

Lemma sanity_check_child_metadata_spec (md : attrs) :
  sanity_check_child_metadata md
  = if PyDict.has "fasm_params" md || PyDict.has "fasm_lut" md
    then Err ScopeViolationError else Ok tt.
Proof.
  unfold sanity_check_child_metadata. rewrite not_allowed_scan, existsb_mem_has.
  simpl. now rewrite orb_false_r.
Qed.

Lemma sanity_check_parent_metadata_spec (md : attrs) :
  sanity_check_parent_metadata md
  = if PyDict.has "fasm_prefix" md then Err ScopeViolationError else Ok tt.
Proof.
  unfold sanity_check_parent_metadata. rewrite not_allowed_scan, existsb_mem_has.
  simpl. now rewrite orb_false_r.
Qed.

(** C9, as the code has it: metadata of a module instance is rejected
    exactly when it has the key fasm_params or fasm_lut, and metadata of a
    module definition exactly when it has the key fasm_prefix. *)
Theorem metadata_scope_checks (md : attrs) :
  sanity_check_child_metadata md
  = (if PyDict.has "fasm_params" md || PyDict.has "fasm_lut" md
     then Err ScopeViolationError else Ok tt) /\
  sanity_check_parent_metadata md
  = (if PyDict.has "fasm_prefix" md then Err ScopeViolationError else Ok tt).
Proof.
  split;
    [apply sanity_check_child_metadata_spec
    | apply sanity_check_parent_metadata_spec].
Qed.

(** C9, counterexample: feature tags on a module instance pass the check
    of instance metadata. *)
Lemma instance_feature_tags_accepted :
  let md := metadata_from_attributes [("FASM_FEATURES", "F1;F2")] None in
  PyDict.has "fasm_features" md = true /\
  sanity_check_child_metadata md = Ok tt /\
  child_metadata [] [("lut", [("FASM_FEATURES", "F1;F2")])]
  = Ok [("fasm_features", "F1;F2")].
Proof. vm_compute. repeat split; reflexivity. Qed.

(* ===================================================================== *)
(** ** update_metadata *)

Arguments update_metadata_step : simpl never.

Section UpdateMetadata.
Variable concatenate_keys : py_container.

Lemma update_metadata_step_get (md md' : attrs) (k v key : string) :
  update_metadata_step concatenate_keys md (k, v) = Ok md' ->
  PyDict.get key md'
  = if String.eqb key k then merged concatenate_keys k (PyDict.get k md) (Some v)
    else PyDict.get key md.
Proof.
  unfold update_metadata_step, merged.
  destruct (PyDict.get k md) as [old|] eqn:Eold.
  - destruct (py_in k concatenate_keys).
    + intros [= <-]. exact (PyDictFacts.get_set k key _ md).
    + destruct (String.eqb old v); [|discriminate].
      intros [= <-]. destruct (String.eqb_spec key k) as [->|]; auto.
  - intros [= <-]. exact (PyDictFacts.get_set k key _ md).
Qed.

Lemma update_metadata_get (new md d : attrs) :
  NoDup (PyDict.keys new) ->
  update_metadata md new concatenate_keys = Ok d ->
  forall key, PyDict.get key d = merged concatenate_keys key (PyDict.get key md) (PyDict.get key new).
Proof.
  unfold update_metadata. revert md.
  induction new as [|[k v] new IH]; intros md Hnd; simpl.
  - intros [= <-] key. reflexivity.
  - intros Hb key. apply bind_Ok in Hb as (md1 & Hstep & Hrest).
    inversion Hnd as [|? ? Hk Hnd']; subst.
    rewrite (IH md1 Hnd' Hrest key).
    rewrite (update_metadata_step_get md md1 k v key Hstep).
    change (eqb key k) with (String.eqb key k).
    destruct (String.eqb_spec key k) as [->|Hn]; [|reflexivity].
    apply PyDictFacts.get_None_keys in Hk. rewrite Hk. reflexivity.
Qed.

Lemma update_metadata_error (new md : attrs) (e : error) :
  update_metadata md new concatenate_keys = Err e -> e = MetadataConflictError.
Proof.
  unfold update_metadata. revert md.
  induction new as [|[k v] new IH]; intros md; simpl; [discriminate|].
  destruct (update_metadata_step concatenate_keys md (k, v)) as [md1|e1] eqn:Hs;
    simpl; [apply IH|].
  intros [= <-]. unfold update_metadata_step in Hs.
  destruct (PyDict.get k md); [|discriminate].
  destruct (py_in k concatenate_keys); [discriminate|].
  destruct (String.eqb s v); congruence.
Qed.

Lemma update_metadata_conflict (new md : attrs) (key a b : string) :
  PyDict.get key md = Some a ->
  PyDict.get key new = Some b ->
  py_in key concatenate_keys = false ->
  a <> b ->
  update_metadata md new concatenate_keys = Err MetadataConflictError.
Proof.
  unfold update_metadata. revert md.
  induction new as [|[k v] new IH]; intros md Ha Hb Hc Hab; simpl in *;
    [discriminate|].
  change (eqb key k) with (String.eqb key k) in Hb.
  destruct (String.eqb_spec key k) as [->|Hn].
  - injection Hb as ->. unfold update_metadata_step. rewrite Ha, Hc.
    rewrite (proj2 (String.eqb_neq a b) Hab). reflexivity.
  - destruct (update_metadata_step concatenate_keys md (k, v)) as [md1|e1] eqn:Hs;
      simpl.
    + apply IH; auto.
      rewrite (update_metadata_step_get md md1 k v key Hs).
      now rewrite (proj2 (String.eqb_neq key k) Hn).
    + f_equal. apply (update_metadata_error [(k, v)] md).
      unfold update_metadata; simpl. now rewrite Hs.
Qed.

Lemma update_metadata_disjoint (new md : attrs) :
  NoDup (PyDict.keys new) ->
  (forall k, In k (PyDict.keys new) -> PyDict.get k md = None) ->
  exists d, update_metadata md new concatenate_keys = Ok d /\
    forall key, PyDict.get key d
                = match PyDict.get key md with
                  | Some a => Some a
                  | None => PyDict.get key new
                  end.
Proof.
  unfold update_metadata. revert md.
  induction new as [|[k v] new IH]; intros md Hnd Hdis; simpl.
  - exists md; split; [reflexivity|]. intros key. now destruct (PyDict.get key md).
  - inversion Hnd as [|? ? Hk Hnd']; subst.
    assert (Hs : update_metadata_step concatenate_keys md (k, v)
                 = Ok (PyDict.set k v md)).
    { unfold update_metadata_step. rewrite (Hdis k); simpl; auto. }
    rewrite Hs; simpl.
    destruct (IH (PyDict.set k v md) Hnd') as (d & Hd & Hget).
    { intros k' Hk'. rewrite PyDictFacts.get_set_other.
      - apply Hdis; simpl; auto.
      - intros ->; contradiction. }
    exists d; split; [assumption|]. intros key. rewrite Hget.
    rewrite PyDictFacts.get_set.
    change (eqb key k) with (String.eqb key k).
    destruct (String.eqb_spec key k) as [->|Hn]; [|reflexivity].
    rewrite (Hdis k); simpl; auto.
Qed.

End UpdateMetadata.

(** C8: merging [new_metadata] into [metadata] appends the new value of a
    concatenable key to the old one after one space, fails with
    [MetadataConflictError] on a key of both mappings that is not
    concatenable and has two different values, and gives equal mappings in
    both directions when the key sets are disjoint. *)
Theorem update_metadata_merge_policy
    (metadata new_metadata : attrs) (concatenate_keys : py_container) :
  NoDup (PyDict.keys metadata) ->
  NoDup (PyDict.keys new_metadata) ->
  (forall d key a b,
      update_metadata metadata new_metadata concatenate_keys = Ok d ->
      PyDict.get key metadata = Some a ->
      PyDict.get key new_metadata = Some b ->
      py_in key concatenate_keys = true ->
      PyDict.get key d = Some (a ++ " " ++ b)%string) /\
  (forall key a b,
      PyDict.get key metadata = Some a ->
      PyDict.get key new_metadata = Some b ->
      py_in key concatenate_keys = false ->
      a <> b ->
      update_metadata metadata new_metadata concatenate_keys
      = Err MetadataConflictError) /\
  ((forall k, In k (PyDict.keys metadata) -> ~ In k (PyDict.keys new_metadata)) ->
   exists d1 d2,
     update_metadata metadata new_metadata concatenate_keys = Ok d1 /\
     update_metadata new_metadata metadata concatenate_keys = Ok d2 /\
     dict_equal d1 d2) /\
  update_metadata [("fasm_prefix", "p1")] [("fasm_prefix", "p2")]
    (PyTuple ["fasm_prefix"])
  = Ok [("fasm_prefix", "p1 p2")].
Proof.
  intros Hnd Hnd'. repeat split.
  - intros d key a b Hd Ha Hb Hc.
    rewrite (update_metadata_get concatenate_keys _ _ _ Hnd' Hd key), Ha, Hb.
    simpl. now rewrite Hc.
  - intros key a b. apply update_metadata_conflict.
  - intros Hdis.
    destruct (update_metadata_disjoint concatenate_keys new_metadata metadata Hnd')
      as (d1 & Hd1 & Hg1).
    { intros k Hk. apply PyDictFacts.get_None_keys. intros Hk'.
      exact (Hdis k Hk' Hk). }
    destruct (update_metadata_disjoint concatenate_keys metadata new_metadata Hnd)
      as (d2 & Hd2 & Hg2).
    { intros k Hk. apply PyDictFacts.get_None_keys. now apply Hdis. }
    exists d1, d2; repeat split; try assumption.
    intros key. rewrite Hg1, Hg2.
    destruct (PyDict.get key metadata) as [a|] eqn:Ea;
      destruct (PyDict.get key new_metadata) as [b|] eqn:Eb; try reflexivity.
    exfalso. apply (Hdis key).
    + apply PyDictFacts.has_keys. unfold PyDict.has. now rewrite Ea.
    + apply PyDictFacts.has_keys. unfold PyDict.has. now rewrite Eb.
Qed.

Lemma update_metadata_merge_policy_witness :
  (exists d1 d2,
     update_metadata [("fasm_features", "F")] [("fasm_prefix", "P")] (PyTuple [])
     = Ok d1 /\
     update_metadata [("fasm_prefix", "P")] [("fasm_features", "F")] (PyTuple [])
     = Ok d2 /\
     dict_equal d1 d2) /\
  update_metadata [("fasm_features", "F")] [("fasm_features", "G")] (PyTuple [])
  = Err MetadataConflictError.
Proof.
  assert (N1 : NoDup (PyDict.keys [("fasm_features", "F")]))
    by (repeat constructor; simpl; tauto).
  assert (N2 : NoDup (PyDict.keys [("fasm_prefix", "P")]))
    by (repeat constructor; simpl; tauto).
  assert (N3 : NoDup (PyDict.keys [("fasm_features", "G")]))
    by (repeat constructor; simpl; tauto).
  split.
  - apply (update_metadata_merge_policy _ _ (PyTuple []) N1 N2).
    simpl. intros k [<-|[]] [H|[]]. discriminate.
  - apply (proj1 (proj2 (update_metadata_merge_policy _ _ (PyTuple []) N1 N3))
             "fasm_features" "F" "G"); try reflexivity. discriminate.
Defined.

(* ===================================================================== *)
(** ** Attributes of an edge: copy_attrs and net_and_pin_attrs *)

Lemma count_true_le (l : list bool) : count_true l <= length l.
Proof.
  unfold count_true. induction l as [|b l IH]; simpl; [lia|].
  destruct b; lia.
Qed.

Lemma count_true_all (l : list bool) :
  Nat.eqb (length l) (count_true l) = forallb (fun b => b) l.
Proof.
  induction l as [|b l IH]; [reflexivity|].
  pose proof (count_true_le l) as Hle.
  unfold count_true in *. cbn [length map forallb].
  destruct b; cbn [andb].
  - exact IH.
  - apply Nat.eqb_neq. simpl. lia.
Qed.

Lemma forallb_id_map {A : Type} (f : A -> bool) (l : list A) :
  forallb (fun b => b) (map f l) = forallb f l.
Proof. induction l as [|a l IH]; simpl; [reflexivity | now rewrite IH]. Qed.

Lemma count_has_all (k : string) (srcs : list attrs) :
  Nat.eqb (length srcs) (count_true (map (PyDict.has k) srcs))
  = forallb (PyDict.has k) srcs.
Proof.
  pose proof (count_true_all (map (PyDict.has k) srcs)) as Hc.
  rewrite length_map, forallb_id_map in Hc. exact Hc.
Qed.

Lemma all_have_shared (k : string) (srcs : list attrs) :
  In k (all_have srcs) <-> shared k srcs = true.
Proof.
  unfold all_have. rewrite filter_In, count_has_all.
  unfold py_set. rewrite nodup_In, in_concat. split.
  - intros [(ks & Hks & _) Hall]. destruct srcs; [destruct Hks | exact Hall].
  - intros Hs. destruct srcs as [|src0 rest]; [discriminate|].
    split; [|exact Hs]. exists (PyDict.keys src0). split; [now left|].
    simpl in Hs. apply andb_prop in Hs as [H0 _].
    now apply PyDictFacts.has_keys.
Qed.

Lemma NoDup_all_have (srcs : list attrs) : NoDup (all_have srcs).
Proof. unfold all_have, py_set. apply NoDup_filter, NoDup_nodup. Qed.

Lemma subscript_all (k : string) (rest : list attrs) :
  forallb (PyDict.has k) rest = true ->
  exists vs, map_result (subscript k) rest = Ok vs /\
             map Some vs = map (PyDict.get k) rest.
Proof.
  induction rest as [|s rest IH]; simpl.
  - exists []; auto.
  - intros Hb. apply andb_prop in Hb as [Hs Hrest].
    destruct (IH Hrest) as (vs & Hvs & Hmap).
    unfold PyDict.has in Hs. unfold subscript at 1.
    destruct (PyDict.get k s) as [v|] eqn:Ev; [|discriminate].
    exists (v :: vs). simpl. rewrite Hvs. simpl. now rewrite Hmap.
Qed.

Lemma all_equal_loop (v : string) (vs : list string) :
  for_each
    (fun (_ : unit) other =>
       if String.eqb v other then Ok tt else Err AttributeConflictError)
    vs tt
  = if forallb (String.eqb v) vs then Ok tt else Err AttributeConflictError.
Proof.
  induction vs as [|o vs IH]; simpl; [reflexivity|].
  destruct (String.eqb v o); simpl; [exact IH | reflexivity].
Qed.

Lemma differ_existsb (k v : string) (rest : list attrs) (vs : list string) :
  map Some vs = map (PyDict.get k) rest ->
  existsb (fun s => negb (eqb (PyDict.get k s) (Some v))) rest
  = negb (forallb (String.eqb v) vs).
Proof.
  revert vs; induction rest as [|s rest IH]; intros [|o vs];
    cbn [map existsb forallb]; try discriminate; [reflexivity|].
  intros [= Ho Hmap]. rewrite <- Ho, (IH vs Hmap), negb_andb.
  f_equal. cbn. now rewrite (String.eqb_sym o v).
Qed.

(** One turn of the copying loop on a shared attribute. *)
Lemma copy_attr_shared (k : string) (srcs : list attrs) (dst : attrs) :
  shared k srcs = true ->
  copy_attr srcs dst k
  = if conflict k srcs dst then Err AttributeConflictError
    else match shared_value k srcs with
         | Some v => Ok (PyDict.set k v dst)
         | None => Err KeyError
         end.
Proof.
  destruct srcs as [|src0 rest]; [discriminate|].
  intros Hs. cbn [shared forallb] in Hs. apply andb_prop in Hs as [H0 Hrest].
  unfold PyDict.has in H0.
  unfold copy_attr, conflict, shared_value. unfold subscript at 1.
  destruct (PyDict.get k src0) as [v|] eqn:Ev; [|discriminate]. cbn [bind].
  destruct (subscript_all k rest Hrest) as (vs & Hvs & Hmap).
  rewrite Hvs. cbn [bind].
  rewrite all_equal_loop, (differ_existsb k v rest vs Hmap).
  destruct (forallb (String.eqb v) vs); cbn [bind negb orb]; [|reflexivity].
  destruct (PyDict.get k dst) as [dv|]; [|reflexivity].
  cbn. rewrite (String.eqb_sym dv v). now destruct (String.eqb v dv).
Qed.

Lemma shared_value_Some (k : string) (srcs : list attrs) :
  shared k srcs = true -> exists v, shared_value k srcs = Some v.
Proof.
  destruct srcs as [|src0 rest]; [discriminate|]. simpl.
  intros Hs. apply andb_prop in Hs as [H0 _]. unfold PyDict.has in H0.
  destruct (PyDict.get k src0) as [v|]; [eauto | discriminate].
Qed.

Lemma conflict_set_other (k k' v : string) (srcs : list attrs) (dst : attrs) :
  k' <> k -> conflict k' srcs (PyDict.set k v dst) = conflict k' srcs dst.
Proof.
  intros Hn. unfold conflict. destruct srcs; [reflexivity|].
  now rewrite PyDictFacts.get_set_other.
Qed.

(** The copying loop over attributes that are all shared and distinct. *)
Lemma copy_loop (srcs : list attrs) (ks : list string) (dst : attrs) :
  NoDup ks ->
  (forall k, In k ks -> shared k srcs = true) ->
  (existsb (fun k => conflict k srcs dst) ks = true ->
   for_each (copy_attr srcs) ks dst = Err AttributeConflictError) /\
  (existsb (fun k => conflict k srcs dst) ks = false ->
   exists d, for_each (copy_attr srcs) ks dst = Ok d /\
     forall k, PyDict.get k d
               = if mem k ks then shared_value k srcs else PyDict.get k dst).
Proof.
  revert dst; induction ks as [|k ks IH]; intros dst Hnd Hsh; simpl.
  - split; [discriminate|]. intros _. exists dst; auto.
  - inversion Hnd as [|? ? Hk Hnd']; subst.
    rewrite (copy_attr_shared k srcs dst (Hsh k (or_introl eq_refl))).
    destruct (shared_value_Some k srcs (Hsh k (or_introl eq_refl))) as (v & Hv).
    rewrite Hv.
    assert (Hsame : existsb (fun k0 => conflict k0 srcs (PyDict.set k v dst)) ks
                    = existsb (fun k0 => conflict k0 srcs dst) ks).
    { clear IH Hsh Hnd Hnd'. induction ks as [|k1 ks IHks]; [reflexivity|].
      simpl. rewrite conflict_set_other.
      - f_equal. apply IHks. intros Hi; apply Hk; now right.
      - intros ->; apply Hk; now left. }
    destruct (IH (PyDict.set k v dst) Hnd'
                (fun k0 Hi => Hsh k0 (or_intror Hi))) as [IHerr IHok].
    rewrite Hsame in IHerr, IHok.
    destruct (conflict k srcs dst); simpl.
    + split; [reflexivity | discriminate].
    + split; [exact IHerr|]. intros Hno.
      destruct (IHok Hno) as (d & Hd & Hget). exists d; split; [exact Hd|].
      intros k0. rewrite Hget, PyDictFacts.get_set.
      change (eqb k0 k) with (String.eqb k0 k).
      destruct (String.eqb_spec k0 k) as [->|Hn].
      * destruct (mem k ks) eqn:Em; [reflexivity | now rewrite Hv].
      * reflexivity.
Qed.

Lemma copy_attrs_spec (dst : attrs) (srcs : list attrs) :
  ((exists k, shared k srcs = true /\ conflict k srcs dst = true) ->
   copy_attrs dst srcs = Err AttributeConflictError) /\
  ((forall k, shared k srcs = true -> conflict k srcs dst = false) ->
   exists d, copy_attrs dst srcs = Ok d /\
     forall k, PyDict.get k d
               = if shared k srcs then shared_value k srcs else PyDict.get k dst).
Proof.
  unfold copy_attrs.
  destruct (copy_loop srcs (all_have srcs) dst (NoDup_all_have srcs)
              (fun k Hi => proj1 (all_have_shared k srcs) Hi)) as [Herr Hok].
  split.
  - intros (k & Hs & Hc). apply Herr. apply existsb_exists.
    exists k; split; [now apply all_have_shared | exact Hc].
  - intros Hno.
    destruct Hok as (d & Hd & Hget).
    { destruct (existsb (fun k => conflict k srcs dst) (all_have srcs)) eqn:E;
        [|reflexivity].
      apply existsb_exists in E as (k & Hi & Hc).
      apply all_have_shared in Hi. rewrite (Hno k Hi) in Hc. discriminate. }
    exists d; split; [exact Hd|]. intros k. rewrite Hget.
    destruct (shared k srcs) eqn:Es.
    + apply all_have_shared, mem_In in Es. now rewrite Es.
    + destruct (mem k (all_have srcs)) eqn:Em; [|reflexivity].
      apply mem_In, all_have_shared in Em. congruence.
Qed.

Lemma filter_src_fold (x acc : attrs) (k : string) :
  NoDup (PyDict.keys x) ->
  PyDict.get k
    (fold_left
       (fun d '(k0, v0) => if String.eqb k0 "src" then d else PyDict.set k0 v0 d)
       x acc)
  = if String.eqb k "src" then PyDict.get k acc
    else match PyDict.get k x with
         | Some v => Some v
         | None => PyDict.get k acc
         end.
Proof.
  revert acc; induction x as [|[k0 v0] x IH]; intros acc Hnd.
  - simpl. now destruct (String.eqb k "src").
  - inversion Hnd as [|? ? Hk Hnd']; subst.
    cbn [fold_left PyDict.get]. rewrite (IH _ Hnd').
    change (eqb k k0) with (String.eqb k k0).
    destruct (String.eqb k "src") eqn:Esrc.
    + apply String.eqb_eq in Esrc.
      destruct (String.eqb_spec k0 "src") as [E0|E0]; [reflexivity|].
      apply PyDictFacts.get_set_other. congruence.
    + destruct (String.eqb_spec k k0) as [Ek|Hn].
      * rewrite <- Ek, Esrc.
        apply PyDictFacts.get_None_keys in Hk. rewrite <- Ek in Hk. rewrite Hk.
        apply PyDictFacts.get_set_same.
      * destruct (String.eqb k0 "src"); [reflexivity|].
        now rewrite PyDictFacts.get_set_other.
Qed.

(** [filter_src] drops the attribute src and keeps the others. *)
Lemma filter_src_get (x : attrs) (k : string) :
  NoDup (PyDict.keys x) ->
  PyDict.get k (filter_src x) = if String.eqb k "src" then None else PyDict.get k x.
Proof.
  intros Hnd. unfold filter_src. rewrite (filter_src_fold x PyDict.empty k Hnd).
  simpl. now destruct (PyDict.get k x).
Qed.

Lemma net_and_pin_attrs_copy (yj : YosysJSON) (mdl : YosysModule)
    (driver sink : CellPin) (net : netid) :
  net_and_pin_attrs yj mdl driver sink net
  = copy_attrs (filter_src (net_attrs_by_netid mdl net))
      (potential_attrs yj mdl driver sink).
Proof.
  unfold net_and_pin_attrs, potential_attrs, pin_attrs.
  destruct driver as [dc dp], sink as [sc sp]; simpl.
  destruct (cell_type mdl dc), (cell_type mdl sc); reflexivity.
Qed.

(** C2, as the code has it: the attributes of an edge are those of the net
    and, over them, the attributes that are on the declared port of every
    end of the edge that is a cell; resolution fails with
    [AttributeConflictError] when such an attribute has two values on the
    two ports, or a value that is not the one of the net; when it succeeds,
    every attribute of the net is stored with the value of the net. *)
Theorem edge_attributes (yj : YosysJSON) (mdl : YosysModule)
    (driver sink : CellPin) (net : netid) :
  let srcs := potential_attrs yj mdl driver sink in
  let net_attrs := filter_src (net_attrs_by_netid mdl net) in
  ((exists k, shared k srcs = true /\ conflict k srcs net_attrs = true) ->
   net_and_pin_attrs yj mdl driver sink net = Err AttributeConflictError) /\
  ((forall k, shared k srcs = true -> conflict k srcs net_attrs = false) ->
   exists d,
     net_and_pin_attrs yj mdl driver sink net = Ok d /\
     (forall k, PyDict.get k d
                = if shared k srcs then shared_value k srcs
                  else PyDict.get k net_attrs) /\
     (forall k v, PyDict.get k net_attrs = Some v -> PyDict.get k d = Some v)).
Proof.
  intros srcs net_attrs. rewrite net_and_pin_attrs_copy.
  fold srcs net_attrs.
  destruct (copy_attrs_spec net_attrs srcs) as [Herr Hok].
  split; [exact Herr|]. intros Hno.
  destruct (Hok Hno) as (d & Hd & Hget).
  exists d; repeat split; [exact Hd | exact Hget |].
  intros k v Hv. rewrite Hget.
  destruct (shared k srcs) eqn:Es; [|exact Hv].
  specialize (Hno k Es). unfold conflict in Hno. unfold shared_value.
  destruct srcs as [|src0 rest]; [discriminate|].
  apply orb_false_elim in Hno as [_ Hdst]. rewrite Hv in Hdst.
  apply negb_false_iff in Hdst. apply eqb_eq in Hdst. now symmetry.
Qed.

Lemma edge_attributes_witness :
  net_and_pin_attrs (PAIR_json [("pack", "Q")]) (PAIR_module [("pack", "Q")])
    (Some "a", "O") (None, "out") 5%Z
  = Err AttributeConflictError /\
  exists d,
    net_and_pin_attrs (PAIR_json [("carry", "C")]) (PAIR_module [("carry", "C")])
      (Some "a", "O") (None, "out") 5%Z = Ok d /\
    PyDict.get "pack" d = Some "P" /\ PyDict.get "carry" d = Some "C".
Proof.
  split.
  - apply (proj1 (edge_attributes (PAIR_json [("pack", "Q")])
                    (PAIR_module [("pack", "Q")]) (Some "a", "O") (None, "out") 5%Z)).
    exists "pack". split; reflexivity.
  - pose proof (edge_attributes (PAIR_json [("carry", "C")])
                  (PAIR_module [("carry", "C")])
                  (Some "a", "O") (None, "out") 5%Z) as H.
    cbv zeta in H. destruct H as [_ H].
    assert (Hsrcs : potential_attrs (PAIR_json [("carry", "C")])
                      (PAIR_module [("carry", "C")]) (Some "a", "O") (None, "out")
                    = [[("pack", "P")]]) by reflexivity.
    rewrite Hsrcs in H.
    destruct H as (d & Hd & Hget & Hnet).
    + intros k Hk. cbn [shared forallb] in Hk.
      apply andb_prop in Hk as [Hk _].
      apply PyDictFacts.has_keys in Hk. destruct Hk as [<-|[]]. reflexivity.
    + exists d. split; [exact Hd|]. split.
      * rewrite Hget. reflexivity.
      * apply Hnet. reflexivity.
Defined.

(** C2, counterexample: an attribute on the port of the driver alone is not
    among the attributes of the edge, and a value of the net that differs
    from the one on the port of the driver is accepted. *)
Lemma port_attribute_dropped :
  PyDict.get "pack" (port_attrs (PAIR_json [] "LUT") "O") = Some "P" /\
  net_and_pin_attrs (PAIR_json []) (PAIR_module [])
    (Some "a", "O") (Some "b", "D") 5%Z = Ok [] /\
  net_and_pin_attrs (PAIR_json [("pack", "Q")]) (PAIR_module [("pack", "Q")])
    (Some "a", "O") (Some "b", "D") 5%Z = Ok [("pack", "Q")].
Proof. vm_compute. repeat split; reflexivity. Qed.

(* ===================================================================== *)
(** ** Sorting *)

Section SortFacts.
Context {A B : Type} (lt : B -> B -> bool) (key : A -> B).

(** [lt] is a strict total order on keys. *)
Hypothesis lt_irrefl : forall a, lt a a = false.
Hypothesis lt_trans : forall a b c, lt a b = true -> lt b c = true -> lt a c = true.
Hypothesis lt_total : forall a b, lt a b = false -> lt b a = false -> a = b.

Lemma lt_asym (a b : B) : lt a b = true -> lt b a = false.
Proof.
  intros Hab. destruct (lt b a) eqn:Hba; [|reflexivity].
  rewrite <- (lt_irrefl a). symmetry. now apply (lt_trans a b a).
Qed.

Lemma in_order_trans (x y z : A) : (in_order lt key) x y -> (in_order lt key) y z -> (in_order lt key) x z.
Proof.
  unfold in_order. intros Hxy Hyz.
  destruct (lt (key z) (key x)) eqn:Hzx; [|reflexivity].
  destruct (lt (key x) (key y)) eqn:Hlt.
  - rewrite <- Hyz. symmetry. now apply (lt_trans _ (key x)).
  - rewrite (lt_total _ _ Hlt Hxy) in Hzx. congruence.
Qed.

Lemma insert_sorted_perm (x : A) (l : list A) :
  Permutation (x :: l) (insert_sorted lt key x l).
Proof.
  induction l as [|y l IH]; simpl; [apply Permutation_refl|].
  destruct (lt (key y) (key x)); [|apply Permutation_refl].
  apply perm_trans with (y :: x :: l); [apply perm_swap | now apply perm_skip].
Qed.

Lemma py_sort_perm (l : list A) : Permutation l (py_sort lt key l).
Proof.
  induction l as [|x l IH]; simpl; [apply perm_nil|].
  apply perm_trans with (x :: py_sort lt key l);
    [now apply perm_skip | apply insert_sorted_perm].
Qed.

Lemma insert_sorted_sorted (x : A) (l : list A) :
  StronglySorted (in_order lt key) l -> StronglySorted (in_order lt key) (insert_sorted lt key x l).
Proof.
  induction l as [|y l IH]; intros Hs; simpl.
  - repeat constructor.
  - inversion Hs as [|? ? Hs' Hall]; subst.
    destruct (lt (key y) (key x)) eqn:Hyx.
    + constructor; [now apply IH|].
      apply (Permutation_Forall (insert_sorted_perm x l)).
      constructor; [|assumption]. unfold in_order. now apply lt_asym.
    + constructor; [assumption|]. constructor; [exact Hyx|].
      apply Forall_forall. intros z Hz. rewrite Forall_forall in Hall.
      apply (in_order_trans x y z Hyx (Hall z Hz)).
Qed.

Lemma py_sort_sorted (l : list A) : StronglySorted (in_order lt key) (py_sort lt key l).
Proof.
  induction l as [|x l IH]; simpl; [constructor | now apply insert_sorted_sorted].
Qed.

(** A sorted list is a fixed point of the sort. *)
Lemma py_sort_fixed (l : list A) : StronglySorted (in_order lt key) l -> py_sort lt key l = l.
Proof.
  induction l as [|x l IH]; intros Hs; [reflexivity|].
  inversion Hs as [|? ? Hs' Hall]; subst. simpl. rewrite (IH Hs').
  destruct l as [|y l]; [reflexivity|]. simpl.
  inversion Hall as [|? ? Hxy _]; subst. unfold in_order in Hxy. now rewrite Hxy.
Qed.

Lemma py_sort_idempotent (l : list A) :
  py_sort lt key (py_sort lt key l) = py_sort lt key l.
Proof. apply py_sort_fixed, py_sort_sorted. Qed.

(** In a sorted list an element is in order with every later one. *)
Lemma sorted_split (l1 l2 l3 : list A) (x y : A) :
  StronglySorted (in_order lt key) (l1 ++ x :: l2 ++ y :: l3) -> (in_order lt key) x y.
Proof.
  induction l1 as [|z l1 IH]; simpl; intros Hs;
    inversion Hs as [|? ? Hs' Hall]; subst.
  - rewrite Forall_forall in Hall. apply Hall.
    apply in_or_app. right. now left.
  - now apply IH.
Qed.

End SortFacts.

(** *** The order of strings and of pairs of strings *)

Lemma ascii_compare_refl (c : ascii) : Ascii.compare c c = Eq.
Proof. unfold Ascii.compare. apply N.compare_refl. Qed.

Lemma ascii_compare_lt_trans (a b c : ascii) :
  Ascii.compare a b = Lt -> Ascii.compare b c = Lt -> Ascii.compare a c = Lt.
Proof.
  unfold Ascii.compare. rewrite !N.compare_lt_iff. apply N.lt_trans.
Qed.

Lemma string_compare_refl (s : string) : String.compare s s = Eq.
Proof.
  induction s as [|c s IH]; simpl; [reflexivity|].
  now rewrite ascii_compare_refl.
Qed.

Lemma string_compare_lt_trans (a b c : string) :
  String.compare a b = Lt -> String.compare b c = Lt -> String.compare a c = Lt.
Proof.
  revert b c; induction a as [|x a IH]; intros [|y b] [|z c]; simpl;
    try discriminate; try reflexivity.
  destruct (Ascii.compare x y) eqn:Exy; try discriminate;
    destruct (Ascii.compare y z) eqn:Eyz; try discriminate; intros Hab Hbc.
  - apply Ascii.compare_eq_iff in Exy, Eyz. subst.
    rewrite ascii_compare_refl. now apply (IH b c).
  - apply Ascii.compare_eq_iff in Exy. subst. now rewrite Eyz.
  - apply Ascii.compare_eq_iff in Eyz. subst. now rewrite Exy.
  - now rewrite (ascii_compare_lt_trans x y z Exy Eyz).
Qed.

Lemma string_ltb_irrefl (s : string) : String.ltb s s = false.
Proof. unfold String.ltb. now rewrite string_compare_refl. Qed.

Lemma string_ltb_trans (a b c : string) :
  String.ltb a b = true -> String.ltb b c = true -> String.ltb a c = true.
Proof.
  unfold String.ltb. intros Hab Hbc.
  destruct (String.compare a b) eqn:Eab; try discriminate.
  destruct (String.compare b c) eqn:Ebc; try discriminate.
  now rewrite (string_compare_lt_trans a b c Eab Ebc).
Qed.

Lemma string_ltb_total (a b : string) :
  String.ltb a b = false -> String.ltb b a = false -> a = b.
Proof.
  unfold String.ltb. rewrite (String.compare_antisym a b).
  destruct (String.compare b a) eqn:E; simpl; try discriminate.
  intros _ _. symmetry. now apply String.compare_eq_iff.
Qed.

(** The empty string is below every other string. *)
Lemma string_ltb_empty (s : string) : s <> "" -> String.ltb "" s = true.
Proof. destruct s; [congruence | reflexivity]. Qed.

Lemma pair_ltb_irrefl (a : string * string) : pair_ltb a a = false.
Proof. unfold pair_ltb. rewrite String.eqb_refl. apply string_ltb_irrefl. Qed.

Lemma pair_ltb_trans (a b c : string * string) :
  pair_ltb a b = true -> pair_ltb b c = true -> pair_ltb a c = true.
Proof.
  destruct a as [a1 a2], b as [b1 b2], c as [c1 c2]. unfold pair_ltb; simpl.
  destruct (String.eqb_spec a1 b1) as [->|Hab];
    destruct (String.eqb_spec b1 c1) as [->|Hbc]; intros H1 H2.
  - now apply (string_ltb_trans a2 b2 c2).
  - try rewrite (proj2 (String.eqb_neq b1 c1) Hbc); assumption.
  - try rewrite (proj2 (String.eqb_neq a1 c1) Hab); assumption.
  - pose proof (string_ltb_trans a1 b1 c1 H1 H2) as H13.
    destruct (String.eqb_spec a1 c1) as [->|_]; [|exact H13].
    now rewrite string_ltb_irrefl in H13.
Qed.

Lemma pair_ltb_total (a b : string * string) :
  pair_ltb a b = false -> pair_ltb b a = false -> a = b.
Proof.
  destruct a as [a1 a2], b as [b1 b2]. unfold pair_ltb; simpl.
  rewrite (String.eqb_sym b1 a1).
  destruct (String.eqb_spec a1 b1) as [->|Hab]; intros H1 H2.
  - f_equal. now apply string_ltb_total.
  - exfalso. apply Hab. now apply string_ltb_total.
Qed.

Example FAN_get_interconnects :
  get_interconnects FAN_json FAN_module "FAN" ["FAN"; "a"; "b"] = Ok FAN_interconn.
Proof. vm_compute. reflexivity. Qed.

(* ===================================================================== *)
(** ** The order of the sinks of a driver *)

Lemma sink_order_sorted (l : list Sink) :
  StronglySorted sink_order (py_sort pair_ltb pin_sort l).
Proof.
  apply py_sort_sorted;
    [apply pair_ltb_irrefl | apply pair_ltb_trans | apply pair_ltb_total].
Qed.

Lemma sink_order_total (s1 s2 : Sink) : sink_order s1 s2 \/ sink_order s2 s1.
Proof.
  unfold sink_order, in_order.
  destruct (pair_ltb (pin_sort s2) (pin_sort s1)) eqn:E; [right | now left].
  apply (lt_asym pair_ltb pair_ltb_irrefl pair_ltb_trans _ _ E).
Qed.

Lemma sort_sinks_In (ic : Interconn) (driver : CellPin) (sinks : list Sink) :
  In (driver, sinks) (sort_sinks ic) ->
  exists l, In (driver, l) ic /\ sinks = py_sort pair_ltb pin_sort l.
Proof.
  unfold sort_sinks. rewrite in_map_iff. intros ([d l] & [= <- <-] & Hi). eauto.
Qed.

Lemma sort_sinks_idempotent (ic : Interconn) :
  sort_sinks (sort_sinks ic) = sort_sinks ic.
Proof.
  unfold sort_sinks. rewrite map_map. apply map_ext. intros [d l].
  f_equal. apply py_sort_fixed, sink_order_sorted.
Qed.

(** A sink on the boundary is strictly below a sink owned by a cell. *)
Lemma boundary_below_owned (s1 s2 : Sink) (c : CellName) :
  fst (fst s1) = None -> fst (fst s2) = Some c -> c <> "" ->
  pair_ltb (pin_sort s1) (pin_sort s2) = true.
Proof.
  destruct s1 as [[o1 p1] a1], s2 as [[o2 p2] a2]; simpl.
  intros -> -> Hc. unfold pair_ltb; simpl.
  destruct c as [|x c]; [congruence | reflexivity].
Qed.

(** C6: in the result of [get_interconnects] the sinks of every driver are
    sorted by the key of [pin_sort] under the lexicographic order of pairs
    of strings; that order puts a sink on the boundary below every sink
    owned by a cell, so no owned sink stands before a boundary sink; sorting
    again changes nothing, and the result is a function of the netlist. *)
Theorem sinks_sorted (yj : YosysJSON) (mdl : YosysModule) (mod_pname : string)
    (valid_names : list string) (ic : Interconn)
    (driver : CellPin) (sinks : list Sink) :
  get_interconnects yj mdl mod_pname valid_names = Ok ic ->
  In (driver, sinks) ic ->
  StronglySorted sink_order sinks /\
  (forall s1 s2, sink_order s1 s2 \/ sink_order s2 s1) /\
  (forall s1 s2 c,
      fst (fst s1) = None -> fst (fst s2) = Some c -> c <> "" ->
      pair_ltb (pin_sort s1) (pin_sort s2) = true) /\
  (forall l1 s1 l2 s2 l3 c,
      sinks = l1 ++ s1 :: l2 ++ s2 :: l3 ->
      fst (fst s1) = Some c -> c <> "" -> fst (fst s2) <> None) /\
  py_sort pair_ltb pin_sort sinks = sinks /\
  sort_sinks ic = ic /\
  (forall ic', get_interconnects yj mdl mod_pname valid_names = Ok ic' -> ic' = ic).
Proof.
  intros Hic Hin. unfold get_interconnects in Hic.
  apply bind_Ok in Hic as (ic0 & H0 & [= <-]).
  apply sort_sinks_In in Hin as (l & _ & ->).
  pose proof (sink_order_sorted l) as Hs.
  split; [exact Hs|]. split; [exact sink_order_total|].
  split; [exact boundary_below_owned|].
  split; [|split; [|split]].
  - intros l1 s1 l2 s2 l3 c Hsplit Ho Hc Hb. rewrite Hsplit in Hs.
    apply sorted_split in Hs. unfold in_order in Hs.
    rewrite (boundary_below_owned s2 s1 c Hb Ho Hc) in Hs. discriminate.
  - apply py_sort_fixed, Hs.
  - apply sort_sinks_idempotent.
  - intros ic' Hic'. unfold get_interconnects in Hic'.
    apply bind_Ok in Hic' as (ic1 & H1 & [= <-]).
    rewrite H0 in H1. now injection H1 as ->.
Qed.

Lemma sinks_sorted_witness :
  StronglySorted sink_order
    [((None, "thru"), []); ((Some "a", "I"), []); ((Some "b", "D"), [])].
Proof.
  apply (sinks_sorted FAN_json FAN_module "FAN" ["FAN"; "a"; "b"]
           FAN_interconn (None, "in")).
  - vm_compute. reflexivity.
  - simpl. tauto.
Defined.

(* ===================================================================== *)
(** ** Drivers of the input pins *)

Lemma for_each_established {A S : Type} (P : S -> Prop) (body : S -> A -> result S)
    (l : list A) (a : A) :
  In a l ->
  (forall s s', body s a = Ok s' -> P s') ->
  (forall s x s', P s -> body s x = Ok s' -> P s') ->
  forall s s', for_each body l s = Ok s' -> P s'.
Proof.
  intros Hi Hest Hkeep. induction l as [|x l IH]; [destruct Hi|].
  intros s s' Hb. simpl in Hb. apply bind_Ok in Hb as (s1 & H1 & H2).
  destruct Hi as [->|Hi].
  - apply (for_each_invariant P body l (fun s0 x0 s0' _ => Hkeep s0 x0 s0') s1 s');
      [now apply (Hest s) | exact H2].
  - now apply (IH Hi s1 s').
Qed.

Lemma fold_left_invariant {A S : Type} (P : S -> Prop) (f : S -> A -> S)
    (l : list A) :
  (forall s a, P s -> P (f s a)) -> forall s, P s -> P (fold_left f l s).
Proof.
  intros Hstep. induction l as [|a l IH]; intros s Hs; simpl; auto.
Qed.

Lemma sinks_of_append (k k' : CellPin) (v : Sink) (ic : Interconn) :
  sinks_of k (append k' v ic)
  = if eqb k k' then sinks_of k' ic ++ [v] else sinks_of k ic.
Proof.
  unfold append, sinks_of at 1. rewrite PyDictFacts.get_set.
  destruct (eqb k k'); reflexivity.
Qed.

Lemma has_edge_append_new (k : CellPin) (v : Sink) (ic : Interconn) :
  has_edge k v (append k v ic).
Proof.
  unfold has_edge. rewrite sinks_of_append, eqb_refl.
  apply in_or_app; right; now left.
Qed.

Lemma has_edge_append (k k' : CellPin) (e v : Sink) (ic : Interconn) :
  has_edge k e ic -> has_edge k e (append k' v ic).
Proof.
  unfold has_edge. rewrite sinks_of_append.
  destruct (eqb_spec k k') as [->|Hn]; [|auto].
  intros Hi. apply in_or_app; now left.
Qed.

(** What a successful turn of the loop over the input connections did. *)
Lemma input_conn_Ok (yj : YosysJSON) (mdl : YosysModule) (mod_pname : string)
    (valid_names : list string) (pb_name : option CellName)
    (ic ic' : Interconn) (pin : PinName) (net : netid) :
  input_conn yj mdl mod_pname valid_names pb_name ic (pin, net) = Ok ic' ->
  exists drv_cell drv_pin drv_cell_name net_attr,
    net_drivers mdl net = [(drv_cell, drv_pin)] /\
    net_and_pin_attrs yj mdl (Some drv_cell, drv_pin) (pb_name, pin) net
    = Ok net_attr /\
    strip_name drv_cell true = Ok drv_cell_name /\
    mem drv_cell_name valid_names = true /\
    ic' = append (owner mod_pname drv_cell_name, drv_pin)
            ((pb_name, pin), net_attr) ic.
Proof.
  unfold input_conn.
  destruct (net_drivers mdl net) as [|[drv_cell drv_pin] [|d2 drvs]];
    simpl; try discriminate.
  intros H. apply bind_Ok in H as (ic1 & H1 & [= <-]).
  apply bind_Ok in H1 as (net_attr & Hattr & H1).
  apply bind_Ok in H1 as (drv_cell_name & Hname & H1).
  apply bind_Ok in H1 as (u & Hvalid & [= <-]).
  apply assert_Ok in Hvalid.
  exists drv_cell, drv_pin, drv_cell_name, net_attr. repeat split; assumption.
Qed.

Lemma input_conn_keeps (yj : YosysJSON) (mdl : YosysModule) (mod_pname : string)
    (valid_names : list string) (pb_name : option CellName)
    (ic ic' : Interconn) (conn : PinName * netid) (k : CellPin) (e : Sink) :
  has_edge k e ic ->
  input_conn yj mdl mod_pname valid_names pb_name ic conn = Ok ic' ->
  has_edge k e ic'.
Proof.
  destruct conn as [pin net]. intros He H.
  apply input_conn_Ok in H as (dc & dp & dn & na & _ & _ & _ & _ & ->).
  now apply has_edge_append.
Qed.

Lemma output_conn_keeps (yj : YosysJSON) (mdl : YosysModule)
    (pb_name : option CellName)
    (ic ic' : Interconn) (conn : PinName * netid) (k : CellPin) (e : Sink) :
  has_edge k e ic ->
  output_conn yj mdl pb_name ic conn = Ok ic' ->
  has_edge k e ic'.
Proof.
  destruct conn as [pin net]. unfold output_conn. intros He.
  apply (for_each_invariant (has_edge k e)); [|exact He].
  intros s [sink_cell sink_pin] s' _ Hs.
  destruct (negb (String.eqb sink_cell (name mdl))).
  - now intros [= <-].
  - intros H. apply bind_Ok in H as (na & _ & [= <-]). now apply has_edge_append.
Qed.

Lemma cell_conn_keeps (yj : YosysJSON) (mdl : YosysModule) (mod_pname : string)
    (valid_names : list string)
    (ic ic' : Interconn) (cell : CellName * CellType) (k : CellPin) (e : Sink) :
  has_edge k e ic ->
  cell_conn yj mdl mod_pname valid_names ic cell = Ok ic' ->
  has_edge k e ic'.
Proof.
  destruct cell as [cname ctype]. unfold cell_conn. intros He H.
  apply bind_Ok in H as (pb & _ & H).
  apply bind_Ok in H as (u & _ & H).
  apply bind_Ok in H as (ic1 & Hin & Hout).
  apply (for_each_invariant (has_edge k e)
           (output_conn yj mdl (owner mod_pname pb))
           (cell_conns mdl cname "output")
           (fun s a s' _ Hs => output_conn_keeps yj mdl _ s s' a k e Hs) ic1 ic');
    [|exact Hout].
  apply (for_each_invariant (has_edge k e)
           (input_conn yj mdl mod_pname valid_names (owner mod_pname pb))
           (cell_conns mdl cname "input")
           (fun s a s' _ Hs => input_conn_keeps yj mdl _ _ _ s s' a k e Hs) ic ic1);
    assumption.
Qed.

Lemma passthrough_keeps (mdl : YosysModule) (ic : Interconn) (k : CellPin) (e : Sink) :
  has_edge k e ic -> has_edge k e (passthrough mdl ic).
Proof.
  unfold passthrough. apply fold_left_invariant. intros s1 out_port.
  apply fold_left_invariant. intros s2 [out_bit out_net].
  apply fold_left_invariant. intros s3 inp_port.
  apply fold_left_invariant. intros s4 [inp_bit inp_net] Hs.
  destruct (Z.eqb out_net inp_net); [now apply has_edge_append | exact Hs].
Qed.

Lemma sinks_of_sort_sinks (ic : Interconn) (k : CellPin) :
  sinks_of k (sort_sinks ic) = py_sort pair_ltb pin_sort (sinks_of k ic).
Proof.
  unfold sinks_of, sort_sinks. induction ic as [|[d l] ic IH]; simpl; [reflexivity|].
  destruct (pair_eqb k d); [reflexivity | exact IH].
Qed.

Lemma sort_sinks_keeps (ic : Interconn) (k : CellPin) (e : Sink) :
  has_edge k e ic -> has_edge k e (sort_sinks ic).
Proof.
  unfold has_edge. rewrite sinks_of_sort_sinks.
  apply Permutation_in, py_sort_perm.
Qed.

Arguments net_and_pin_attrs : simpl never.
Arguments strip_name : simpl never.

Lemma cell_conn_records (yj : YosysJSON) (mdl : YosysModule) (mod_pname : string)
    (valid_names : list string) (cname : CellName) (ctype : CellType)
    (pin : PinName) (net : netid) (s1 s2 : Interconn) :
  In (pin, net) (cell_conns mdl cname "input") ->
  cell_conn yj mdl mod_pname valid_names s1 (cname, ctype) = Ok s2 ->
  exists drv_cell drv_pin pb_name drv_cell_name net_attr,
    net_drivers mdl net = [(drv_cell, drv_pin)] /\
    strip_name cname true = Ok pb_name /\
    strip_name drv_cell true = Ok drv_cell_name /\
    net_and_pin_attrs yj mdl (Some drv_cell, drv_pin)
      (owner mod_pname pb_name, pin) net = Ok net_attr /\
    forall s s', cell_conn yj mdl mod_pname valid_names s (cname, ctype) = Ok s' ->
      has_edge (owner mod_pname drv_cell_name, drv_pin)
        ((owner mod_pname pb_name, pin), net_attr) s'.
Proof.
  intros Hpin Hcell. unfold cell_conn in Hcell.
  apply bind_Ok in Hcell as (pb & Hpb & H).
  apply bind_Ok in H as (u & _ & H).
  apply bind_Ok in H as (s3 & Hin & _).
  destruct (for_each_In _ _ (pin, net) Hpin s1 s3 Hin) as (s4 & s5 & Hstep).
  apply input_conn_Ok in Hstep as (dc & dp & dn & na & Hd & Hna & Hdn & _ & _).
  exists dc, dp, pb, dn, na. repeat split; try assumption.
  intros s s' Hs. unfold cell_conn in Hs. rewrite Hpb in Hs. cbn [bind] in Hs.
  apply bind_Ok in Hs as (u' & _ & Hs).
  apply bind_Ok in Hs as (s_in & Hs_in & Hs_out).
  apply (for_each_invariant _
           (output_conn yj mdl (owner mod_pname pb))
           (cell_conns mdl cname "output")
           (fun s0 a s0' _ H0 => output_conn_keeps yj mdl _ s0 s0' a _ _ H0)
           s_in s'); [|exact Hs_out].
  apply (for_each_established _
           (input_conn yj mdl mod_pname valid_names (owner mod_pname pb))
           (cell_conns mdl cname "input") (pin, net) Hpin) with (s := s);
    [| |exact Hs_in].
  - intros t t' Ht.
    apply input_conn_Ok in Ht as (dc' & dp' & dn' & na' & Hd' & Hna' & Hdn' & _ & ->).
    rewrite Hd in Hd'. injection Hd' as <- <-.
    rewrite Hna in Hna'. injection Hna' as <-.
    rewrite Hdn in Hdn'. injection Hdn' as <-.
    apply has_edge_append_new.
  - intros t x t' Ht Hx. now apply (input_conn_keeps _ _ _ _ _ _ _ _ _ _ Ht Hx).
Qed.

(** The failure of an input pin, reached without an earlier failure, is
    the failure of the resolution. *)
Lemma first_failure (yj : YosysJSON) (mdl : YosysModule) (mod_pname : string)
    (valid_names : list string)
    (cs1 cs2 : list (CellName * CellType)) (cname : CellName) (ctype : CellType)
    (s s' : Interconn) (pb : string) (c1 c2 : list (PinName * netid))
    (pin : PinName) (net : netid) (e : error) :
  cells mdl = cs1 ++ (cname, ctype) :: cs2 ->
  for_each (cell_conn yj mdl mod_pname valid_names) cs1 PyDict.empty = Ok s ->
  strip_name cname true = Ok pb ->
  mem pb valid_names = true ->
  cell_conns mdl cname "input" = c1 ++ (pin, net) :: c2 ->
  for_each (input_conn yj mdl mod_pname valid_names (owner mod_pname pb)) c1 s
  = Ok s' ->
  input_conn yj mdl mod_pname valid_names (owner mod_pname pb) s' (pin, net)
  = Err e ->
  get_interconnects yj mdl mod_pname valid_names = Err e.
Proof.
  intros Hcells Hs Hpb Hmem Hconns Hs' He.
  assert (Hcell : cell_conn yj mdl mod_pname valid_names s (cname, ctype) = Err e).
  { unfold cell_conn. rewrite Hpb. cbn [bind]. rewrite Hmem. cbn [assert bind].
    rewrite Hconns, for_each_app, Hs'. cbn [bind for_each]. now rewrite He. }
  unfold get_interconnects. rewrite Hcells, for_each_app, Hs.
  cbn [bind for_each]. now rewrite Hcell.
Qed.

(** C1: an input pin of a cell whose net has no driver stops the resolution
    with [UnconnectedInputError], one whose net has two drivers or more with
    [MultiDriverError], and this is the error of [get_interconnects] when
    nothing failed before the pin; with one driver the edge from the driver
    to the pin is appended once the attributes and the name of the driver
    are accepted; and when [get_interconnects] returns, every input pin of
    every cell has exactly one driver and the edge from it is in the
    result. *)
Theorem input_pins_have_one_driver (yj : YosysJSON) (mdl : YosysModule)
    (mod_pname : string) (valid_names : list string) :
  (forall pb_name ic pin net,
      net_drivers mdl net = [] ->
      input_conn yj mdl mod_pname valid_names pb_name ic (pin, net)
      = Err UnconnectedInputError) /\
  (forall pb_name ic pin net,
      2 <= length (net_drivers mdl net) ->
      input_conn yj mdl mod_pname valid_names pb_name ic (pin, net)
      = Err MultiDriverError) /\
  (forall pb_name ic pin net drv_cell drv_pin drv_cell_name net_attr,
      net_drivers mdl net = [(drv_cell, drv_pin)] ->
      net_and_pin_attrs yj mdl (Some drv_cell, drv_pin) (pb_name, pin) net
      = Ok net_attr ->
      strip_name drv_cell true = Ok drv_cell_name ->
      mem drv_cell_name valid_names = true ->
      input_conn yj mdl mod_pname valid_names pb_name ic (pin, net)
      = Ok (append (owner mod_pname drv_cell_name, drv_pin)
              ((pb_name, pin), net_attr) ic)) /\
  (forall ic cname ctype pin net,
      get_interconnects yj mdl mod_pname valid_names = Ok ic ->
      In (cname, ctype) (cells mdl) ->
      In (pin, net) (cell_conns mdl cname "input") ->
      exists drv_cell drv_pin pb_name drv_cell_name net_attr,
        net_drivers mdl net = [(drv_cell, drv_pin)] /\
        strip_name cname true = Ok pb_name /\
        strip_name drv_cell true = Ok drv_cell_name /\
        has_edge (owner mod_pname drv_cell_name, drv_pin)
          ((owner mod_pname pb_name, pin), net_attr) ic) /\
  (forall cs1 cname ctype cs2 s pb c1 pin net c2 s',
      cells mdl = cs1 ++ (cname, ctype) :: cs2 ->
      for_each (cell_conn yj mdl mod_pname valid_names) cs1 PyDict.empty = Ok s ->
      strip_name cname true = Ok pb ->
      mem pb valid_names = true ->
      cell_conns mdl cname "input" = c1 ++ (pin, net) :: c2 ->
      for_each (input_conn yj mdl mod_pname valid_names (owner mod_pname pb)) c1 s
      = Ok s' ->
      (net_drivers mdl net = [] ->
       get_interconnects yj mdl mod_pname valid_names = Err UnconnectedInputError) /\
      (2 <= length (net_drivers mdl net) ->
       get_interconnects yj mdl mod_pname valid_names = Err MultiDriverError)).
Proof.
  assert (Hnone : forall pb_name ic pin net,
             net_drivers mdl net = [] ->
             input_conn yj mdl mod_pname valid_names pb_name ic (pin, net)
             = Err UnconnectedInputError).
  { intros pb_name ic pin net Hd. unfold input_conn. now rewrite Hd. }
  assert (Hmany : forall pb_name ic pin net,
             2 <= length (net_drivers mdl net) ->
             input_conn yj mdl mod_pname valid_names pb_name ic (pin, net)
             = Err MultiDriverError).
  { intros pb_name ic pin net Hd. unfold input_conn.
    destruct (net_drivers mdl net) as [|d1 [|d2 drvs]]; simpl in *;
      [lia | lia | reflexivity]. }
  split; [exact Hnone|]. split; [exact Hmany|].
  split; [|split]; [| |
    intros cs1 cname ctype cs2 s pb c1 pin net c2 s' Hcells Hs Hpb Hmem Hconns Hs';
    split; intros Hd;
    apply (first_failure yj mdl mod_pname valid_names cs1 cs2 cname ctype
             s s' pb c1 c2 pin net _ Hcells Hs Hpb Hmem Hconns Hs'); auto].
  - intros pb_name ic pin net dc dp dn na Hd Hna Hdn Hv.
    unfold input_conn. rewrite Hd. simpl. rewrite Hna. simpl.
    rewrite Hdn. simpl. rewrite Hv. reflexivity.
  - intros ic cname ctype pin net Hic Hcell Hpin.
    unfold get_interconnects in Hic.
    apply bind_Ok in Hic as (ic0 & Hcells & [= <-]).
    destruct (for_each_In _ _ (cname, ctype) Hcell _ _ Hcells) as (s1 & s2 & Hstep).
    destruct (cell_conn_records yj mdl mod_pname valid_names cname ctype pin net
                s1 s2 Hpin Hstep)
      as (dc & dp & pb & dn & na & Hd & Hpb & Hdn & _ & Hrec).
    exists dc, dp, pb, dn, na. repeat split; try assumption.
    apply sort_sinks_keeps, passthrough_keeps.
    apply (for_each_established _
             (cell_conn yj mdl mod_pname valid_names) (cells mdl)
             (cname, ctype) Hcell Hrec) with (s := PyDict.empty);
      [|exact Hcells].
    intros s x s' Hs Hx. now apply (cell_conn_keeps _ _ _ _ _ _ _ _ _ Hs Hx).
Qed.

Lemma input_pins_have_one_driver_witness :
  input_conn (fun _ => empty_module "M") (empty_module "M") "M" ["M"]
    (Some "c") PyDict.empty ("I", 1%Z)
  = Err UnconnectedInputError /\
  get_interconnects OPEN_json OPEN_module "OPEN" ["OPEN"; "a"]
  = Err UnconnectedInputError /\
  exists drv_cell drv_pin pb_name drv_cell_name net_attr,
    net_drivers FAN_module 4%Z = [(drv_cell, drv_pin)] /\
    strip_name "a" true = Ok pb_name /\
    strip_name drv_cell true = Ok drv_cell_name /\
    has_edge (owner "FAN" drv_cell_name, drv_pin)
      ((owner "FAN" pb_name, "I"), net_attr) FAN_interconn.
Proof.
  split; [|split].
  - apply (input_pins_have_one_driver (fun _ => empty_module "M")
             (empty_module "M") "M" ["M"]).
    reflexivity.
  - destruct (input_pins_have_one_driver OPEN_json OPEN_module "OPEN"
                ["OPEN"; "a"]) as (_ & _ & _ & _ & H).
    apply (H [] "a" "LUT" [] PyDict.empty "a" [] "I" 4%Z [] PyDict.empty);
      reflexivity.
  - destruct (input_pins_have_one_driver FAN_json FAN_module "FAN"
                ["FAN"; "a"; "b"]) as (_ & _ & _ & H & _).
    apply (H FAN_interconn "a" "LUT" "I" 4%Z).
    + vm_compute. reflexivity.
    + simpl. tauto.
    + simpl. tauto.
Defined.

(* ===================================================================== *)
(** ** Muxes *)

Lemma make_mux_conn_spec (nm : string) (inputs : PyDict.dict PinName CellPin)
    (outputs : PyDict.dict PinName (list Sink)) :
  make_mux_conn nm inputs outputs
  = match outputs with
    | [(_, [_])] =>
        Ok {| mux_name := nm; mux_inputs := inputs; mux_outputs := outputs |}
    | _ => Err MultiOutputMuxError
    end.
Proof.
  unfold make_mux_conn.
  destruct outputs as [|[pin [|s1 [|s2 sinks]]] [|o2 outputs]]; reflexivity.
Qed.

Lemma map_result_Forall2 {A B : Type} (f : A -> result B) (l : list A) (bs : list B) :
  map_result f l = Ok bs -> Forall2 (fun a b => f a = Ok b) l bs.
Proof.
  revert bs; induction l as [|a l IH]; intros bs; simpl.
  - intros [= <-]. constructor.
  - intros H. apply bind_Ok in H as (b & Hb & H).
    apply bind_Ok in H as (bs' & Hbs & [= <-]). constructor; auto.
Qed.

Lemma make_mux_Ok (routing_cells : list string) (interconn : Interconn)
    (mux_cell : string) (mg : MuxGroup) :
  make_mux routing_cells interconn mux_cell = Ok mg ->
  mux_outputs mg = collect_mux_outputs mux_cell interconn /\
  single_output (mux_outputs mg).
Proof.
  unfold make_mux.
  destruct (collect_mux_outputs mux_cell interconn)
    as [|[pin [|[[sc sp] pa] [|s2 sinks]]] [|o2 outputs]]; try discriminate.
  intros H. apply bind_Ok in H as (u & _ & H).
  apply bind_Ok in H as (inputs & _ & H).
  rewrite make_mux_conn_spec in H. injection H as <-. simpl.
  split; [reflexivity|]. now exists pin, (sc, sp, pa).
Qed.

(** C4: a mux that is built has one output pin with one sink; a routing
    cell whose set of output pins, or whose list of sinks of the output, has
    another size is rejected with [MultiOutputMuxError], by the loop over
    the routing cells and by [make_mux_conn] itself. *)
Theorem mux_has_single_output (routing_cells : list string)
    (interconn : Interconn) (mux_cell : string) :
  (forall mg,
      make_mux routing_cells interconn mux_cell = Ok mg ->
      mux_outputs mg = collect_mux_outputs mux_cell interconn /\
      single_output (mux_outputs mg)) /\
  (length (collect_mux_outputs mux_cell interconn) <> 1 ->
   make_mux routing_cells interconn mux_cell = Err MultiOutputMuxError) /\
  (forall pin sinks,
      collect_mux_outputs mux_cell interconn = [(pin, sinks)] ->
      length sinks <> 1 ->
      make_mux routing_cells interconn mux_cell = Err MultiOutputMuxError) /\
  (forall inputs outputs,
      (single_output outputs ->
       make_mux_conn mux_cell inputs outputs
       = Ok {| mux_name := mux_cell; mux_inputs := inputs;
               mux_outputs := outputs |}) /\
      (~ single_output outputs ->
       make_mux_conn mux_cell inputs outputs = Err MultiOutputMuxError)) /\
  (forall incl_metadata yj mdl mod_pname routing children c,
      make_container_pb incl_metadata yj mdl mod_pname routing children = Ok c ->
      Forall (fun mg => single_output (mux_outputs mg)) (muxes c)).
Proof.
  split; [|split; [|split; [|split]]].
  - intros mg. apply make_mux_Ok.
  - intros Hlen. unfold make_mux.
    destruct (collect_mux_outputs mux_cell interconn)
      as [|[pin [|[[sc sp] pa] [|s2 sinks]]] [|o2 outputs]];
      try reflexivity. simpl in Hlen. congruence.
  - intros pin sinks Hout Hlen. unfold make_mux. rewrite Hout.
    destruct sinks as [|[[sc sp] pa] [|s2 sinks]]; try reflexivity.
    simpl in Hlen. congruence.
  - intros inputs outputs. rewrite make_mux_conn_spec. split.
    + intros (pin & sink & ->). reflexivity.
    + intros Hn.
      destruct outputs as [|[pin [|s1 [|s2 sinks]]] [|o2 outputs]];
        try reflexivity.
      exfalso. apply Hn. now exists pin, s1.
  - intros incl_metadata yj mdl mod_pname routing children c H.
    unfold make_container_pb in H.
    apply bind_Ok in H as (md & _ & H).
    apply bind_Ok in H as (ic & _ & H).
    apply bind_Ok in H as (mux & Hmux & [= <-]). simpl.
    apply map_result_Forall2 in Hmux.
    induction Hmux as [|a mg l mgs Ha _ IH]; constructor; [|exact IH].
    apply (make_mux_Ok _ _ _ _ Ha).
Qed.

Lemma mux_has_single_output_witness :
  (exists mg, make_mux ["m"] MUX_interconn "m" = Ok mg /\
              single_output (mux_outputs mg)) /\
  make_mux ["m"] TWO_SINKS_interconn "m" = Err MultiOutputMuxError /\
  make_mux ["m"] [] "m" = Err MultiOutputMuxError /\
  make_mux_conn "m" [] [("O", [((None, "out"), []); ((None, "out2"), [])])]
  = Err MultiOutputMuxError.
Proof.
  pose proof (mux_has_single_output ["m"] MUX_interconn "m") as (H1 & _).
  pose proof (mux_has_single_output ["m"] TWO_SINKS_interconn "m") as (_ & _ & H3 & H4 & _).
  pose proof (mux_has_single_output ["m"] [] "m") as (_ & H2 & _).
  split; [|split; [|split]].
  - eexists. split; [vm_compute; reflexivity|].
    apply H1. vm_compute. reflexivity.
  - apply (H3 "O" [((None, "out"), []); ((None, "out2"), [])]);
      [reflexivity | simpl; lia].
  - apply H2. simpl. lia.
  - apply H4. intros (pin & sink & [=]).
Defined.

(** C5, the code at the failing input: two edges end on the pin [I0] of the
    routing cell, and the mux is built with the second driver; the netlist
    [TWIN] leads to this interconnect through [make_container_pb].  When
    the pin of the sink of the output has the name of an input pin that is
    already assigned, the assertion fails although no pin is assigned
    twice. *)
Theorem duplicate_mux_input_kept :
  make_mux ["m"] DUP_interconn "m"
  = Ok {| mux_name := "m";
          mux_inputs := [("I0", (None, "b"))];
          mux_outputs := [("O", [((None, "out"), [])])] |} /\
  (exists c,
      (r <- get_children TWIN_json TWIN_module ;;
       make_container_pb (fun _ => []) TWIN_json TWIN_module "TWIN" (fst r) (snd r))
      = Ok c /\
      muxes c
      = [{| mux_name := "m[0]";
            mux_inputs := [("I0", (None, "b"))];
            mux_outputs := [("O", [((Some "l", "I"), [])])] |}]) /\
  make_mux ["m"]
    [((None, "a"), [((Some "m", "I0"), [])]);
     ((None, "b"), [((Some "m", "I1"), [])]);
     ((Some "m", "O"), [((Some "l", "I0"), [])])] "m"
  = Err DuplicateMuxInputError.
Proof.
  split; [vm_compute; reflexivity|]. split; [|vm_compute; reflexivity].
  eexists. split; vm_compute; reflexivity.
Qed.

(* ===================================================================== *)
(** ** Groups of children *)

(** The doctests of [get_list_name_and_length]. *)
Example get_list_name_and_length_doctest_range :
  get_list_name_and_length
    (map (fun i => indexed "i" (str_of_nat i)) (seq 0 10))
  = Ok (Some ("i", 10)).
Proof. vm_compute. reflexivity. Qed.

Example get_list_name_and_length_doctest_missing :
  get_list_name_and_length ["i[0]"; "i[2]"] = Err GroupingError.
Proof. vm_compute. reflexivity. Qed.

Example get_list_name_and_length_doctest_start :
  get_list_name_and_length ["i[1]"; "i[2]"] = Err GroupingError.
Proof. vm_compute. reflexivity. Qed.

Example get_list_name_and_length_doctest_duplicate :
  get_list_name_and_length ["i[0]"; "i[1]"; "i[1]"; "i[2]"] = Err GroupingError.
Proof. vm_compute. reflexivity. Qed.

Example get_list_name_and_length_doctest_format :
  get_list_name_and_length ["i0"; "i1"; "i2"; "i3"] = Err GroupingError.
Proof. vm_compute. reflexivity. Qed.

Example get_list_name_and_length_doctest_brackets :
  get_list_name_and_length
    (map (fun i => indexed "i[1]" (str_of_nat i)) (seq 0 4))
  = Ok (Some ("i[1]", 4)).
Proof. vm_compute. reflexivity. Qed.

Lemma assert_loop (P : nat -> bool) (e : error) (l : list nat) :
  for_each (fun (_ : unit) i => assert (P i) e) l tt
  = if forallb P l then Ok tt else Err e.
Proof.
  induction l as [|i l IH]; simpl; [reflexivity|].
  unfold assert at 1. destruct (P i); simpl; [exact IH | reflexivity].
Qed.

Lemma expected_items_nth (list_name : string) (n i : nat) :
  i < n -> nth i (expected_items list_name n) "" = indexed list_name (str_of_nat i).
Proof.
  intros Hi. unfold expected_items.
  rewrite (nth_indep _ "" (indexed list_name (str_of_nat 0)))
    by (now rewrite length_map, length_seq).
  rewrite (map_nth (fun i => indexed list_name (str_of_nat i))).
  now rewrite seq_nth.
Qed.

Lemma matches_expected (list_name : string) (sl : list string) :
  forallb
    (fun i => String.eqb (indexed list_name (str_of_nat i)) (nth i sl ""))
    (seq 0 (length sl)) = true
  <-> sl = expected_items list_name (length sl).
Proof.
  rewrite forallb_forall. split.
  - intros Hall. apply (nth_ext _ _ "" "").
    + unfold expected_items. now rewrite length_map, length_seq.
    + intros i Hi. rewrite (expected_items_nth list_name _ i Hi).
      symmetry. apply String.eqb_eq. apply Hall. apply in_seq. lia.
  - intros Heq i Hi. apply in_seq in Hi. apply String.eqb_eq.
    rewrite Heq. rewrite expected_items_nth; [reflexivity | lia].
Qed.

Lemma sorted_by_length_length (l : list string) :
  length (py_sort Nat.ltb String.length l) = length l.
Proof. symmetry. apply Permutation_length, py_sort_perm. Qed.

Lemma get_list_name_and_length_spec (l0 : string) (l : list string) :
  get_list_name_and_length (l0 :: l)
  = let list_name := slice_to (rfind "["%char l0) l0 in
    if contains "[" l0 &&
       forallb
         (fun i =>
            String.eqb (indexed list_name (str_of_nat i))
              (nth i (py_sort Nat.ltb String.length (l0 :: l)) ""))
         (seq 0 (length (l0 :: l)))
    then Ok (Some (list_name, length (l0 :: l)))
    else Err GroupingError.
Proof.
  unfold get_list_name_and_length.
  destruct (contains "[" l0); cbn [assert bind andb]; [|reflexivity].
  rewrite assert_loop.
  destruct (forallb _ _); reflexivity.
Qed.

Lemma sort_members_sorted (children : ChildrenDict) (prefix : string)
    (ctype : CellType) (l : list (string * attrs)) :
  In (prefix, (ctype, l)) (sort_members children) ->
  StronglySorted (in_order String.ltb fst) l.
Proof.
  unfold sort_members. rewrite in_map_iff.
  intros ([p [t l']] & [= _ _ <-] & _).
  destruct (1 <? length l')%nat eqn:E.
  - apply py_sort_sorted;
      [apply string_ltb_irrefl | apply string_ltb_trans | apply string_ltb_total].
  - apply Nat.ltb_ge in E. destruct l' as [|x [|y l']]; simpl in E; try lia;
      repeat constructor.
Qed.

(** C3, as the code has it: [get_list_name_and_length] accepts a list of
    names exactly when the first one has a bracket and the names, sorted by
    length, are the array name with the indices 0, 1, and so on up to the
    count; every rejection is a [GroupingError]; the list with the indices
    0 and 2 is rejected and the one with 0 and 1 accepted.  [get_children]
    does not call it: a group it returns is sorted by short name. *)
Theorem grouping_checks :
  (forall l list_name n,
      get_list_name_and_length l = Ok (Some (list_name, n)) <->
      exists l0 l', l = l0 :: l' /\ contains "[" l0 = true /\
        list_name = slice_to (rfind "["%char l0) l0 /\ n = length l /\
        py_sort Nat.ltb String.length l = expected_items list_name n) /\
  (forall l e, get_list_name_and_length l = Err e -> e = GroupingError) /\
  get_list_name_and_length ["a[0]"; "a[2]"] = Err GroupingError /\
  get_list_name_and_length ["a[0]"; "a[1]"] = Ok (Some ("a", 2)) /\
  (forall yj mdl routing children prefix ctype l,
      get_children yj mdl = Ok (routing, children) ->
      In (prefix, (ctype, l)) children ->
      StronglySorted (in_order String.ltb fst) l).
Proof.
  split; [|split; [|split; [|split]]].
  - intros l list_name n. split.
    + destruct l as [|l0 l']; [discriminate|].
      rewrite get_list_name_and_length_spec. cbv zeta.
      destruct (contains "[" l0) eqn:Ec; [|discriminate]. cbn [andb].
      destruct (forallb _ _) eqn:Ef; [|discriminate].
      intros [= <- <-]. exists l0, l'. repeat split; try assumption.
      rewrite <- sorted_by_length_length in Ef. apply matches_expected in Ef.
      now rewrite sorted_by_length_length in Ef.
    + intros (l0 & l' & -> & Hc & -> & -> & Hs).
      rewrite get_list_name_and_length_spec. cbv zeta. rewrite Hc. cbn [andb].
      rewrite <- (sorted_by_length_length (l0 :: l')) at 1.
      rewrite (proj2 (matches_expected _ _)); [reflexivity|].
      now rewrite sorted_by_length_length.
  - intros [|l0 l'] e; [discriminate|].
    rewrite get_list_name_and_length_spec. cbv zeta.
    destruct (_ && _); [discriminate | congruence].
  - vm_compute. reflexivity.
  - vm_compute. reflexivity.
  - intros yj mdl routing children prefix ctype l H Hin.
    unfold get_children in H.
    apply bind_Ok in H as ([r c] & _ & [= <- <-]).
    now apply sort_members_sorted in Hin.
Qed.

Lemma grouping_checks_witness :
  py_sort Nat.ltb String.length ["a[1]"; "a[0]"; "a[2]"] <> expected_items "a" 3 /\
  StronglySorted (in_order String.ltb fst)
    ([("a[0]", []); ("a[2]", [])] : list (string * attrs)).
Proof.
  destruct grouping_checks as (_ & _ & _ & _ & H5).
  split.
  - vm_compute. discriminate.
  - apply (H5 GAP_json GAP_module ([] : ChildrenDict)
             [("a", ("LUT", [("a[0]", []); ("a[2]", [])]))] "a" "LUT").
    + vm_compute. reflexivity.
    + simpl. tauto.
Defined.

(** C3, counterexample: the group with the members [a[0]] and [a[2]] is
    returned by [get_children]. *)
Lemma gap_group_accepted :
  get_children GAP_json GAP_module
  = Ok ([], [("a", ("LUT", [("a[0]", []); ("a[2]", [])]))]).
Proof. vm_compute. reflexivity. Qed.

(* ===================================================================== *)
(** ** Modes without children *)

Lemma In_set {K V : Type} `{EqB K} (k k' : K) (v v' : V) (d : PyDict.dict K V) :
  In (k', v') (PyDict.set k v d) -> (k' = k /\ v' = v) \/ In (k', v') d.
Proof.
  induction d as [|[k0 v0] d IH]; simpl.
  - intros [[= <- <-]|[]]. now left.
  - destruct (eqb_spec k k0) as [->|Hn]; simpl.
    + intros [[= <- <-]|Hi]; [left | right; right]; auto.
    + intros [He|Hi]; [right; now left|].
      destruct (IH Hi) as [Hl|Hr]; [now left | right; now right].
Qed.

Lemma set_not_empty {K V : Type} `{EqB K} (k : K) (v : V) (d : PyDict.dict K V) :
  PyDict.set k v d <> [].
Proof.
  destruct d as [|[k0 v0] d]; simpl; [discriminate|].
  destruct (eqb k k0); discriminate.
Qed.

Lemma append_boundary (k : CellPin) (v : Sink) (ic : Interconn) :
  fst k = None -> fst (fst v) = None ->
  boundary_only ic -> boundary_only (append k v ic).
Proof.
  intros Hk Hv Hic d l Hi. unfold append in Hi.
  apply In_set in Hi as [[-> ->]|Hi]; [|now apply Hic].
  split; [exact Hk|]. intros s Hs. apply in_app_or in Hs as [Hs|[<-|[]]];
    [|exact Hv].
  unfold sinks_of in Hs. destruct (PyDict.get k ic) as [l0|] eqn:E; [|destruct Hs].
  apply PyDictFacts.get_In in E. now apply (proj2 (Hic k l0 E)).
Qed.

Lemma passthrough_boundary (mdl : YosysModule) (ic : Interconn) :
  boundary_only ic -> boundary_only (passthrough mdl ic).
Proof.
  unfold passthrough. apply fold_left_invariant. intros s1 out_port.
  apply fold_left_invariant. intros s2 [out_bit out_net].
  apply fold_left_invariant. intros s3 inp_port.
  apply fold_left_invariant. intros s4 [inp_bit inp_net] Hs.
  destruct (Z.eqb out_net inp_net); [now apply append_boundary | exact Hs].
Qed.

Lemma sort_sinks_boundary (ic : Interconn) :
  boundary_only ic -> boundary_only (sort_sinks ic).
Proof.
  intros Hic d l Hi. apply sort_sinks_In in Hi as (l0 & Hi & ->).
  destruct (Hic d l0 Hi) as [Hd Hl]. split; [exact Hd|].
  intros s Hs. apply Hl.
  apply (Permutation_in s (Permutation_sym (py_sort_perm pair_ltb pin_sort l0)) Hs).
Qed.

Lemma mode_conns_boundary (ic : Interconn) :
  boundary_only ic -> Forall on_boundary (mode_conns ic).
Proof.
  intros Hic. apply Forall_forall. intros [[d s] a] Hi.
  unfold mode_conns in Hi. apply in_flat_map in Hi as ([d' l] & Hdl & Hi).
  apply in_map_iff in Hi as ([s' a'] & [= <- <- <-] & Hs).
  destruct (Hic d' l Hdl) as [Hd Hl]. split; simpl; [exact Hd|].
  exact (Hl (s', a') Hs).
Qed.

(** Without cells the resolution cannot fail and finds pass-through
    connections only. *)
Lemma get_interconnects_no_cells (yj : YosysJSON) (mdl : YosysModule)
    (mod_pname : string) (valid_names : list string) :
  cells mdl = [] ->
  get_interconnects yj mdl mod_pname valid_names
  = Ok (sort_sinks (passthrough mdl PyDict.empty)) /\
  boundary_only (sort_sinks (passthrough mdl PyDict.empty)).
Proof.
  intros Hc. unfold get_interconnects. rewrite Hc. split; [reflexivity|].
  apply sort_sinks_boundary, passthrough_boundary. intros d l [].
Qed.

Lemma metadata_step_scoped (smode : string) (metadata : attrs)
    (attr value : string) :
  (let '(attr_name, attr_mode) := parse_fasm_attribute attr in
   match attr_name with
   | None => metadata
   | Some attr_name =>
       if eqb attr_mode (Some smode)
       then PyDict.set (lower attr_name) value metadata
       else metadata
   end)
  = if is_scoped smode attr
    then PyDict.set
           (lower match fst (parse_fasm_attribute attr) with
                  | Some n => n
                  | None => ""
                  end) value metadata
    else metadata.
Proof.
  unfold is_scoped. destruct (parse_fasm_attribute attr) as [[nm|] m]; reflexivity.
Qed.

Lemma metadata_scoped_fold (smode : string) (attributes acc : attrs) :
  fold_left
    (fun metadata '(attr, value) =>
       let '(attr_name, attr_mode) := parse_fasm_attribute attr in
       match attr_name with
       | None => metadata
       | Some attr_name =>
           if eqb attr_mode (Some smode)
           then PyDict.set (lower attr_name) value metadata
           else metadata
       end)
    attributes acc = []
  <-> acc = [] /\
      forall attr value, In (attr, value) attributes -> is_scoped smode attr = false.
Proof.
  revert acc; induction attributes as [|[attr value] attributes IH]; intros acc.
  - simpl. split; [intros ->; split; [reflexivity | intros ? ? []] | tauto].
  - cbn [fold_left]. rewrite metadata_step_scoped, IH.
    destruct (is_scoped smode attr) eqn:Es; split.
    + intros [Hset _]. now apply set_not_empty in Hset.
    + intros [_ Hall]. rewrite (Hall attr value (or_introl eq_refl)) in Es.
      discriminate.
    + intros [-> Hall]. split; [reflexivity|].
      intros a v [[= <- <-]|Hi]; [exact Es | now apply (Hall a v)].
    + intros [-> Hall]. split; [reflexivity|].
      intros a v Hi. apply (Hall a v). now right.
Qed.

(** The metadata of a mode is empty exactly when no attribute is qualified
    with the mode. *)
Lemma mode_metadata_empty (smode : string) (attributes : attrs) :
  Nat.eqb (length (metadata_from_attributes attributes (Some smode))) 0 = true
  <-> forall attr value, In (attr, value) attributes -> is_scoped smode attr = false.
Proof.
  rewrite Nat.eqb_eq, length_zero_iff_nil. unfold metadata_from_attributes.
  rewrite metadata_scoped_fold. split; [now intros [_ H] | now split].
Qed.

Lemma make_mode_no_cells (elaborate_with_mode : string -> string -> YosysJSON)
    (self : YosysJSON -> YosysModule -> string -> result pb_type)
    (mdl : YosysModule) (mode : string) :
  cells (mode_module elaborate_with_mode mdl mode) = [] ->
  (has_mode_metadata elaborate_with_mode mdl mode ->
   make_mode elaborate_with_mode self mdl mode
   = Err ModeMetadataWithoutChildrenError) /\
  (~ has_mode_metadata elaborate_with_mode mdl mode ->
   exists conns,
     make_mode elaborate_with_mode self mdl mode = Ok (strip mode, None, conns) /\
     Forall on_boundary conns).
Proof.
  intros Hc. unfold make_mode. fold (mode_module elaborate_with_mode mdl mode).
  rewrite Hc. cbn [length Nat.eqb].
  destruct (get_interconnects_no_cells
              (elaborate_with_mode (name mdl) (strip mode))
              (mode_module elaborate_with_mode mdl mode)
              (strip mode) [strip mode] Hc) as [Hic Hb].
  rewrite Hic. cbn [bind].
  destruct (Nat.eqb
              (length (metadata_from_attributes
                         (module_attrs (mode_module elaborate_with_mode mdl mode))
                         (Some (strip mode)))) 0) eqn:E; cbn [negb]; split.
  - intros (attr & value & Hi & Hs).
    rewrite (proj1 (mode_metadata_empty _ _) E attr value Hi) in Hs. discriminate.
  - intros _. eexists. split; [reflexivity|]. now apply mode_conns_boundary.
  - reflexivity.
  - intros Hn. exfalso.
    assert (Hall : forall attr value,
               In (attr, value)
                 (module_attrs (mode_module elaborate_with_mode mdl mode)) ->
               is_scoped (strip mode) attr = false).
    { intros attr value Hi. destruct (is_scoped (strip mode) attr) eqn:Es;
        [|reflexivity]. exfalso. apply Hn. now exists attr, value. }
    apply mode_metadata_empty in Hall. congruence.
Qed.

(** C7: a mode under which the module has no cell contributes no pb_type,
    only connections between ports of the container, and metadata
    qualified with such a mode stops the build with
    [ModeMetadataWithoutChildrenError]; so when the loop over the modes
    returns, every mode without cells has no pb_type and no metadata. *)
Theorem mode_without_children
    (elaborate_with_mode : string -> string -> YosysJSON)
    (self : YosysJSON -> YosysModule -> string -> result pb_type)
    (mdl : YosysModule) :
  (forall mode,
      cells (mode_module elaborate_with_mode mdl mode) = [] ->
      (forall m,
          make_mode elaborate_with_mode self mdl mode = Ok m ->
          mode_pb_type m = None /\ Forall on_boundary (mode_interconnect m)) /\
      (has_mode_metadata elaborate_with_mode mdl mode ->
       make_mode elaborate_with_mode self mdl mode
       = Err ModeMetadataWithoutChildrenError) /\
      (~ has_mode_metadata elaborate_with_mode mdl mode ->
       exists m, make_mode elaborate_with_mode self mdl mode = Ok m)) /\
  (forall modes built,
      map_result (make_mode elaborate_with_mode self mdl) modes = Ok built ->
      Forall2
        (fun mode m =>
           cells (mode_module elaborate_with_mode mdl mode) = [] ->
           mode_pb_type m = None /\
           Forall on_boundary (mode_interconnect m) /\
           ~ has_mode_metadata elaborate_with_mode mdl mode)
        modes built).
Proof.
  assert (Hmode : forall mode m,
             cells (mode_module elaborate_with_mode mdl mode) = [] ->
             make_mode elaborate_with_mode self mdl mode = Ok m ->
             mode_pb_type m = None /\ Forall on_boundary (mode_interconnect m) /\
             ~ has_mode_metadata elaborate_with_mode mdl mode).
  { intros mode m Hc Hm.
    destruct (make_mode_no_cells elaborate_with_mode self mdl mode Hc)
      as [Herr Hok].
    assert (Hno : ~ has_mode_metadata elaborate_with_mode mdl mode).
    { intros Hmeta. rewrite (Herr Hmeta) in Hm. discriminate. }
    destruct (Hok Hno) as (conns & Heq & Hb).
    rewrite Heq in Hm. injection Hm as <-. repeat split; assumption. }
  split.
  - intros mode Hc. split; [|split].
    + intros m Hm. destruct (Hmode mode m Hc Hm) as (H1 & H2 & _). now split.
    + apply (make_mode_no_cells elaborate_with_mode self mdl mode Hc).
    + intros Hno.
      destruct (proj2 (make_mode_no_cells elaborate_with_mode self mdl mode Hc) Hno)
        as (conns & Heq & _). eauto.
  - intros modes built Hb. apply map_result_Forall2 in Hb.
    induction Hb as [|mode m modes built Hm _ IH]; constructor; [|exact IH].
    intros Hc. now apply Hmode.
Qed.

Lemma mode_without_children_witness :
  make_mode (MODAL_elaborate [("FASM_FEATURES_A", "X")])
    (make_pb_type_mode (MODAL_elaborate [("FASM_FEATURES_A", "X")]) (fun _ => []))
    MODAL_host "A"
  = Err ModeMetadataWithoutChildrenError /\
  exists m,
    make_mode (MODAL_elaborate [])
      (make_pb_type_mode (MODAL_elaborate []) (fun _ => [])) MODAL_host "A"
    = Ok m.
Proof.
  split.
  - apply (mode_without_children (MODAL_elaborate [("FASM_FEATURES_A", "X")])
             (make_pb_type_mode (MODAL_elaborate [("FASM_FEATURES_A", "X")])
                (fun _ => []))
             MODAL_host).
    + reflexivity.
    + exists "FASM_FEATURES_A", "X". split; [now left | vm_compute; reflexivity].
  - apply (mode_without_children (MODAL_elaborate [])
             (make_pb_type_mode (MODAL_elaborate []) (fun _ => []))
             MODAL_host).
    + reflexivity.
    + intros (attr & value & [] & _).
Defined.

(** With [mode_processing] set, [make_pb_type] makes no call of itself. *)
Lemma mode_processing_no_call
    (elaborate_with_mode : string -> string -> YosysJSON)
    (incl_metadata : CellType -> attrs)
    (self self' : YosysJSON -> YosysModule -> string -> result pb_type)
    (yj : YosysJSON) (mdl : YosysModule) (mode_name : option string) :
  make_pb_type_with elaborate_with_mode incl_metadata self yj mdl true mode_name
  = make_pb_type_with elaborate_with_mode incl_metadata self' yj mdl true mode_name.
Proof.
  unfold make_pb_type_with.
  destruct (option_map (split_on ";") (attr mdl "MODES")) as [[|m ms]|];
    reflexivity.
Qed.

(** The whole build of [MODAL]: mode [A] has connections only, mode [B] a
    pb_type with the two cells. *)
Example MODAL_make_pb_type :
  make_pb_type (MODAL_elaborate []) (fun _ => []) (MODAL_elaborate [] "MODAL" "")
    MODAL_host
  = Ok (PbModes "MODAL" []
          [("A", None, [((None, "in"), (None, "out"), [])]);
           ("B",
            Some (PbContainer "B" []
                    {| children_metadata := [("a", []); ("b", [])];
                       directs :=
                         [((None, "in"), (Some "a", "I"), []);
                          ((Some "a", "O"), (Some "b", "D"), []);
                          ((Some "b", "Q"), (None, "out"), [])];
                       muxes := [] |}
                    []),
            [((None, "in"), (Some "B", "in"), []);
             ((Some "B", "out"), (None, "out"), [])])]
          []).
Proof. vm_compute. reflexivity. Qed.

Example MODAL_make_pb_type_metadata :
  make_pb_type (MODAL_elaborate [("FASM_FEATURES_A", "X")]) (fun _ => [])
    (MODAL_elaborate [] "MODAL" "") MODAL_host
  = Err ModeMetadataWithoutChildrenError.
Proof. vm_compute. reflexivity. Qed.

(* ===================================================================== *)
(** * Further properties *)

(** ** The matcher *)

Lemma string_of_list_ascii_app (a b : list ascii) :
  string_of_list_ascii (a ++ b)
  = (string_of_list_ascii a ++ string_of_list_ascii b)%string.
Proof. induction a as [|c a IH]; simpl; [reflexivity | now rewrite IH]. Qed.

Lemma list_ascii_of_string_app (a b : string) :
  list_ascii_of_string (a ++ b)%string
  = list_ascii_of_string a ++ list_ascii_of_string b.
Proof. induction a as [|c a IH]; simpl; [reflexivity | now rewrite IH]. Qed.

(** What the greedy loop consumed when the match succeeds. *)
Lemma greedy_sound {A : Type} (cls : ascii -> bool)
    (k : list ascii -> list ascii -> option A) (s acc : list ascii) (r : A) :
  greedy cls k s acc = Some r ->
  exists w rest, s = w ++ rest /\ forallb cls w = true /\
                 k rest (acc ++ w) = Some r.
Proof.
  revert acc; induction s as [|x s IH]; intros acc; simpl.
  - intros Hk. exists [], []. simpl. rewrite app_nil_r. auto.
  - destruct (cls x) eqn:Ex.
    + destruct (greedy cls k s (acc ++ [x])) as [r'|] eqn:Eg.
      * intros [= <-]. destruct (IH _ Eg) as (w & rest & -> & Hw & Hk).
        exists (x :: w), rest. simpl. rewrite Ex, Hw.
        rewrite <- app_assoc in Hk. auto.
      * intros Hk. exists [], (x :: s). rewrite app_nil_r. auto.
    + intros Hk. exists [], (x :: s). rewrite app_nil_r. auto.
Qed.

Lemma take_drop_while (cls : ascii -> bool) (s : list ascii) :
  s = take_while cls s ++ drop_while cls s.
Proof.
  induction s as [|x s IH]; simpl; [reflexivity|].
  destruct (cls x); simpl; [now rewrite <- IH | reflexivity].
Qed.

Lemma take_while_all (cls : ascii -> bool) (s : list ascii) :
  forallb cls (take_while cls s) = true.
Proof.
  induction s as [|x s IH]; simpl; [reflexivity|].
  destruct (cls x) eqn:E; simpl; [now rewrite E | reflexivity].
Qed.

Lemma drop_while_head (cls : ascii -> bool) (s : list ascii) :
  match drop_while cls s with
  | [] => True
  | x :: _ => cls x = false
  end.
Proof.
  induction s as [|x s IH]; simpl; [exact I|].
  destruct (cls x) eqn:E; [exact IH | exact E].
Qed.

(** When nothing follows the repetition, the loop takes the longest run. *)
Lemma greedy_last {A : Type} (cls : ascii -> bool)
    (k : list ascii -> list ascii -> option A) (s acc : list ascii) :
  (forall s' acc', k s' acc' <> None) ->
  greedy cls k s acc = k (drop_while cls s) (acc ++ take_while cls s).
Proof.
  intros Hk. revert acc; induction s as [|x s IH]; intros acc; simpl.
  - now rewrite app_nil_r.
  - destruct (cls x); [|now rewrite app_nil_r].
    rewrite IH, <- app_assoc. simpl.
    destruct (k (drop_while cls s) (acc ++ x :: take_while cls s)) eqn:E;
      [reflexivity | now apply Hk in E].
Qed.

Lemma re_match_Chr (c : ascii) (r : list atom) (s : list ascii)
    (caps caps' : captures) :
  re_match (Chr c :: r) s caps = Some caps' ->
  exists s', s = c :: s' /\ re_match r s' caps = Some caps'.
Proof.
  simpl. destruct s as [|x s']; [discriminate|].
  destruct (Ascii.eqb_spec x c) as [->|]; [eauto | discriminate].
Qed.

Lemma re_match_literal (lit : string) (r : list atom) (s : list ascii)
    (caps caps' : captures) :
  re_match (literal lit ++ r) s caps = Some caps' ->
  exists s', s = list_ascii_of_string lit ++ s' /\
             re_match r s' caps = Some caps'.
Proof.
  unfold literal. revert s.
  induction (list_ascii_of_string lit) as [|c l IH]; intros s; simpl map.
  - intros H. exists s. auto.
  - intros H. apply re_match_Chr in H as (s1 & -> & H).
    destruct (IH s1 H) as (s' & -> & H'). exists s'. auto.
Qed.

Lemma re_match_Star (cls : ascii -> bool) (grp : option nat) (r : list atom)
    (s : list ascii) (caps caps' : captures) :
  re_match (Star cls grp :: r) s caps = Some caps' ->
  exists w s', s = w ++ s' /\ forallb cls w = true /\
    re_match r s' (record grp (string_of_list_ascii w) caps) = Some caps'.
Proof.
  simpl. intros H. apply greedy_sound in H as (w & rest & -> & Hw & H).
  exists w, rest. auto.
Qed.

Lemma re_match_Plus (cls : ascii -> bool) (grp : option nat) (r : list atom)
    (s : list ascii) (caps caps' : captures) :
  re_match (Plus cls grp :: r) s caps = Some caps' ->
  exists w s', s = w ++ s' /\ w <> [] /\ forallb cls w = true /\
    re_match r s' (record grp (string_of_list_ascii w) caps) = Some caps'.
Proof.
  simpl. destruct s as [|x s]; [discriminate|].
  destruct (cls x) eqn:Ex; [|discriminate].
  intros H. apply greedy_sound in H as (w & rest & -> & Hw & H).
  exists (x :: w), rest. simpl. rewrite Ex, Hw. repeat split; auto.
  discriminate.
Qed.

Lemma strip_prefix_Some (p s s' : list ascii) :
  strip_prefix p s = Some s' -> s = p ++ s'.
Proof.
  revert s; induction p as [|a p IH]; intros s; simpl.
  - now intros [= ->].
  - destruct s as [|b s]; [discriminate|].
    destruct (Ascii.eqb_spec a b) as [->|]; [|discriminate].
    intros H. now rewrite (IH s H).
Qed.

Lemma strip_prefix_app (p s : list ascii) : strip_prefix p (p ++ s) = Some s.
Proof.
  induction p as [|a p IH]; simpl; [reflexivity|].
  now rewrite Ascii.eqb_refl.
Qed.

Lemma re_match_Lits (alts : list string) (grp : option nat) (r : list atom)
    (s : list ascii) (caps caps' : captures) :
  re_match (Lits alts grp :: r) s caps = Some caps' ->
  exists a s', In a alts /\ s = list_ascii_of_string a ++ s' /\
    re_match r s' (record grp a caps) = Some caps'.
Proof.
  simpl. induction alts as [|a alts IH]; [discriminate|].
  destruct (strip_prefix (list_ascii_of_string a) s) as [s'|] eqn:Ep.
  - destruct (re_match r s' (record grp a caps)) as [c|] eqn:Er.
    + intros [= <-]. exists a, s'. split; [now left|].
      split; [now apply strip_prefix_Some | exact Er].
    + intros H. destruct (IH H) as (a' & s'' & Hi & Hs & Hr).
      exists a', s''. split; [now right | auto].
  - intros H. destruct (IH H) as (a' & s'' & Hi & Hs & Hr).
    exists a', s''. split; [now right | auto].
Qed.

Lemma re_match_Star_last (cls : ascii -> bool) (grp : option nat)
    (s : list ascii) (caps : captures) :
  re_match [Star cls grp] s caps
  = Some (record grp (string_of_list_ascii (take_while cls s)) caps).
Proof. simpl. rewrite greedy_last; [reflexivity | discriminate]. Qed.

Lemma re_match_Plus_last (cls : ascii -> bool) (grp : option nat)
    (s : list ascii) (caps caps' : captures) :
  re_match [Plus cls grp] s caps = Some caps' ->
  take_while cls s <> [] /\
  caps' = record grp (string_of_list_ascii (take_while cls s)) caps.
Proof.
  simpl. destruct s as [|x s]; [discriminate|].
  destruct (cls x) eqn:Ex; [|discriminate].
  rewrite greedy_last by discriminate. simpl. rewrite Ex.
  intros H. injection H as H. subst caps'.
  split; [discriminate | reflexivity].
Qed.

(** X1: a name with the generate-block prefix that [strip_name] accepts is
    the prefix, a path, a colon, a line number, a dollar, a number, the
    index between brackets, a dot, a backslash and the name up to the end
    of the line; the result is the name followed by the index between
    brackets, and the name alone without [include_index]. *)
Theorem strip_name_genblock_form (nm r : string) :
  String.prefix "$genblock$" nm = true ->
  strip_name nm true = Ok r ->
  exists path line id index short rest,
    nm = ("$genblock$" ++ path ++ ":" ++ line ++ "$" ++ id ++ "[" ++ index
          ++ "].\" ++ short ++ rest)%string /\
    is_number line /\ is_number id /\
    r = indexed short index /\
    strip_name nm false = Ok short /\
    (rest = "" \/ exists rest', rest = String newline rest').
Proof.
  intros Hp. unfold strip_name. rewrite Hp.
  destruct (re_match GENBLOCK_REGEX (list_ascii_of_string nm) []) as [caps|] eqn:Em;
    [|discriminate].
  cbv beta zeta iota. intros [= <-]. unfold GENBLOCK_REGEX in Em.
  apply re_match_literal in Em as (s0 & Hs0 & Em).
  apply re_match_Star in Em as (path & s1 & -> & _ & Em).
  apply re_match_Chr in Em as (s2 & -> & Em).
  apply re_match_Plus in Em as (line & s3 & -> & Hline & Dline & Em).
  apply re_match_Chr in Em as (s4 & -> & Em).
  apply re_match_Plus in Em as (id & s5 & -> & Hid & Did & Em).
  apply re_match_Chr in Em as (s6 & -> & Em).
  apply re_match_Star in Em as (index & s7 & -> & _ & Em).
  apply re_match_Chr in Em as (s8 & -> & Em).
  apply re_match_Chr in Em as (s9 & -> & Em).
  apply re_match_Chr in Em as (s10 & -> & Em).
  rewrite re_match_Star_last in Em. injection Em as <-. simpl record.
  cbn [group Nat.eqb].
  exists (string_of_list_ascii path), (string_of_list_ascii line),
    (string_of_list_ascii id), (string_of_list_ascii index),
    (string_of_list_ascii (take_while is_dot s10)),
    (string_of_list_ascii (drop_while is_dot s10)).
  split; [|split; [|split; [|split; [|split]]]].
  - rewrite <- (string_of_list_ascii_of_string nm), Hs0.
    rewrite (take_drop_while is_dot s10) at 1.
    repeat (rewrite ?string_of_list_ascii_app; cbn [string_of_list_ascii]).
    rewrite string_of_list_ascii_of_string. reflexivity.
  - split; [destruct line; [congruence | discriminate]|].
    now rewrite list_ascii_of_string_of_list_ascii.
  - split; [destruct id; [congruence | discriminate]|].
    now rewrite list_ascii_of_string_of_list_ascii.
  - reflexivity.
  - reflexivity.
  - pose proof (drop_while_head is_dot s10) as Hh.
    destruct (drop_while is_dot s10) as [|x rest]; [now left|].
    right. exists (string_of_list_ascii rest). simpl. f_equal.
    unfold is_dot in Hh. apply negb_false_iff in Hh. now apply Ascii.eqb_eq.
Qed.

Lemma strip_name_genblock_form_witness :
  exists path line id index short rest,
    "$genblock$/tests/multiple_instance.sim.v:12$64[57].\comb"
    = ("$genblock$" ++ path ++ ":" ++ line ++ "$" ++ id ++ "[" ++ index
       ++ "].\" ++ short ++ rest)%string /\
    is_number line /\ is_number id /\
    "comb[57]" = indexed short index /\
    strip_name "$genblock$/tests/multiple_instance.sim.v:12$64[57].\comb" false
    = Ok short /\
    (rest = "" \/ exists rest', rest = String newline rest').
Proof.
  apply strip_name_genblock_form; vm_compute; reflexivity.
Defined.

(* ===================================================================== *)
(** ** Metadata attributes *)

Lemma take_while_id (cls : ascii -> bool) (l : list ascii) :
  forallb cls l = true -> take_while cls l = l.
Proof.
  induction l as [|x l IH]; simpl; [reflexivity|].
  destruct (cls x); simpl; [intros H; now rewrite IH | discriminate].
Qed.

Lemma mem_known (a : string) :
  mem a KNOWN_FASM_ATTRS = true <-> In a KNOWN_FASM_ATTRS.
Proof. apply mem_In. Qed.

(** The name that [parse_fasm_attribute] returns is a known one. *)
Lemma parsed_name_known (attribute : string) :
  match parse_fasm_attribute attribute with
  | (Some nm, _) => In nm KNOWN_FASM_ATTRS
  | (None, _) => True
  end.
Proof.
  unfold parse_fasm_attribute.
  destruct (mem attribute KNOWN_FASM_ATTRS) eqn:Ek; [now apply mem_known|].
  destruct (re_match FASM_MODE_REGEX (list_ascii_of_string attribute) [])
    as [caps|] eqn:Em; [|exact I].
  unfold FASM_MODE_REGEX in Em.
  apply re_match_Lits in Em as (nm & s1 & Hnm & Hs & Em).
  apply re_match_Chr in Em as (s2 & -> & Em).
  apply re_match_Plus_last in Em as (Hne & ->).
  exact Hnm.
Qed.

(** X2: what [parse_fasm_attribute] returns.  A name without mode is the
    attribute itself and one of the known names; a name with a mode is a
    known name, and the attribute is that name, an underscore, and the mode,
    which is the longest run of capitals, digits and underscores there; no
    mode is returned without a name. *)
Theorem parse_fasm_attribute_sound (attribute : string) :
  match parse_fasm_attribute attribute with
  | (Some nm, None) => nm = attribute /\ In attribute KNOWN_FASM_ATTRS
  | (Some nm, Some m) =>
      In nm KNOWN_FASM_ATTRS /\ ~ In attribute KNOWN_FASM_ATTRS /\
      m <> "" /\ forallb is_mode_char (list_ascii_of_string m) = true /\
      exists rest,
        attribute = (nm ++ "_" ++ m ++ rest)%string /\
        match rest with
        | EmptyString => True
        | String c _ => is_mode_char c = false
        end
  | (None, Some _) => False
  | (None, None) => ~ In attribute KNOWN_FASM_ATTRS
  end.
Proof.
  unfold parse_fasm_attribute.
  destruct (mem attribute KNOWN_FASM_ATTRS) eqn:Ek.
  - split; [reflexivity | now apply mem_known].
  - assert (Hn : ~ In attribute KNOWN_FASM_ATTRS).
    { intros Hi. apply mem_known in Hi. congruence. }
    destruct (re_match FASM_MODE_REGEX (list_ascii_of_string attribute) [])
      as [caps|] eqn:Em; [|exact Hn].
    unfold FASM_MODE_REGEX in Em.
    apply re_match_Lits in Em as (nm & s1 & Hnm & Hs & Em).
    apply re_match_Chr in Em as (s2 & -> & Em).
    apply re_match_Plus_last in Em as (Hne & ->).
    cbn [record group Nat.eqb].
    split; [exact Hnm|]. split; [exact Hn|].
    split; [destruct (take_while is_mode_char s2); [congruence | discriminate]|].
    split; [rewrite list_ascii_of_string_of_list_ascii; apply take_while_all|].
    exists (string_of_list_ascii (drop_while is_mode_char s2)). split.
    + rewrite <- (string_of_list_ascii_of_string attribute), Hs.
      rewrite (take_drop_while is_mode_char s2) at 1.
      repeat (rewrite ?string_of_list_ascii_app; cbn [string_of_list_ascii]).
      now rewrite string_of_list_ascii_of_string.
    + pose proof (drop_while_head is_mode_char s2) as Hh.
      destruct (drop_while is_mode_char s2); [exact I | exact Hh].
Qed.

(** X3: a known name qualified with a mode made of capitals, digits and
    underscores parses back into the name and the mode. *)
Theorem parse_fasm_attribute_qualified (nm m : string) :
  In nm KNOWN_FASM_ATTRS ->
  m <> "" ->
  forallb is_mode_char (list_ascii_of_string m) = true ->
  parse_fasm_attribute (nm ++ "_" ++ m) = (Some nm, Some m).
Proof.
  intros Hnm Hm Hall. unfold parse_fasm_attribute.
  destruct m as [|c m]; [congruence|].
  cbn [list_ascii_of_string forallb] in Hall.
  apply andb_prop in Hall as [Hc Hall].
  destruct Hnm as [<-|[<-|[<-|[]]]];
    cbn [String.append mem existsb eqb EqB_string String.eqb Ascii.eqb
         Bool.eqb orb KNOWN_FASM_ATTRS];
    unfold FASM_MODE_REGEX, KNOWN_FASM_ATTRS;
    cbn [list_ascii_of_string String.append re_match strip_prefix Ascii.eqb
         Bool.eqb record];
    rewrite Hc, greedy_last by discriminate;
    rewrite (take_while_id _ _ Hall);
    cbn [re_match record app string_of_list_ascii group Nat.eqb];
    now rewrite string_of_list_ascii_of_string.
Qed.

Lemma parse_fasm_attribute_qualified_witness :
  parse_fasm_attribute "FASM_FEATURES_MODE_1" = (Some "FASM_FEATURES", Some "MODE_1").
Proof.
  apply (parse_fasm_attribute_qualified "FASM_FEATURES" "MODE_1").
  - simpl. tauto.
  - discriminate.
  - reflexivity.
Defined.

Lemma fold_left_invariant_In {A S : Type} (P : S -> Prop) (f : S -> A -> S)
    (l : list A) :
  (forall s a, In a l -> P s -> P (f s a)) -> forall s, P s -> P (fold_left f l s).
Proof.
  induction l as [|a l IH]; intros Hstep s Hs; simpl; [exact Hs|].
  apply IH.
  - intros s' a' Hi. apply Hstep. now right.
  - apply Hstep; [now left | exact Hs].
Qed.

Lemma In_keys_set {K V : Type} `{EqB K} (k k' : K) (v : V) (d : PyDict.dict K V) :
  In k' (PyDict.keys (PyDict.set k v d)) -> k' = k \/ In k' (PyDict.keys d).
Proof.
  rewrite PyDictFacts.keys_set. destruct (PyDict.has k d); [now right|].
  intros Hi. apply in_app_or in Hi as [Hi|[<-|[]]]; auto.
Qed.

Lemma lower_known (nm : string) :
  In nm KNOWN_FASM_ATTRS ->
  In (lower nm) ["fasm_prefix"; "fasm_features"; "fasm_params"].
Proof.
  intros [<-|[<-|[<-|[]]]]; vm_compute; tauto.
Qed.

Lemma parse_fasm_attribute_name (attribute nm : string) (m : option string) :
  parse_fasm_attribute attribute = (Some nm, m) -> In nm KNOWN_FASM_ATTRS.
Proof.
  intros Hp. pose proof (parsed_name_known attribute) as Hs.
  rewrite Hp in Hs. exact Hs.
Qed.

(** X4: the metadata read from attributes has distinct keys, all among
    fasm_prefix, fasm_features and fasm_params; every value is the value of
    an attribute with the corresponding known name, qualified with the mode
    when a mode is given; so the key fasm_lut never occurs and instance
    metadata is rejected exactly for fasm_params. *)
Theorem metadata_from_attributes_keys (attributes : attrs) (mode : option string) :
  NoDup (PyDict.keys (metadata_from_attributes attributes mode)) /\
  (forall k, In k (PyDict.keys (metadata_from_attributes attributes mode)) ->
             In k ["fasm_prefix"; "fasm_features"; "fasm_params"]) /\
  (forall k v,
      PyDict.get k (metadata_from_attributes attributes mode) = Some v ->
      exists attr nm m,
        In (attr, v) attributes /\
        parse_fasm_attribute attr = (Some nm, m) /\ lower nm = k /\
        (mode = None \/ m = mode)) /\
  PyDict.has "fasm_lut" (metadata_from_attributes attributes mode) = false /\
  sanity_check_child_metadata (metadata_from_attributes attributes mode)
  = (if PyDict.has "fasm_params" (metadata_from_attributes attributes mode)
     then Err ScopeViolationError else Ok tt).
Proof.
  assert (Hinv :
    NoDup (PyDict.keys (metadata_from_attributes attributes mode)) /\
    (forall k, In k (PyDict.keys (metadata_from_attributes attributes mode)) ->
               In k ["fasm_prefix"; "fasm_features"; "fasm_params"]) /\
    (forall k v,
        PyDict.get k (metadata_from_attributes attributes mode) = Some v ->
        exists attr nm m,
          In (attr, v) attributes /\
          parse_fasm_attribute attr = (Some nm, m) /\ lower nm = k /\
          (mode = None \/ m = mode))).
  { unfold metadata_from_attributes.
    apply (fold_left_invariant_In
             (fun md : attrs =>
                NoDup (PyDict.keys md) /\
                (forall k, In k (PyDict.keys md) ->
                           In k ["fasm_prefix"; "fasm_features"; "fasm_params"]) /\
                (forall k v, PyDict.get k md = Some v ->
                   exists attr nm m,
                     In (attr, v) attributes /\
                     parse_fasm_attribute attr = (Some nm, m) /\ lower nm = k /\
                     (mode = None \/ m = mode)))).
    - intros md [attr value] Hin (Hnd & Hkeys & Hprov).
      destruct (parse_fasm_attribute attr) as [[nm|] m] eqn:Ep;
        [|repeat split; assumption].
      assert (Hset :
        forall ok : mode = None \/ m = mode,
          NoDup (PyDict.keys (PyDict.set (lower nm) value md)) /\
          (forall k, In k (PyDict.keys (PyDict.set (lower nm) value md)) ->
                     In k ["fasm_prefix"; "fasm_features"; "fasm_params"]) /\
          (forall k v, PyDict.get k (PyDict.set (lower nm) value md) = Some v ->
             exists attr nm m,
               In (attr, v) attributes /\
               parse_fasm_attribute attr = (Some nm, m) /\ lower nm = k /\
               (mode = None \/ m = mode))).
      { intros ok. split; [now apply PyDictFacts.NoDup_keys_set|]. split.
        - intros k Hk. apply In_keys_set in Hk as [->|Hk]; [|now apply Hkeys].
          apply lower_known. now apply (parse_fasm_attribute_name attr nm m).
        - intros k v. rewrite PyDictFacts.get_set.
          destruct (eqb_spec k (lower nm)) as [->|Hn]; [|apply Hprov].
          intros [= <-]. exists attr, nm, m. auto. }
      destruct mode as [md0|].
      + destruct (eqb_spec m (Some md0)) as [->|Hn];
          [apply Hset; now right | repeat split; assumption].
      + apply Hset. now left.
    - split; [constructor|]. split; [intros k []|]. intros k v [=]. }
  destruct Hinv as (Hnd & Hkeys & Hprov).
  assert (Hlut : PyDict.has "fasm_lut" (metadata_from_attributes attributes mode)
                 = false).
  { destruct (PyDict.has "fasm_lut" _) eqn:E; [|reflexivity].
    apply PyDictFacts.has_keys, Hkeys in E.
    destruct E as [E|[E|[E|[]]]]; discriminate. }
  repeat split; try assumption.
  rewrite sanity_check_child_metadata_spec, Hlut. now rewrite orb_false_r.
Qed.

(* ===================================================================== *)
(** ** Merging metadata without conflict *)

Lemma has_set_other {K V : Type} `{EqB K} (k k' : K) (v : V) (d : PyDict.dict K V) :
  k' <> k -> PyDict.has k' (PyDict.set k v d) = PyDict.has k' d.
Proof. intros Hn. unfold PyDict.has. now rewrite PyDictFacts.get_set_other. Qed.

Lemma update_metadata_step_keys (ck : py_container) (md md' : attrs) (k v : string) :
  update_metadata_step ck md (k, v) = Ok md' ->
  PyDict.keys md' = (if PyDict.has k md then PyDict.keys md else PyDict.keys md ++ [k]) /\
  forall k', k' <> k -> PyDict.has k' md' = PyDict.has k' md.
Proof.
  unfold update_metadata_step, PyDict.has.
  destruct (PyDict.get k md) as [old|] eqn:Eold.
  - destruct (py_in k ck).
    + intros [= <-]. rewrite PyDictFacts.keys_set. unfold PyDict.has.
      rewrite Eold. split; [reflexivity|]. intros k' Hn.
      now rewrite PyDictFacts.get_set_other.
    + destruct (String.eqb old v); [|discriminate]. intros [= <-]. auto.
  - intros [= <-]. rewrite PyDictFacts.keys_set. unfold PyDict.has.
    rewrite Eold. split; [reflexivity|]. intros k' Hn.
    now rewrite PyDictFacts.get_set_other.
Qed.

Lemma update_metadata_succeeds (ck : py_container) (new md : attrs) :
  NoDup (PyDict.keys new) ->
  (forall key a b,
      PyDict.get key md = Some a -> PyDict.get key new = Some b ->
      py_in key ck = false -> a = b) ->
  exists d,
    update_metadata md new ck = Ok d /\
    PyDict.keys d
    = PyDict.keys md ++ filter (fun k => negb (PyDict.has k md)) (PyDict.keys new).
Proof.
  unfold update_metadata. revert md.
  induction new as [|[k v] new IH]; intros md Hnd Hok.
  - exists md. simpl. now rewrite app_nil_r.
  - inversion Hnd as [|? ? Hk Hnd']; subst.
    assert (Hknew : PyDict.get k new = None)
      by now apply PyDictFacts.get_None_keys.
    assert (Hstep : exists md1, update_metadata_step ck md (k, v) = Ok md1).
    { unfold update_metadata_step.
      destruct (PyDict.get k md) as [old|] eqn:Eold; [|eauto].
      destruct (py_in k ck) eqn:Ec; [eauto|].
      assert (old = v) as ->.
      { apply (Hok k old v Eold); [|exact Ec].
        cbn [PyDict.get]. now rewrite eqb_refl. }
      rewrite String.eqb_refl. eauto. }
    destruct Hstep as (md1 & Hstep).
    destruct (update_metadata_step_keys ck md md1 k v Hstep) as [Hkeys Hhas].
    destruct (IH md1 Hnd') as (d & Hd & Hkd).
    { intros key a b Ha Hb Hc.
      assert (Hn : key <> k) by (intros ->; congruence).
      apply (Hok key a b); [| |exact Hc].
      - rewrite <- Ha. symmetry.
        rewrite (update_metadata_step_get ck md md1 k v key Hstep).
        now rewrite (proj2 (String.eqb_neq key k) Hn).
      - cbn [PyDict.get]. now rewrite (eqb_neq _ _ Hn). }
    exists d. cbn [for_each]. rewrite Hstep. cbn [bind]. split; [exact Hd|].
    rewrite Hkd, Hkeys. cbn [PyDict.keys map fst filter].
    assert (Hf : filter (fun k0 => negb (PyDict.has k0 md1)) (PyDict.keys new)
                 = filter (fun k0 => negb (PyDict.has k0 md)) (PyDict.keys new)).
    { apply filter_ext_in. intros k0 Hk0. rewrite Hhas; [reflexivity|].
      intros ->. contradiction. }
    fold (PyDict.keys new). rewrite Hf.
    destruct (PyDict.has k md); simpl; [reflexivity|].
    now rewrite <- app_assoc.
Qed.

(** X5: [update_metadata] succeeds exactly when every key of both mappings
    that is not concatenable has the same value in both; the result then
    holds the merged values, keeps the keys of [metadata] in their order,
    puts the new keys after them in the order of [new_metadata], and has
    distinct keys. *)
Theorem update_metadata_conflict_free
    (metadata new_metadata : attrs) (concatenate_keys : py_container) :
  NoDup (PyDict.keys metadata) ->
  NoDup (PyDict.keys new_metadata) ->
  ((exists d, update_metadata metadata new_metadata concatenate_keys = Ok d) <->
   (forall key a b,
       PyDict.get key metadata = Some a ->
       PyDict.get key new_metadata = Some b ->
       py_in key concatenate_keys = false -> a = b)) /\
  (forall d,
      update_metadata metadata new_metadata concatenate_keys = Ok d ->
      (forall key,
          PyDict.get key d
          = merged concatenate_keys key (PyDict.get key metadata)
              (PyDict.get key new_metadata)) /\
      PyDict.keys d
      = PyDict.keys metadata ++
        filter (fun k => negb (PyDict.has k metadata)) (PyDict.keys new_metadata) /\
      NoDup (PyDict.keys d)).
Proof.
  intros Hnd Hnd'.
  assert (Hiff :
    (exists d, update_metadata metadata new_metadata concatenate_keys = Ok d) <->
    (forall key a b,
        PyDict.get key metadata = Some a ->
        PyDict.get key new_metadata = Some b ->
        py_in key concatenate_keys = false -> a = b)).
  { split.
    - intros (d & Hd) key a b Ha Hb Hc.
      destruct (String.eqb_spec a b) as [|Hab]; [assumption|].
      rewrite (update_metadata_conflict concatenate_keys new_metadata metadata
                 key a b Ha Hb Hc Hab) in Hd. discriminate.
    - intros Hok.
      destruct (update_metadata_succeeds concatenate_keys new_metadata metadata
                  Hnd' Hok) as (d & Hd & _). eauto. }
  split; [exact Hiff|]. intros d Hd.
  destruct (update_metadata_succeeds concatenate_keys new_metadata metadata Hnd'
              (proj1 Hiff (ex_intro _ d Hd))) as (d' & Hd' & Hkeys).
  rewrite Hd in Hd'. injection Hd' as <-.
  split; [now apply update_metadata_get|]. split; [exact Hkeys|].
  unfold update_metadata in Hd.
  apply (for_each_invariant (fun m : attrs => NoDup (PyDict.keys m))
           (update_metadata_step concatenate_keys) new_metadata) with (s := metadata);
    [|exact Hnd|exact Hd].
  intros s [k v] s' _ Hs Hstep.
  destruct (update_metadata_step_keys concatenate_keys s s' k v Hstep) as [Hk _].
  rewrite Hk. destruct (PyDict.has k s) eqn:E; [exact Hs|].
  apply NoDup_app; [exact Hs | repeat constructor; simpl; tauto|].
  intros x Hx [<-|[]]. apply PyDictFacts.has_keys in Hx. congruence.
Qed.

Lemma update_metadata_conflict_free_witness :
  exists d,
    update_metadata [("fasm_features", "F"); ("fasm_prefix", "p1")]
      [("fasm_params", "P"); ("fasm_prefix", "p2"); ("fasm_features", "F")]
      (PyStr "fasm_prefix") = Ok d /\
    PyDict.keys d = ["fasm_features"; "fasm_prefix"; "fasm_params"] /\
    PyDict.get "fasm_prefix" d = Some "p1 p2".
Proof.
  assert (N1 : NoDup (PyDict.keys [("fasm_features", "F"); ("fasm_prefix", "p1")])).
  { repeat constructor; simpl; intuition discriminate. }
  assert (N2 : NoDup (PyDict.keys
                        [("fasm_params", "P"); ("fasm_prefix", "p2");
                         ("fasm_features", "F")])).
  { repeat constructor; simpl; intuition discriminate. }
  destruct (update_metadata_conflict_free _ _ (PyStr "fasm_prefix") N1 N2)
    as [Hiff Hres].
  destruct (proj2 Hiff) as (d & Hd).
  - intros key a b Ha Hb Hc. simpl in Ha, Hb.
    destruct (String.eqb key "fasm_features") eqn:E1.
    + apply String.eqb_eq in E1. subst key. simpl in Hb. congruence.
    + destruct (String.eqb key "fasm_prefix") eqn:E2; [|discriminate].
      apply String.eqb_eq in E2. subst key. discriminate.
  - exists d. split; [exact Hd|].
    destruct (Hres d Hd) as (Hget & Hkeys & _). split.
    + rewrite Hkeys. reflexivity.
    + rewrite Hget. reflexivity.
Defined.

(* ===================================================================== *)
(** ** What the attributes of an edge can be *)

Lemma filter_src_no_src (x : attrs) : PyDict.has "src" (filter_src x) = false.
Proof.
  assert (H : forall k, In k (PyDict.keys (filter_src x)) -> k <> "src").
  { unfold filter_src.
    apply (fold_left_invariant
             (fun d : attrs => forall k, In k (PyDict.keys d) -> k <> "src")).
    - intros d [k0 v0] Hd. destruct (String.eqb_spec k0 "src") as [|Hn];
        [exact Hd|].
      intros k Hk. apply In_keys_set in Hk as [->|Hk]; [exact Hn | now apply Hd].
    - intros k []. }
  destruct (PyDict.has "src" (filter_src x)) eqn:E; [|reflexivity].
  apply PyDictFacts.has_keys in E. now apply H in E.
Qed.

Lemma copy_attrs_cases (dst : attrs) (srcs : list attrs) :
  copy_attrs dst srcs = Err AttributeConflictError \/
  exists d, copy_attrs dst srcs = Ok d /\
    forall k, PyDict.get k d
              = if shared k srcs then shared_value k srcs else PyDict.get k dst.
Proof.
  destruct (existsb (fun k => conflict k srcs dst) (all_have srcs)) eqn:E.
  - left. apply copy_attrs_spec. apply existsb_exists in E as (k & Hk & Hc).
    exists k. split; [now apply all_have_shared | exact Hc].
  - right. apply copy_attrs_spec. intros k Hk.
    destruct (conflict k srcs dst) eqn:Ec; [|reflexivity].
    rewrite <- E. symmetry. apply existsb_exists. exists k.
    split; [now apply all_have_shared | exact Ec].
Qed.

(** X6: [net_and_pin_attrs] fails with [AttributeConflictError] only; the
    attributes it returns never include src, each of them is an attribute of
    the net or of the declared port of an end of the edge, and for an edge
    between two ports of the container they are the attributes of the net
    without src. *)
Theorem net_and_pin_attrs_result (yj : YosysJSON) (mdl : YosysModule)
    (driver sink : CellPin) (net : netid) :
  (forall e, net_and_pin_attrs yj mdl driver sink net = Err e ->
             e = AttributeConflictError) /\
  (forall d,
      net_and_pin_attrs yj mdl driver sink net = Ok d ->
      PyDict.has "src" d = false /\
      forall k v, PyDict.get k d = Some v ->
        PyDict.get k (filter_src (net_attrs_by_netid mdl net)) = Some v \/
        exists s, In s (potential_attrs yj mdl driver sink) /\
                  PyDict.get k s = Some v) /\
  (cell_type mdl (fst driver) = None -> cell_type mdl (fst sink) = None ->
   net_and_pin_attrs yj mdl driver sink net
   = Ok (filter_src (net_attrs_by_netid mdl net))).
Proof.
  rewrite net_and_pin_attrs_copy.
  set (srcs := potential_attrs yj mdl driver sink).
  set (dst := filter_src (net_attrs_by_netid mdl net)).
  destruct (copy_attrs_cases dst srcs) as [Herr|(d0 & Hd0 & Hget)].
  - rewrite Herr. split; [intros e [= <-]; reflexivity|].
    split; [intros d [=]|]. intros Hd Hs. exfalso.
    unfold srcs, potential_attrs, pin_attrs in Herr. rewrite Hd, Hs in Herr.
    discriminate.
  - rewrite Hd0. split; [intros e [=]|]. split.
    + intros d [= <-].
      assert (Hsrcs : forall s, In s srcs -> PyDict.has "src" s = false).
      { unfold srcs, potential_attrs, pin_attrs. intros s Hs.
        apply in_app_or in Hs.
        destruct (cell_type mdl (fst driver)), (cell_type mdl (fst sink));
          simpl in Hs; intuition (subst; apply filter_src_no_src). }
      split.
      * unfold PyDict.has. rewrite Hget.
        assert (Hsh : shared "src" srcs = false).
        { destruct srcs as [|s0 rest] eqn:Es; [reflexivity|]. cbn [shared forallb].
          rewrite (Hsrcs s0 (or_introl eq_refl)). reflexivity. }
        rewrite Hsh. fold (PyDict.has "src" dst). unfold dst.
        now rewrite filter_src_no_src.
      * intros k v. rewrite Hget. destruct (shared k srcs) eqn:Es; [|now left].
        intros Hv. right. destruct srcs as [|s0 rest]; [discriminate|].
        exists s0. split; [now left | exact Hv].
    + intros Hd Hs. f_equal.
      unfold srcs, potential_attrs, pin_attrs in Hd0. rewrite Hd, Hs in Hd0.
      simpl in Hd0. unfold copy_attrs in Hd0. simpl in Hd0. congruence.
Qed.

Lemma net_and_pin_attrs_result_witness :
  net_and_pin_attrs FAN_json FAN_module (None, "in") (None, "thru") 4%Z
  = Ok (filter_src (net_attrs_by_netid FAN_module 4%Z)).
Proof.
  apply (net_and_pin_attrs_result FAN_json FAN_module (None, "in") (None, "thru"));
    reflexivity.
Defined.

(* ===================================================================== *)
(** ** The edges of the interconnect *)

Lemma enumerate_from_In {A : Type} (l : list A) (start i : nat) (x : A) :
  In (i, x) (combine (seq start (length l)) l) ->
  start <= i /\ nth_error l (i - start) = Some x.
Proof.
  revert start; induction l as [|a l IH]; intros start; simpl; [intros []|].
  intros [[= <- <-]|Hi].
  - split; [lia|]. now rewrite Nat.sub_diag.
  - destruct (IH (S start) Hi) as [Hle Hn]. split; [lia|].
    replace (i - start) with (S (i - S start)) by lia. exact Hn.
Qed.

Lemma enumerate_In {A : Type} (l : list A) (i : nat) (x : A) :
  In (i, x) (enumerate l) -> nth_error l i = Some x.
Proof.
  intros Hi. apply enumerate_from_In in Hi as [_ Hn].
  now rewrite Nat.sub_0_r in Hn.
Qed.

Lemma In_enumerate_from {A : Type} (l : list A) (start i : nat) (x : A) :
  nth_error l i = Some x ->
  In (start + i, x) (combine (seq start (length l)) l).
Proof.
  revert i start; induction l as [|a l IH]; intros [|i] start; simpl;
    try discriminate.
  - intros [= ->]. left. f_equal. lia.
  - intros Hn. right. replace (start + S i) with (S start + i) by lia.
    now apply IH.
Qed.

Lemma In_enumerate {A : Type} (l : list A) (i : nat) (x : A) :
  nth_error l i = Some x -> In (i, x) (enumerate l).
Proof. intros Hn. apply (In_enumerate_from l 0 i x Hn). Qed.

(** Every property kept by appending an edge that has an origin holds of
    the interconnect before the sinks are sorted. *)
Lemma interconnect_edges_ind (yj : YosysJSON) (mdl : YosysModule)
    (mod_pname : string) (valid_names : list string) (P : Interconn -> Prop) :
  P PyDict.empty ->
  (forall ic driver sink,
      edge_origin yj mdl mod_pname driver sink -> P ic ->
      P (append driver sink ic)) ->
  forall ic0,
    for_each (cell_conn yj mdl mod_pname valid_names) (cells mdl) PyDict.empty
    = Ok ic0 ->
    P (passthrough mdl ic0).
Proof.
  intros Hempty Happ ic0 Hcells.
  assert (Hic0 : P ic0).
  { apply (for_each_invariant P (cell_conn yj mdl mod_pname valid_names)
             (cells mdl)) with (s := PyDict.empty); [|exact Hempty|exact Hcells].
    intros s [cname ctype] s' Hcell Hs Hstep. unfold cell_conn in Hstep.
    apply bind_Ok in Hstep as (pb & Hpb & Hstep).
    apply bind_Ok in Hstep as (u & _ & Hstep).
    apply bind_Ok in Hstep as (s1 & Hin & Hout).
    assert (Hs1 : P s1).
    { apply (for_each_invariant P
               (input_conn yj mdl mod_pname valid_names (owner mod_pname pb))
               (cell_conns mdl cname "input")) with (s := s);
        [|exact Hs|exact Hin].
      intros t [pin net] t' Hconn Ht Hstep.
      apply input_conn_Ok in Hstep as (dc & dp & dn & na & Hd & Hna & Hdn & _ & ->).
      apply Happ; [|exact Ht]. left.
      exists cname, ctype, pb, pin, net, dc, dp, dn. repeat split; assumption. }
    apply (for_each_invariant P (output_conn yj mdl (owner mod_pname pb))
             (cell_conns mdl cname "output")) with (s := s1);
      [|exact Hs1|exact Hout].
    intros t [pin net] t' Hconn Ht Hstep. unfold output_conn in Hstep.
    apply (for_each_invariant P
             (fun interconn '(sink_cell, sink_pin) =>
                if negb (String.eqb sink_cell (name mdl)) then Ok interconn
                else
                  net_attr <- net_and_pin_attrs yj mdl (owner mod_pname pb, pin)
                                (None, sink_pin) net ;;
                  Ok (append (owner mod_pname pb, pin)
                        ((None, sink_pin), net_attr) interconn))
             (net_sinks mdl net)) with (s := t) (s' := t');
      [|exact Ht|exact Hstep].
    intros r [sink_cell sink_pin] r' Hsink Hr.
    destruct (String.eqb_spec sink_cell (name mdl)) as [->|Hn]; simpl.
    - intros H. apply bind_Ok in H as (na & Hna & [= <-]).
      apply Happ; [|exact Hr]. right. left.
      exists cname, ctype, pb, pin, net, sink_pin. repeat split; assumption.
    - now intros [= <-]. }
  unfold passthrough.
  apply fold_left_invariant_In; [|exact Hic0]. intros s1 out_port Hop.
  apply filter_In in Hop as [Hop Hod]. apply String.eqb_eq in Hod.
  apply fold_left_invariant_In. intros s2 [out_bit out_net] Hob.
  apply enumerate_In in Hob.
  apply fold_left_invariant_In. intros s3 inp_port Hip.
  apply filter_In in Hip as [Hip Hid]. apply String.eqb_eq in Hid.
  apply fold_left_invariant_In. intros s4 [inp_bit inp_net] Hib Hs.
  apply enumerate_In in Hib.
  destruct (Z.eqb_spec out_net inp_net) as [->|]; [|exact Hs].
  apply Happ; [|exact Hs]. right. right.
  exists inp_port, inp_bit, out_port, out_bit, inp_net. repeat split; assumption.
Qed.

Lemma has_edge_set (k k' : CellPin) (e : Sink) (l : list Sink) (ic : Interconn) :
  has_edge k e (PyDict.set k' l ic) ->
  (k = k' /\ In e l) \/ has_edge k e ic.
Proof.
  unfold has_edge, sinks_of. rewrite PyDictFacts.get_set.
  destruct (eqb_spec k k') as [->|Hn]; [left | right]; auto.
Qed.

Lemma has_edge_sort_sinks (ic : Interconn) (k : CellPin) (e : Sink) :
  has_edge k e (sort_sinks ic) -> has_edge k e ic.
Proof.
  unfold has_edge. rewrite sinks_of_sort_sinks.
  apply Permutation_in, Permutation_sym, py_sort_perm.
Qed.

(** X7: every edge of the result of [get_interconnects] has an origin in
    the netlist: an input pin of a cell with the only driver of its net, an
    output pin of a cell with a sink of its net on the container, or an
    input bit and an output bit of the container on one net; an edge whose
    sink is owned by a cell is of the first kind. *)
Theorem interconnect_edges_have_origin (yj : YosysJSON) (mdl : YosysModule)
    (mod_pname : string) (valid_names : list string) (ic : Interconn)
    (driver : CellPin) (sink : Sink) :
  get_interconnects yj mdl mod_pname valid_names = Ok ic ->
  has_edge driver sink ic ->
  edge_origin yj mdl mod_pname driver sink /\
  (forall c, fst (fst sink) = Some c -> input_edge yj mdl mod_pname driver sink).
Proof.
  intros Hic He. unfold get_interconnects in Hic.
  apply bind_Ok in Hic as (ic0 & Hcells & [= <-]).
  apply has_edge_sort_sinks in He.
  assert (Ho : edge_origin yj mdl mod_pname driver sink).
  { revert driver sink He.
    apply (interconnect_edges_ind yj mdl mod_pname valid_names
             (fun ic => forall driver sink,
                  has_edge driver sink ic ->
                  edge_origin yj mdl mod_pname driver sink));
      [| |exact Hcells].
    - intros d s [].
    - intros ic d s Ho Hic d' s' He. unfold append in He.
      apply has_edge_set in He as [[-> Hi]|He]; [|now apply Hic].
      apply in_app_or in Hi as [Hi|[<-|[]]]; [now apply Hic | exact Ho]. }
  split; [exact Ho|]. intros c Hc.
  destruct Ho as [Hi|[Hout|Hp]]; [exact Hi| |].
  - destruct Hout as (? & ? & ? & ? & ? & sp & _ & _ & _ & _ & _ & Hs & _).
    rewrite Hs in Hc. discriminate.
  - destruct Hp as (? & ? & ? & ? & ? & _ & _ & _ & _ & _ & _ & _ & ->).
    discriminate.
Qed.

Lemma interconnect_edges_have_origin_witness :
  edge_origin FAN_json FAN_module "FAN" (None, "in") ((None, "thru"), []).
Proof.
  apply (interconnect_edges_have_origin FAN_json FAN_module "FAN"
           ["FAN"; "a"; "b"] FAN_interconn (None, "in") ((None, "thru"), [])).
  - vm_compute. reflexivity.
  - unfold has_edge. simpl. tauto.
Defined.

Lemma keys_sort_sinks (ic : Interconn) :
  PyDict.keys (sort_sinks ic) = PyDict.keys ic.
Proof.
  unfold sort_sinks, PyDict.keys. rewrite map_map. apply map_ext.
  now intros [d l].
Qed.

Lemma py_sort_nil {A B : Type} (lt : B -> B -> bool) (key : A -> B) (l : list A) :
  py_sort lt key l = [] -> l = [].
Proof.
  intros H. apply length_zero_iff_nil.
  rewrite (Permutation_length (py_sort_perm lt key l)), H. reflexivity.
Qed.

Lemma append_well_formed (k : CellPin) (v : Sink) (ic : Interconn) :
  well_formed ic -> well_formed (append k v ic).
Proof.
  intros [Hnd Hne]. unfold append. split; [now apply PyDictFacts.NoDup_keys_set|].
  intros d l Hi. apply In_set in Hi as [[-> ->]|Hi]; [|now apply (Hne d)].
  now destruct (sinks_of k ic).
Qed.

Lemma get_interconnects_well_formed (yj : YosysJSON) (mdl : YosysModule)
    (mod_pname : string) (valid_names : list string) (ic : Interconn) :
  get_interconnects yj mdl mod_pname valid_names = Ok ic -> well_formed ic.
Proof.
  intros Hic. unfold get_interconnects in Hic.
  apply bind_Ok in Hic as (ic0 & Hcells & [= <-]).
  assert (H0 : well_formed (passthrough mdl ic0)).
  { apply (interconnect_edges_ind yj mdl mod_pname valid_names well_formed);
      [| |exact Hcells].
    - split; [constructor | intros d l []].
    - intros ic d s _. apply append_well_formed. }
  destruct H0 as [Hnd Hne]. split; [now rewrite keys_sort_sinks|].
  intros d l Hi. apply sort_sinks_In in Hi as (l0 & Hi & ->).
  intros Hnil. apply py_sort_nil in Hnil. now apply (Hne d l0).
Qed.

(** X8: the result of [get_interconnects] is a dictionary: its driver
    pins are distinct, no driver has an empty list of sinks, and the list
    found under a driver is the one stored for it. *)
Theorem interconnect_well_formed (yj : YosysJSON) (mdl : YosysModule)
    (mod_pname : string) (valid_names : list string) (ic : Interconn) :
  get_interconnects yj mdl mod_pname valid_names = Ok ic ->
  well_formed ic /\
  (forall driver sinks, In (driver, sinks) ic <-> PyDict.get driver ic = Some sinks).
Proof.
  intros Hic.
  pose proof (get_interconnects_well_formed yj mdl mod_pname valid_names ic Hic)
    as Hwf.
  split; [exact Hwf|]. intros driver sinks. split.
  - apply PyDictFacts.In_get, Hwf.
  - apply PyDictFacts.get_In.
Qed.

Lemma interconnect_well_formed_witness : well_formed FAN_interconn.
Proof.
  apply (interconnect_well_formed FAN_json FAN_module "FAN" ["FAN"; "a"; "b"]).
  vm_compute. reflexivity.
Defined.

Lemma fold_left_established {A S : Type} (P : S -> Prop) (f : S -> A -> S)
    (l : list A) (a : A) :
  In a l ->
  (forall s, P (f s a)) ->
  (forall s x, P s -> P (f s x)) ->
  forall s, P (fold_left f l s).
Proof.
  intros Hi Hest Hkeep. induction l as [|x l IH]; [destruct Hi|].
  intros s. simpl. destruct Hi as [->|Hi].
  - apply fold_left_invariant; [exact Hkeep | apply Hest].
  - now apply IH.
Qed.

Lemma passthrough_records (mdl : YosysModule) (ic : Interconn)
    (inp_port out_port : Port) (inp_bit out_bit : nat) (net : netid) :
  In inp_port (ports mdl) -> port_iodir inp_port = "input" ->
  In out_port (ports mdl) -> port_iodir out_port = "output" ->
  nth_error (port_bits inp_port) inp_bit = Some net ->
  nth_error (port_bits out_port) out_bit = Some net ->
  has_edge (None, bit_name inp_port inp_bit)
    ((None, bit_name out_port out_bit), PyDict.empty) (passthrough mdl ic).
Proof.
  intros Hip Hid Hop Hod Hib Hob. unfold passthrough.
  set (K := (None, bit_name inp_port inp_bit) : CellPin).
  set (E := ((None, bit_name out_port out_bit), PyDict.empty) : Sink).
  apply (fold_left_established (has_edge K E) _ _ out_port).
  - apply filter_In. split; [exact Hop | now apply String.eqb_eq].
  - intros s1.
    apply (fold_left_established (has_edge K E) _ _ (out_bit, net)).
    + now apply In_enumerate.
    + intros s2.
      apply (fold_left_established (has_edge K E) _ _ inp_port).
      * apply filter_In. split; [exact Hip | now apply String.eqb_eq].
      * intros s3.
        apply (fold_left_established (has_edge K E) _ _ (inp_bit, net)).
        -- now apply In_enumerate.
        -- intros s4. rewrite Z.eqb_refl. apply has_edge_append_new.
        -- intros s4 [ib inn] Hs. destruct (Z.eqb net inn);
             [now apply has_edge_append | exact Hs].
      * intros s3 q Hs. apply fold_left_invariant; [|exact Hs].
        intros s4 [ib inn] Hs4. destruct (Z.eqb net inn);
          [now apply has_edge_append | exact Hs4].
    + intros s2 [ob on] Hs. apply fold_left_invariant; [|exact Hs].
      intros s3 q Hs3. apply fold_left_invariant; [|exact Hs3].
      intros s4 [ib inn] Hs4. destruct (Z.eqb on inn);
        [now apply has_edge_append | exact Hs4].
  - intros s1 q Hs. apply fold_left_invariant; [|exact Hs].
    intros s2 [ob on] Hs2. apply fold_left_invariant; [|exact Hs2].
    intros s3 q' Hs3. apply fold_left_invariant; [|exact Hs3].
    intros s4 [ib inn] Hs4. destruct (Z.eqb on inn);
      [now apply has_edge_append | exact Hs4].
Qed.

Lemma output_conn_records (yj : YosysJSON) (mdl : YosysModule)
    (pb_name : option CellName) (pin sink_pin : PinName) (net : netid)
    (s1 s2 : Interconn) :
  In (name mdl, sink_pin) (net_sinks mdl net) ->
  output_conn yj mdl pb_name s1 (pin, net) = Ok s2 ->
  exists net_attr,
    net_and_pin_attrs yj mdl (pb_name, pin) (None, sink_pin) net = Ok net_attr /\
    forall s s', output_conn yj mdl pb_name s (pin, net) = Ok s' ->
      has_edge (pb_name, pin) ((None, sink_pin), net_attr) s'.
Proof.
  intros Hsink Hout. unfold output_conn in Hout.
  destruct (for_each_In _ _ (name mdl, sink_pin) Hsink s1 s2 Hout)
    as (t1 & t2 & Hstep).
  cbn beta iota in Hstep. rewrite String.eqb_refl in Hstep. cbn [negb] in Hstep.
  apply bind_Ok in Hstep as (na & Hna & _).
  exists na. split; [exact Hna|]. intros s s' Hs. unfold output_conn in Hs.
  apply (for_each_established _ _ (net_sinks mdl net) (name mdl, sink_pin) Hsink)
    with (s := s) (s' := s') (3 := Hs).
  - intros t t'. cbn beta iota. rewrite String.eqb_refl. cbn [negb].
    rewrite Hna. cbn [bind]. intros [= <-]. apply has_edge_append_new.
  - intros t [sc sp] t' Ht. cbn beta iota.
    destruct (negb (String.eqb sc (name mdl))); [now intros [= <-]|].
    intros H. apply bind_Ok in H as (na' & _ & [= <-]). now apply has_edge_append.
Qed.

(** X9: when [get_interconnects] returns, every output pin of a cell whose
    net has a sink on the container has its edge to that port in the
    result, and every input bit and output bit of the container on one net
    are joined by an edge without attributes. *)
Theorem boundary_edges_recorded (yj : YosysJSON) (mdl : YosysModule)
    (mod_pname : string) (valid_names : list string) (ic : Interconn) :
  get_interconnects yj mdl mod_pname valid_names = Ok ic ->
  (forall cname ctype pin net sink_pin,
      In (cname, ctype) (cells mdl) ->
      In (pin, net) (cell_conns mdl cname "output") ->
      In (name mdl, sink_pin) (net_sinks mdl net) ->
      exists pb_name net_attr,
        strip_name cname true = Ok pb_name /\
        net_and_pin_attrs yj mdl (owner mod_pname pb_name, pin) (None, sink_pin) net
        = Ok net_attr /\
        has_edge (owner mod_pname pb_name, pin) ((None, sink_pin), net_attr) ic) /\
  (forall inp_port out_port inp_bit out_bit net,
      In inp_port (ports mdl) -> port_iodir inp_port = "input" ->
      In out_port (ports mdl) -> port_iodir out_port = "output" ->
      nth_error (port_bits inp_port) inp_bit = Some net ->
      nth_error (port_bits out_port) out_bit = Some net ->
      has_edge (None, bit_name inp_port inp_bit)
        ((None, bit_name out_port out_bit), PyDict.empty) ic).
Proof.
  intros Hic. unfold get_interconnects in Hic.
  apply bind_Ok in Hic as (ic0 & Hcells & [= <-]). split.
  - intros cname ctype pin net sink_pin Hcell Hpin Hsink.
    destruct (for_each_In _ _ (cname, ctype) Hcell _ _ Hcells) as (s1 & s2 & Hstep).
    unfold cell_conn in Hstep.
    apply bind_Ok in Hstep as (pb & Hpb & Hstep).
    apply bind_Ok in Hstep as (u & _ & Hstep).
    apply bind_Ok in Hstep as (s3 & _ & Hout).
    destruct (for_each_In _ _ (pin, net) Hpin _ _ Hout) as (t1 & t2 & Hconn).
    destruct (output_conn_records yj mdl (owner mod_pname pb) pin sink_pin net
                t1 t2 Hsink Hconn) as (na & Hna & Hrec).
    exists pb, na. split; [exact Hpb|]. split; [exact Hna|].
    apply sort_sinks_keeps, passthrough_keeps.
    apply (for_each_established _ (cell_conn yj mdl mod_pname valid_names)
             (cells mdl) (cname, ctype) Hcell) with (s := PyDict.empty) (3 := Hcells).
    + intros s s' Hs. unfold cell_conn in Hs. rewrite Hpb in Hs. cbn [bind] in Hs.
      apply bind_Ok in Hs as (u' & _ & Hs).
      apply bind_Ok in Hs as (s_in & _ & Hs_out).
      apply (for_each_established _ (output_conn yj mdl (owner mod_pname pb))
               (cell_conns mdl cname "output") (pin, net) Hpin)
        with (s := s_in) (3 := Hs_out).
      * exact Hrec.
      * intros t x t' Ht Hx. now apply (output_conn_keeps _ _ _ _ _ _ _ _ Ht Hx).
    + intros s x s' Hs Hx. now apply (cell_conn_keeps _ _ _ _ _ _ _ _ _ Hs Hx).
  - intros inp_port out_port inp_bit out_bit net Hip Hid Hop Hod Hib Hob.
    apply sort_sinks_keeps.
    apply (passthrough_records mdl ic0 inp_port out_port inp_bit out_bit net);
      assumption.
Qed.

Lemma boundary_edges_recorded_witness :
  has_edge (None, bit_name ("in", 1, [4%Z], "input") 0)
    ((None, bit_name ("thru", 1, [4%Z], "output") 0), PyDict.empty) FAN_interconn.
Proof.
  apply (proj2 (boundary_edges_recorded FAN_json FAN_module "FAN"
                  ["FAN"; "a"; "b"] FAN_interconn eq_refl)
           ("in", 1, [4%Z], "input") ("thru", 1, [4%Z], "output") 0 0 4%Z);
    try reflexivity; simpl; tauto.
Defined.

(* ===================================================================== *)
(** ** The interconnect of a mode *)

Lemma set_fresh {K V : Type} `{EqB K} (k : K) (v : V) (d : PyDict.dict K V) :
  ~ In k (PyDict.keys d) -> PyDict.set k v d = d ++ [(k, v)].
Proof.
  induction d as [|[k0 v0] d IH]; simpl; [reflexivity|].
  intros Hn. destruct (eqb_spec k k0) as [->|Hne]; [tauto|].
  rewrite IH; [reflexivity | tauto].
Qed.

Lemma mode_interconnects_fold (mode_name : string) (ps : list Port) (acc : Interconn) :
  NoDup (map port_name ps) ->
  (forall p d, In p ps -> In d (PyDict.keys acc) -> snd d <> port_name p) ->
  mode_conns
    (fold_left
       (fun interconn p =>
          if String.eqb (port_iodir p) "input"
          then PyDict.set (None, port_name p)
                 [((Some mode_name, port_name p), PyDict.empty)] interconn
          else PyDict.set (Some mode_name, port_name p)
                 [((None, port_name p), PyDict.empty)] interconn)
       ps acc)
  = mode_conns acc ++ map (mode_port_conn mode_name) ps.
Proof.
  revert acc; induction ps as [|p ps IH]; intros acc Hnd Hfresh.
  - simpl. now rewrite app_nil_r.
  - inversion Hnd as [|? ? Hp Hnd']; subst. cbn [fold_left map].
    assert (Hk : forall o, ~ In (o, port_name p) (PyDict.keys acc)).
    { intros o Hi. apply (Hfresh p (o, port_name p)); [now left | exact Hi | reflexivity]. }
    assert (Hacc : forall (k : CellPin) v,
               snd k = port_name p -> ~ In k (PyDict.keys acc) ->
               forall p' d, In p' ps ->
                 In d (PyDict.keys (acc ++ [(k, v)])) -> snd d <> port_name p').
    { intros k v Hsk _ p' d Hp' Hd. unfold PyDict.keys in Hd.
      rewrite map_app in Hd. apply in_app_or in Hd as [Hd|[<-|[]]].
      - apply (Hfresh p' d); [now right | exact Hd].
      - simpl. rewrite Hsk. intros He. apply Hp. rewrite He.
        now apply in_map. }
    unfold mode_port_conn at 1.
    destruct (String.eqb (port_iodir p) "input").
    + rewrite (set_fresh _ _ _ (Hk None)).
      rewrite IH; [|exact Hnd'|now apply Hacc].
      unfold mode_conns. rewrite flat_map_app. simpl.
      now rewrite <- app_assoc.
    + rewrite (set_fresh _ _ _ (Hk (Some mode_name))).
      rewrite IH; [|exact Hnd'|now apply Hacc].
      unfold mode_conns. rewrite flat_map_app. simpl.
      now rewrite <- app_assoc.
Qed.

(** X10: for a module whose ports have distinct names, the interconnect of
    a mode is one connection per port, in the order of the ports: from the
    port of the container to the port of the mode for an input, from the
    port of the mode to the port of the container otherwise. *)
Theorem mode_interconnects_per_port (mdl : YosysModule) (mode_name : string) :
  NoDup (map port_name (ports mdl)) ->
  mode_conns (mode_interconnects mdl mode_name)
  = map (mode_port_conn mode_name) (ports mdl).
Proof.
  intros Hnd.
  assert (Hfresh : forall (p : Port) (d : CellPin),
             In p (ports mdl) ->
             In d (PyDict.keys (PyDict.empty : Interconn)) ->
             snd d <> port_name p) by (intros p d _ []).
  exact (mode_interconnects_fold mode_name (ports mdl) PyDict.empty Hnd Hfresh).
Qed.

Lemma mode_interconnects_per_port_witness :
  mode_conns (mode_interconnects MODAL_host "B")
  = [((None, "in"), (Some "B", "in"), []); ((Some "B", "out"), (None, "out"), [])].
Proof.
  apply (mode_interconnects_per_port MODAL_host "B").
  repeat constructor; simpl; intuition discriminate.
Defined.

(* ===================================================================== *)
(** ** The groups of ordinary children *)

Lemma get_sort_members (children : ChildrenDict) (prefix : string) :
  PyDict.get prefix (sort_members children)
  = option_map
      (fun '(ctype, l) =>
         (ctype, if (1 <? length l)%nat then py_sort String.ltb fst l else l))
      (PyDict.get prefix children).
Proof.
  unfold sort_members. induction children as [|[p [t l]] children IH]; simpl;
    [reflexivity|].
  destruct (String.eqb prefix p); [reflexivity | exact IH].
Qed.

Lemma sort_members_keeps (children : ChildrenDict) (prefix : string)
    (ctype : CellType) (member : string * attrs) :
  (exists members, PyDict.get prefix children = Some (ctype, members) /\
                   In member members) ->
  exists members, PyDict.get prefix (sort_members children) = Some (ctype, members) /\
                  In member members.
Proof.
  intros (members & Hg & Hi). rewrite get_sort_members, Hg. simpl.
  eexists. split; [reflexivity|].
  destruct (1 <? length members)%nat; [|exact Hi].
  apply (Permutation_in _ (py_sort_perm String.ltb fst members) Hi).
Qed.

(** What a turn of the loop of [get_children] does for an ordinary cell. *)
Lemma get_children_step_ordinary (yj : YosysJSON) (mdl : YosysModule)
    (routing children : ChildrenDict) (cname : CellName) (ctype : CellType)
    (st' : ChildrenDict * ChildrenDict) :
  CLASS (yj ctype) <> Some "routing" ->
  get_children_step yj mdl (routing, children) (cname, ctype) = Ok st' ->
  exists prefix short members,
    strip_name cname false = Ok prefix /\ strip_name cname true = Ok short /\
    (PyDict.has prefix children = true ->
     PyDict.get prefix children = Some (ctype, members)) /\
    (PyDict.has prefix children = false -> members = []) /\
    st' = (routing,
           PyDict.set prefix (ctype, members ++ [(short, cell_attrs mdl cname)])
             (if PyDict.has prefix children then children
              else PyDict.set prefix (ctype, []) children)).
Proof.
  intros Hclass. unfold get_children_step.
  rewrite (eqb_neq _ _ Hclass).
  destruct (strip_name cname false) as [prefix|] eqn:Ep; [|discriminate].
  cbn [bind].
  destruct (PyDict.has prefix children) eqn:Eh.
  - assert (Eh' := Eh). unfold PyDict.has in Eh'.
    destruct (PyDict.get prefix children) as [[existing members]|] eqn:Eg;
      [|discriminate].
    intros H. apply bind_Ok in H as (u & Ha & H). apply assert_Ok in Ha.
    apply String.eqb_eq in Ha. subst existing.
    apply bind_Ok in H as (short & Hs & H). cbv beta zeta iota in H.
    injection H as H. subst st'.
    exists prefix, short, members. rewrite Eh, Eg.
    repeat split; auto. discriminate.
  - rewrite PyDictFacts.get_set_same.
    intros H. apply bind_Ok in H as (u & _ & H).
    apply bind_Ok in H as (short & Hs & H). cbv beta zeta iota in H.
    injection H as H. subst st'.
    exists prefix, short, []. rewrite Eh. repeat split; auto. discriminate.
Qed.

Lemma get_children_step_children (yj : YosysJSON) (mdl : YosysModule)
    (st st' : ChildrenDict * ChildrenDict) (cell : CellName * CellType)
    (prefix : string) (ctype : CellType) (member : string * attrs) :
  get_children_step yj mdl st cell = Ok st' ->
  (exists members, PyDict.get prefix (snd st) = Some (ctype, members) /\
                   In member members) ->
  exists members, PyDict.get prefix (snd st') = Some (ctype, members) /\
                  In member members.
Proof.
  destruct st as [routing children], cell as [cname2 ctype2].
  intros Hstep (members & Hg & Hi). cbn [snd] in *.
  destruct (eqb_spec (CLASS (yj ctype2)) (Some "routing")) as [Hr|Hr].
  - unfold get_children_step in Hstep. rewrite Hr, eqb_refl in Hstep.
    apply bind_Ok in Hstep as (p2 & _ & Hstep).
    destruct (PyDict.get p2 _) as [[existing ms]|]; [|discriminate].
    apply bind_Ok in Hstep as (u & _ & Hstep).
    apply bind_Ok in Hstep as (short & _ & Hstep). cbv beta zeta iota in Hstep.
    injection Hstep as Hstep. subst st'. cbn [snd]. eauto.
  - apply (get_children_step_ordinary yj mdl routing children cname2 ctype2 st' Hr)
      in Hstep as (p2 & short & ms & _ & _ & Hhas & Hnew & ->). cbn [snd].
    destruct (String.eqb_spec prefix p2) as [->|Hn].
    + assert (Hh : PyDict.has p2 children = true)
        by (unfold PyDict.has; now rewrite Hg).
      rewrite Hh. rewrite (Hhas Hh) in Hg. injection Hg as <- <-.
      rewrite PyDictFacts.get_set_same. eexists. split; [reflexivity|].
      apply in_or_app. now left.
    + rewrite PyDictFacts.get_set_other by exact Hn.
      destruct (PyDict.has p2 children);
        [|rewrite PyDictFacts.get_set_other by exact Hn]; eauto.
Qed.

(** X11: when [get_children] returns, every cell whose module is not of
    class routing is a member, under its short name and with its
    attributes, of the group of ordinary children of its prefix, and the
    type of that group is the type of the cell; so two ordinary cells with
    one prefix have one type. *)
Theorem ordinary_cells_grouped (yj : YosysJSON) (mdl : YosysModule)
    (routing children : ChildrenDict) :
  get_children yj mdl = Ok (routing, children) ->
  (forall cname ctype,
      In (cname, ctype) (cells mdl) ->
      CLASS (yj ctype) <> Some "routing" ->
      exists prefix short members,
        strip_name cname false = Ok prefix /\
        strip_name cname true = Ok short /\
        PyDict.get prefix children = Some (ctype, members) /\
        In (short, cell_attrs mdl cname) members) /\
  (forall cname1 ctype1 cname2 ctype2 prefix,
      In (cname1, ctype1) (cells mdl) -> In (cname2, ctype2) (cells mdl) ->
      CLASS (yj ctype1) <> Some "routing" -> CLASS (yj ctype2) <> Some "routing" ->
      strip_name cname1 false = Ok prefix -> strip_name cname2 false = Ok prefix ->
      ctype1 = ctype2).
Proof.
  intros Hget.
  assert (Hcover : forall cname ctype,
             In (cname, ctype) (cells mdl) ->
             CLASS (yj ctype) <> Some "routing" ->
             exists prefix short members,
               strip_name cname false = Ok prefix /\
               strip_name cname true = Ok short /\
               PyDict.get prefix children = Some (ctype, members) /\
               In (short, cell_attrs mdl cname) members).
  { intros cname ctype Hcell Hclass. unfold get_children in Hget.
    apply bind_Ok in Hget as ([r c] & Hloop & [= <- <-]).
    destruct (for_each_In _ _ (cname, ctype) Hcell _ _ Hloop)
      as ([r1 c1] & st2 & Hstep).
    destruct (get_children_step_ordinary yj mdl r1 c1 cname ctype st2 Hclass Hstep)
      as (prefix & short & ms & Hp & Hs & _ & _ & _).
    assert (Hin : exists members,
               PyDict.get prefix (snd (r, c)) = Some (ctype, members) /\
               In (short, cell_attrs mdl cname) members).
    { apply (for_each_established
               (fun st : ChildrenDict * ChildrenDict =>
                  exists members,
                    PyDict.get prefix (snd st) = Some (ctype, members) /\
                    In (short, cell_attrs mdl cname) members)
               (get_children_step yj mdl) (cells mdl) (cname, ctype) Hcell)
        with (s := (PyDict.empty, PyDict.empty)) (3 := Hloop).
      - intros [ra ca] st' Hst.
        destruct (get_children_step_ordinary yj mdl ra ca cname ctype st' Hclass Hst)
          as (p' & s' & ms' & Hp' & Hs' & _ & _ & ->).
        rewrite Hp in Hp'. injection Hp' as <-.
        rewrite Hs in Hs'. injection Hs' as <-.
        cbn [snd]. rewrite PyDictFacts.get_set_same. eexists.
        split; [reflexivity|]. apply in_or_app. right. now left.
      - intros st x st' Hst Hx.
        now apply (get_children_step_children yj mdl st st' x prefix ctype _ Hx). }
    cbn [snd] in Hin. apply sort_members_keeps, sort_members_keeps in Hin.
    destruct Hin as (members & Hg & Hi). exists prefix, short, members. auto. }
  split; [exact Hcover|].
  intros cname1 ctype1 cname2 ctype2 prefix H1 H2 Hc1 Hc2 Hp1 Hp2.
  destruct (Hcover cname1 ctype1 H1 Hc1) as (p1 & _ & m1 & Hp1' & _ & Hg1 & _).
  destruct (Hcover cname2 ctype2 H2 Hc2) as (p2 & _ & m2 & Hp2' & _ & Hg2 & _).
  rewrite Hp1 in Hp1'. injection Hp1' as <-.
  rewrite Hp2 in Hp2'. injection Hp2' as <-.
  rewrite Hg1 in Hg2. now injection Hg2.
Qed.

Lemma ordinary_cells_grouped_witness :
  exists prefix short members,
    strip_name "$genblock$gap.sim.v:10$1[2].\a" false = Ok prefix /\
    strip_name "$genblock$gap.sim.v:10$1[2].\a" true = Ok short /\
    PyDict.get prefix [("a", ("LUT", [("a[0]", []); ("a[2]", [])]))]
    = Some ("LUT", members) /\
    In (short, cell_attrs GAP_module "$genblock$gap.sim.v:10$1[2].\a") members.
Proof.
  apply (proj1 (ordinary_cells_grouped GAP_json GAP_module [] _ eq_refl)).
  - simpl. tauto.
  - discriminate.
Defined.

(* ===================================================================== *)
(** ** Direct connections and the pins of a mux *)





Lemma collect_mux_outputs_stored (mux_cell : string) (ic : Interconn)
    (pin : PinName) (sinks : list Sink) (sink : Sink) :
  In (pin, sinks) (collect_mux_outputs mux_cell ic) -> In sink sinks ->
  stored_edge (Some mux_cell, pin) sink ic.
Proof.
  unfold collect_mux_outputs. revert pin sinks sink.
  apply (fold_left_invariant_In
           (fun mo : PyDict.dict PinName (list Sink) =>
              forall pin sinks sink,
                In (pin, sinks) mo -> In sink sinks ->
                stored_edge (Some mux_cell, pin) sink ic)).
  - intros mo [[dc dp] l] Hin Hmo pin sinks sink.
    destruct (eqb_spec dc (Some mux_cell)) as [->|Hn]; cbn [negb]; [|apply Hmo].
    unfold extend. intros Hi Hs.
    apply In_set in Hi as [[-> ->]|Hi]; [|now apply (Hmo pin sinks)].
    apply in_app_or in Hs as [Hs|Hs].
    + unfold sinks_of in Hs.
      destruct (PyDict.get dp mo) as [l0|] eqn:E; [|destruct Hs].
      apply PyDictFacts.get_In in E. now apply (Hmo dp l0).
    + exists l. auto.
  - intros pin sinks sink [].
Qed.

Lemma has_set {K V : Type} `{EqB K} (k k' : K) (v : V) (d : PyDict.dict K V) :
  PyDict.has k d = true -> PyDict.has k (PyDict.set k' v d) = true.
Proof.
  unfold PyDict.has. rewrite PyDictFacts.get_set.
  now destruct (eqb k k').
Qed.

(** What the loop over the sinks of one driver does to [mux_inputs]. *)
Lemma mux_inputs_inner (routing_cells : list string) (mux_cell : string)
    (sink_pin : PinName) (driver : CellPin) (sinks : list Sink)
    (P : PyDict.dict PinName CellPin -> Prop) :
  (forall mi pin path_attr,
      In ((Some mux_cell, pin), path_attr) sinks ->
      is_routing_cell routing_cells (fst driver) = false ->
      P mi -> P (PyDict.set pin driver mi)) ->
  forall mi mi',
    P mi ->
    for_each
      (fun mux_inputs '((sink_cell, mux_pin), path_attr) =>
         if negb (eqb sink_cell (Some mux_cell)) then Ok mux_inputs
         else
           _ <- assert (negb (is_routing_cell routing_cells (fst driver)))
                  RoutingChainError ;;
           _ <- assert (negb (PyDict.has sink_pin mux_inputs))
                  DuplicateMuxInputError ;;
           Ok (PyDict.set mux_pin driver mux_inputs))
      sinks mi = Ok mi' ->
    P mi'.
Proof.
  intros Hset mi mi' Hmi.
  apply for_each_invariant; [|exact Hmi].
  intros s [[sc mp] pa] s' Hin Hs.
  destruct (eqb_spec sc (Some mux_cell)) as [->|Hn]; cbn [negb].
  - intros H. apply bind_Ok in H as (u & Hr & H). apply assert_Ok in Hr.
    apply bind_Ok in H as (u' & _ & [= <-]).
    apply (Hset s mp pa Hin); [now apply negb_true_iff | exact Hs].
  - now intros [= <-].
Qed.

Lemma collect_mux_inputs_sound (routing_cells : list string) (mux_cell : string)
    (sink_pin : PinName) (ic : Interconn) (mi : PyDict.dict PinName CellPin) :
  collect_mux_inputs routing_cells mux_cell sink_pin ic = Ok mi ->
  forall pin drv,
    PyDict.get pin mi = Some drv ->
    is_routing_cell routing_cells (fst drv) = false /\
    exists path_attr, stored_edge drv ((Some mux_cell, pin), path_attr) ic.
Proof.
  unfold collect_mux_inputs.
  apply (for_each_invariant
           (fun mi : PyDict.dict PinName CellPin =>
              forall pin drv,
                PyDict.get pin mi = Some drv ->
                is_routing_cell routing_cells (fst drv) = false /\
                exists path_attr,
                  stored_edge drv ((Some mux_cell, pin), path_attr) ic));
    [|intros pin drv [=]].
  intros s [[dc dp] sinks] s' Hin Hs Hstep.
  refine (mux_inputs_inner routing_cells mux_cell sink_pin (dc, dp) sinks
            (fun mi : PyDict.dict PinName CellPin =>
               forall pin drv,
                 PyDict.get pin mi = Some drv ->
                 is_routing_cell routing_cells (fst drv) = false /\
                 exists path_attr,
                   stored_edge drv ((Some mux_cell, pin), path_attr) ic)
            _ s s' Hs Hstep).
  intros m0 pin0 pa Hsink Hr Hm0 pin drv. rewrite PyDictFacts.get_set.
  destruct (eqb_spec pin pin0) as [->|Hn]; [|apply Hm0].
  intros [= <-]. split; [exact Hr|]. exists pa, sinks. auto.
Qed.

Lemma collect_mux_inputs_complete (routing_cells : list string) (mux_cell : string)
    (sink_pin : PinName) (ic : Interconn) (mi : PyDict.dict PinName CellPin)
    (drv : CellPin) (pin : PinName) (path_attr : attrs) :
  collect_mux_inputs routing_cells mux_cell sink_pin ic = Ok mi ->
  stored_edge drv ((Some mux_cell, pin), path_attr) ic ->
  PyDict.has pin mi = true.
Proof.
  unfold collect_mux_inputs. intros Hmi (sinks & Hdl & Hs).
  assert (Hkeep : forall (d : CellPin) (l : list Sink) m0 m1,
             PyDict.has pin m0 = true ->
             for_each
               (fun mux_inputs '((sink_cell, mux_pin), path_attr) =>
                  if negb (eqb sink_cell (Some mux_cell)) then Ok mux_inputs
                  else
                    _ <- assert (negb (is_routing_cell routing_cells (fst d)))
                           RoutingChainError ;;
                    _ <- assert (negb (PyDict.has sink_pin mux_inputs))
                           DuplicateMuxInputError ;;
                    Ok (PyDict.set mux_pin d mux_inputs))
               l m0 = Ok m1 ->
             PyDict.has pin m1 = true).
  { intros d l m0 m1 H0 Hl.
    refine (mux_inputs_inner routing_cells mux_cell sink_pin d l
              (fun m => PyDict.has pin m = true) _ m0 m1 H0 Hl).
    intros m p pa _ _ Hm. now apply has_set. }
  apply (for_each_established (fun m => PyDict.has pin m = true) _ ic (drv, sinks) Hdl)
    with (s := PyDict.empty) (3 := Hmi).
  - intros s s'. destruct drv as [dc dp]. cbn beta iota. intros Hstep.
    apply (for_each_established (fun m => PyDict.has pin m = true) _ sinks
             ((Some mux_cell, pin), path_attr) Hs) with (s := s) (3 := Hstep).
    + intros t t'. cbn beta iota. rewrite eqb_refl. cbn [negb].
      intros H. apply bind_Ok in H as (u & _ & H).
      apply bind_Ok in H as (u' & _ & [= <-]).
      unfold PyDict.has. now rewrite PyDictFacts.get_set_same.
    + intros t [[sc mp] pa] t' Ht. cbn beta iota.
      match goal with
      | |- (if negb ?b then _ else _) = _ -> _ => destruct b
      end; cbn [negb]; [|now intros [= <-]].
      intros H. apply bind_Ok in H as (u & _ & H).
      apply bind_Ok in H as (u' & _ & [= <-]). now apply has_set.
  - intros s [[dc dp] l] s' Hhas Hstep. now apply (Hkeep (dc, dp) l s s').
Qed.

(** X13: a mux that is built carries the name of its routing cell; every
    input pin it lists is the sink of a stored edge from the listed driver,
    and no such driver is a routing cell; every stored edge into a pin of
    the cell has its pin listed; and its output pin has one stored edge,
    whose sink is not a routing cell. *)
Theorem mux_pins_come_from_edges (routing_cells : list string)
    (ic : Interconn) (mux_cell : string) (mg : MuxGroup) :
  make_mux routing_cells ic mux_cell = Ok mg ->
  mux_name mg = mux_cell /\
  (forall pin drv,
      PyDict.get pin (mux_inputs mg) = Some drv ->
      is_routing_cell routing_cells (fst drv) = false /\
      exists path_attr, stored_edge drv ((Some mux_cell, pin), path_attr) ic) /\
  (forall drv pin path_attr,
      stored_edge drv ((Some mux_cell, pin), path_attr) ic ->
      PyDict.has pin (mux_inputs mg) = true) /\
  (exists pin sink,
      mux_outputs mg = [(pin, [sink])] /\
      stored_edge (Some mux_cell, pin) sink ic /\
      is_routing_cell routing_cells (fst (fst sink)) = false).
Proof.
  unfold make_mux.
  destruct (collect_mux_outputs mux_cell ic)
    as [|[pin [|[[sc sp] pa] [|s2 sinks]]] [|o2 outputs]] eqn:Eo; try discriminate.
  intros H. apply bind_Ok in H as (u & Hr & H). apply assert_Ok in Hr.
  apply negb_true_iff in Hr.
  apply bind_Ok in H as (inputs & Hin & H).
  rewrite make_mux_conn_spec in H. injection H as <-. cbn [mux_name mux_inputs mux_outputs].
  split; [reflexivity|]. split; [|split].
  - now apply (collect_mux_inputs_sound routing_cells mux_cell sp ic inputs).
  - intros drv p a. now apply (collect_mux_inputs_complete routing_cells mux_cell sp ic).
  - exists pin, (sc, sp, pa). split; [reflexivity|]. split; [|exact Hr].
    apply (collect_mux_outputs_stored mux_cell ic pin [(sc, sp, pa)]);
      [rewrite Eo; now left | now left].
Qed.

Lemma mux_pins_come_from_edges_witness :
  exists pin sink,
    [("O", [((None, "out"), [])])] = [(pin, [sink])] /\
    stored_edge (Some "m", pin) sink MUX_interconn /\
    is_routing_cell ["m"] (fst (fst sink)) = false.
Proof.
  apply (mux_pins_come_from_edges ["m"] MUX_interconn "m"
           {| mux_name := "m";
              mux_inputs := [("I0", (None, "a")); ("I1", (None, "b"))];
              mux_outputs := [("O", [((None, "out"), [])])] |}).
  vm_compute. reflexivity.
Defined.

(* ===================================================================== *)
(** ** The prefixes of an array of children *)

Lemma string_append_assoc (a b c : string) :
  ((a ++ b) ++ c = a ++ (b ++ c))%string.
Proof. induction a as [|x a IH]; simpl; [reflexivity | now rewrite IH]. Qed.

(** The accumulation [acc + " " + p] over a list is [" ".join]. *)
Lemma join_fold (p : string) (ps : list string) :
  fold_left (fun acc q => (acc ++ " " ++ q)%string) ps p = String.concat " " (p :: ps).
Proof.
  revert p; induction ps as [|q ps IH]; intros p; [reflexivity|].
  cbn [fold_left]. rewrite IH.
  change (String.concat " " (p :: q :: ps))
    with (p ++ " " ++ String.concat " " (q :: ps))%string.
  destruct ps as [|r ps].
  - reflexivity.
  - change (String.concat " " ((p ++ " " ++ q)%string :: r :: ps))
      with ((p ++ " " ++ q) ++ " " ++ String.concat " " (r :: ps))%string.
    change (String.concat " " (q :: r :: ps))
      with (q ++ " " ++ String.concat " " (r :: ps))%string.
    rewrite string_append_assoc.
    change (" " ++ q)%string with (String " " q).
    change (" " ++ q ++ " " ++ String.concat " " (r :: ps))%string
      with (String " " (q ++ " " ++ String.concat " " (r :: ps)))%string.
    reflexivity.
Qed.

Lemma array_step_prefix (count i : nat) (v : string) (acc : attrs) :
  array_metadata_step count acc (i, [("FASM_PREFIX", v)])
  = if Nat.eqb (length (split_on ";" v)) count
    then update_metadata acc [("fasm_prefix", nth i (split_on ";" v) "")]
           (PyStr "fasm_prefix")
    else Err PrefixCountMismatchError.
Proof.
  unfold array_metadata_step.
  change (metadata_from_attributes [("FASM_PREFIX", v)] None)
    with ([("fasm_prefix", v)] : attrs).
  change (sanity_check_child_metadata [("fasm_prefix", v)]) with (Ok tt).
  cbn [bind]. change (PyDict.get "fasm_prefix" [("fasm_prefix", v)]) with (Some v).
  cbv beta zeta iota.
  change (PyDict.set "fasm_prefix" (nth i (split_on ";" v) "") [("fasm_prefix", v)])
    with ([("fasm_prefix", nth i (split_on ";" v) "")] : attrs).
  destruct (Nat.eqb (length (split_on ";" v)) count); reflexivity.
Qed.

Lemma array_loop_prefixes (count : nat) (v : string) (names : list string)
    (start : nat) (s : string) :
  Nat.eqb (length (split_on ";" v)) count = true ->
  for_each (array_metadata_step count)
    (combine (seq start (length names)) (map (fun _ => [("FASM_PREFIX", v)]) names))
    [("fasm_prefix", s)]
  = Ok [("fasm_prefix",
         fold_left (fun acc q => (acc ++ " " ++ q)%string)
           (map (fun i => nth i (split_on ";" v) "") (seq start (length names)))
           s)].
Proof.
  intros Hc. revert start s; induction names as [|nm names IH]; intros start s;
    [reflexivity|].
  cbn [length seq map combine for_each fold_left].
  rewrite array_step_prefix, Hc.
  change (update_metadata [("fasm_prefix", s)]
            [("fasm_prefix", nth start (split_on ";" v) "")] (PyStr "fasm_prefix"))
    with (Ok [("fasm_prefix", (s ++ " " ++ nth start (split_on ";" v) "")%string)]
          : result attrs).
  cbn [bind]. apply IH.
Qed.

Lemma map_nth_seq {A : Type} (l : list A) (d : A) :
  map (fun i => nth i l d) (seq 0 (length l)) = l.
Proof.
  apply (nth_ext _ _ d d); [now rewrite length_map, length_seq|].
  intros i Hi. rewrite length_map, length_seq in Hi.
  rewrite (nth_indep _ d (nth 0 l d)) by (now rewrite length_map, length_seq).
  rewrite (map_nth (fun i => nth i l d)). now rewrite seq_nth.
Qed.

(** X14: for an array of two children or more that all carry the same
    FASM_PREFIX attribute, [child_metadata] splits the attribute at the
    semicolons, fails with [PrefixCountMismatchError] unless there is one
    prefix per child, and otherwise merges into the metadata of the
    included file the prefixes joined by a space under fasm_prefix. *)
Theorem array_prefixes_distributed (incl_metadata : attrs) (v : string)
    (names : list string) :
  2 <= length names ->
  child_metadata incl_metadata (map (fun nm => (nm, [("FASM_PREFIX", v)])) names)
  = if Nat.eqb (length (split_on ";" v)) (length names)
    then update_metadata
           [("fasm_prefix", String.concat " " (split_on ";" v))]
           incl_metadata (PyTuple [])
    else Err PrefixCountMismatchError.
Proof.
  intros Hlen. destruct names as [|n0 [|n1 names]]; simpl in Hlen; try lia.
  unfold child_metadata. cbn [map snd]. rewrite map_map. cbn [snd].
  unfold enumerate. cbn [length]. rewrite !length_map.
  destruct (Nat.eqb (length (split_on ";" v)) (S (S (length names)))) eqn:Hc.
  - cbn [seq combine for_each].
    rewrite array_step_prefix, Hc.
    change (update_metadata PyDict.empty [("fasm_prefix", nth 0 (split_on ";" v) "")]
              (PyStr "fasm_prefix"))
      with (Ok [("fasm_prefix", nth 0 (split_on ";" v) "")] : result attrs).
    cbn [bind].
    pose proof (array_loop_prefixes (S (S (length names))) v (n1 :: names) 1
                  (nth 0 (split_on ";" v) "") Hc) as Hloop.
    cbn [length seq map combine for_each] in Hloop.
    match goal with
    | |- bind ?m _ = _ =>
        match type of Hloop with
        | _ = ?r => replace m with r by (symmetry; exact Hloop)
        end
    end.
    cbn [bind].
    rewrite Nat.eqb_refl. cbn [Nat.ltb Nat.leb negb andb assert bind].
    rewrite join_fold. f_equal. f_equal. f_equal.
    apply Nat.eqb_eq in Hc.
    rewrite <- (map_nth_seq (split_on ";" v) "") at 3. rewrite Hc. reflexivity.
  - cbn [seq combine for_each].
    rewrite array_step_prefix, Hc. reflexivity.
Qed.

Lemma array_prefixes_distributed_witness :
  child_metadata [] [("c[0]", [("FASM_PREFIX", "X0;X1;X2")]);
                     ("c[1]", [("FASM_PREFIX", "X0;X1;X2")]);
                     ("c[2]", [("FASM_PREFIX", "X0;X1;X2")])]
  = Ok [("fasm_prefix", "X0 X1 X2")].
Proof.
  apply (array_prefixes_distributed [] "X0;X1;X2" ["c[0]"; "c[1]"; "c[2]"]).
  simpl. lia.
Defined.

(* ===================================================================== *)
(** ** The routing groups of get_children *)

(** What a turn of the loop of [get_children] does for a routing cell: the
    test for a new prefix looks at [children], so the group of the prefix in
    [routing] is started again unless [children] has the prefix too. *)
Lemma get_children_step_routing (yj : YosysJSON) (mdl : YosysModule)
    (routing children : ChildrenDict) (cname : CellName) (ctype : CellType)
    (st' : ChildrenDict * ChildrenDict) :
  CLASS (yj ctype) = Some "routing" ->
  get_children_step yj mdl (routing, children) (cname, ctype) = Ok st' ->
  exists prefix short,
    strip_name cname false = Ok prefix /\ strip_name cname true = Ok short /\
    snd st' = children /\
    (PyDict.has prefix children = false ->
     fst st' = PyDict.set prefix (ctype, [(short, cell_attrs mdl cname)])
                 (PyDict.set prefix (ctype, []) routing)) /\
    (PyDict.has prefix children = true ->
     exists members,
       PyDict.get prefix routing = Some (ctype, members) /\
       fst st' = PyDict.set prefix
                   (ctype, members ++ [(short, cell_attrs mdl cname)]) routing).
Proof.
  intros Hclass. unfold get_children_step. rewrite Hclass, eqb_refl.
  destruct (strip_name cname false) as [prefix|] eqn:Ep; [|discriminate].
  cbn [bind].
  destruct (PyDict.has prefix children) eqn:Eh.
  - destruct (PyDict.get prefix routing) as [[existing members]|] eqn:Eg;
      [|discriminate].
    intros H. apply bind_Ok in H as (u & Ha & H). apply assert_Ok in Ha.
    apply String.eqb_eq in Ha. subst existing.
    apply bind_Ok in H as (short & Hs & H). cbv beta zeta iota in H.
    injection H as H. subst st'.
    exists prefix, short. rewrite Eh. cbn [fst snd].
    repeat split; auto; [discriminate|]. intros _. now exists members.
  - rewrite PyDictFacts.get_set_same.
    intros H. apply bind_Ok in H as (u & _ & H).
    apply bind_Ok in H as (short & Hs & H). cbv beta zeta iota in H.
    injection H as H. subst st'.
    exists prefix, short. rewrite Eh. cbn [fst snd].
    repeat split; auto. discriminate.
Qed.

(** The keys of [children] are never removed by a turn of the loop. *)
Lemma get_children_step_children_keys (yj : YosysJSON) (mdl : YosysModule)
    (st st' : ChildrenDict * ChildrenDict) (cell : CellName * CellType)
    (prefix : string) :
  get_children_step yj mdl st cell = Ok st' ->
  PyDict.get prefix (snd st') = None -> PyDict.get prefix (snd st) = None.
Proof.
  destruct st as [routing children], cell as [cname ctype]. intros Hstep.
  destruct (eqb_spec (CLASS (yj ctype)) (Some "routing")) as [Hr|Hr].
  - apply (get_children_step_routing yj mdl routing children cname ctype st' Hr)
      in Hstep as (p & s & _ & _ & -> & _). auto.
  - apply (get_children_step_ordinary yj mdl routing children cname ctype st' Hr)
      in Hstep as (p & s & ms & _ & _ & _ & _ & ->). cbn [snd].
    rewrite PyDictFacts.get_set.
    destruct (eqb prefix p) eqn:E; [discriminate|].
    destruct (PyDict.has p children); [auto|].
    rewrite PyDictFacts.get_set, E. auto.
Qed.

(** X15: when [get_children] returns, a routing group whose prefix names no
    group of ordinary children holds one cell only, whatever the number of
    routing cells with that prefix: the test for a new prefix is made on
    [children], so each routing cell starts the group of its prefix again. *)
Theorem routing_group_holds_one_cell (yj : YosysJSON) (mdl : YosysModule)
    (routing children : ChildrenDict) (prefix : string) (ctype : CellType)
    (members : list (string * attrs)) :
  get_children yj mdl = Ok (routing, children) ->
  PyDict.get prefix children = None ->
  PyDict.get prefix routing = Some (ctype, members) ->
  exists cname short,
    In (cname, ctype) (cells mdl) /\
    CLASS (yj ctype) = Some "routing" /\
    strip_name cname false = Ok prefix /\
    strip_name cname true = Ok short /\
    members = [(short, cell_attrs mdl cname)].
Proof.
  intros Hget Hc Hr. unfold get_children in Hget.
  apply bind_Ok in Hget as ([r c] & Hloop & [= <- <-]).
  rewrite !get_sort_members in Hc.
  assert (Hc' : PyDict.get prefix c = None)
    by (destruct (PyDict.get prefix c) as [[t l]|]; [discriminate | reflexivity]).
  clear Hc.
  revert prefix ctype members Hc' Hr.
  change (forall prefix ctype members,
             PyDict.get prefix (snd (r, c)) = None ->
             PyDict.get prefix (fst (r, c)) = Some (ctype, members) ->
             exists cname short,
               In (cname, ctype) (cells mdl) /\
               CLASS (yj ctype) = Some "routing" /\
               strip_name cname false = Ok prefix /\
               strip_name cname true = Ok short /\
               members = [(short, cell_attrs mdl cname)]).
  apply (for_each_invariant
           (fun st : ChildrenDict * ChildrenDict =>
              forall prefix ctype members,
                PyDict.get prefix (snd st) = None ->
                PyDict.get prefix (fst st) = Some (ctype, members) ->
                exists cname short,
                  In (cname, ctype) (cells mdl) /\
                  CLASS (yj ctype) = Some "routing" /\
                  strip_name cname false = Ok prefix /\
                  strip_name cname true = Ok short /\
                  members = [(short, cell_attrs mdl cname)])
           (get_children_step yj mdl) (cells mdl))
    with (s := (PyDict.empty, PyDict.empty) : ChildrenDict * ChildrenDict);
    [| intros ? ? ? _ H; discriminate H | exact Hloop].
  intros [ra ca] [cname ctype] st' Hcell IH Hstep prefix ctype0 members Hc Hr.
  pose proof (get_children_step_children_keys yj mdl (ra, ca) st' (cname, ctype)
                prefix Hstep Hc) as Hca. cbn [snd] in Hca.
  destruct (eqb_spec (CLASS (yj ctype)) (Some "routing")) as [Hcls|Hcls].
  - destruct (get_children_step_routing yj mdl ra ca cname ctype st' Hcls Hstep)
      as (p & s & Hp & Hs & Hsnd & Hnew & Hold).
    destruct (String.eqb_spec prefix p) as [->|Hn].
    + assert (Hh : PyDict.has p ca = false) by (unfold PyDict.has; now rewrite Hca).
      rewrite (Hnew Hh), PyDictFacts.get_set_same in Hr. injection Hr as <- <-.
      exists cname, s. auto.
    + destruct (PyDict.has p ca) eqn:Hh.
      * destruct (Hold eq_refl) as (ms & _ & Hfst).
        rewrite Hfst, PyDictFacts.get_set_other in Hr by exact Hn.
        apply (IH prefix ctype0 members Hca Hr).
      * rewrite (Hnew eq_refl), !PyDictFacts.get_set_other in Hr by exact Hn.
        apply (IH prefix ctype0 members Hca Hr).
  - apply (get_children_step_ordinary yj mdl ra ca cname ctype st' Hcls)
      in Hstep as (p & s & ms & _ & _ & _ & _ & ->). cbn [fst] in Hr.
    apply (IH prefix ctype0 members Hca Hr).
Qed.

Lemma routing_group_holds_one_cell_witness :
  exists cname short,
    In (cname, "MUX") (cells TWIN_module) /\
    CLASS (TWIN_json "MUX") = Some "routing" /\
    strip_name cname false = Ok "m" /\
    strip_name cname true = Ok short /\
    [("m[0]", [])] = [(short, cell_attrs TWIN_module cname)].
Proof.
  apply (routing_group_holds_one_cell TWIN_json TWIN_module
           [("m", ("MUX", [("m[0]", [])]))]
           [("l", ("LUT", [("l", [])]))] "m" "MUX" [("m[0]", [])]);
    reflexivity.
Defined.

(* ===================================================================== *)
(** ** The kind of pb_type built by make_pb_type *)

Lemma split_on_not_nil (sep : ascii) (s : string) : split_on sep s <> [].
Proof.
  destruct s as [|c s]; simpl; [discriminate|].
  destruct (Ascii.eqb c sep); [discriminate|].
  destruct (split_on sep s); discriminate.
Qed.

Lemma set_not_nil {K V : Type} `{EqB K} (k : K) (v : V) (d : PyDict.dict K V) :
  PyDict.set k v d <> [].
Proof.
  destruct d as [|[k' v'] d]; simpl; [discriminate|].
  destruct (eqb k k'); discriminate.
Qed.

Lemma sort_members_not_nil (children : ChildrenDict) :
  children <> [] -> sort_members children <> [].
Proof. destruct children as [|[p [t l]] children]; [tauto | discriminate]. Qed.

(** A module with a cell has a group of children, routing or ordinary. *)
Lemma get_children_not_empty (yj : YosysJSON) (mdl : YosysModule)
    (routing children : ChildrenDict) :
  cells mdl <> [] ->
  get_children yj mdl = Ok (routing, children) ->
  routing <> [] \/ children <> [].
Proof.
  intros Hcells Hget. unfold get_children in Hget.
  apply bind_Ok in Hget as ([r c] & Hloop & [= <- <-]).
  destruct (cells mdl) as [|[cname ctype] rest] eqn:Ecells; [congruence|].
  assert (Hne : fst (r, c) <> [] \/ snd (r, c) <> []).
  { apply (for_each_established
             (fun st : ChildrenDict * ChildrenDict => fst st <> [] \/ snd st <> [])
             (get_children_step yj mdl) ((cname, ctype) :: rest) (cname, ctype)
             (or_introl eq_refl))
      with (s := (PyDict.empty, PyDict.empty) : ChildrenDict * ChildrenDict);
      [| | exact Hloop].
    - intros [ra ca] st' Hstep.
      destruct (eqb_spec (CLASS (yj ctype)) (Some "routing")) as [Hcls|Hcls].
      + destruct (get_children_step_routing yj mdl ra ca cname ctype st' Hcls Hstep)
          as (p & s & _ & _ & _ & Hnew & Hold). left.
        destruct (PyDict.has p ca).
        * destruct (Hold eq_refl) as (ms & _ & ->). apply set_not_nil.
        * rewrite (Hnew eq_refl). apply set_not_nil.
      + apply (get_children_step_ordinary yj mdl ra ca cname ctype st' Hcls)
          in Hstep as (p & s & ms & _ & _ & _ & _ & ->). right. apply set_not_nil.
    - intros [ra ca] [cn ct] st' Hst Hstep.
      destruct (eqb_spec (CLASS (yj ct)) (Some "routing")) as [Hcls|Hcls].
      + destruct (get_children_step_routing yj mdl ra ca cn ct st' Hcls Hstep)
          as (p & s & _ & _ & Hsnd & Hnew & Hold). left.
        destruct (PyDict.has p ca).
        * destruct (Hold eq_refl) as (ms & _ & ->). apply set_not_nil.
        * rewrite (Hnew eq_refl). apply set_not_nil.
      + apply (get_children_step_ordinary yj mdl ra ca cn ct st' Hcls)
          in Hstep as (p & s & ms & _ & _ & _ & _ & ->). right. apply set_not_nil. }
  cbn [fst snd] in Hne. destruct Hne as [Hr|Hc]; [now left|right].
  now apply sort_members_not_nil, sort_members_not_nil.
Qed.

Lemma make_mode_name (elaborate_with_mode : string -> string -> YosysJSON)
    (self : YosysJSON -> YosysModule -> string -> result pb_type)
    (mdl : YosysModule) (mode : string) (m : Mode) :
  make_mode elaborate_with_mode self mdl mode = Ok m -> fst (fst m) = strip mode.
Proof.
  unfold make_mode. cbv zeta.
  destruct (Nat.eqb _ 0).
  - intros H. apply bind_Ok in H as (inter & _ & H).
    destruct (negb _); [discriminate|]. now injection H as <-.
  - intros H. apply bind_Ok in H as (child & _ & H). now injection H as <-.
Qed.

Lemma length_zero_nil {A : Type} (l : list A) :
  Nat.eqb (length l) 0 = true <-> l = [].
Proof. destruct l; simpl; split; intros; congruence. Qed.

(** X16: the pb_type that [make_pb_type] returns carries the name of the
    module, which is in upper case, and its kind follows from the module: a
    module with the attribute MODES gives one mode for each part of the
    attribute between semicolons, in that order and stripped of blanks (so at
    least one mode, also for an empty attribute); without MODES, a black box
    or a module without cells gives a leaf, and any other module, which has
    a group of children, a container. *)
Theorem pb_type_kind (elaborate_with_mode : string -> string -> YosysJSON)
    (incl_metadata : CellType -> attrs) (yj : YosysJSON) (mdl : YosysModule)
    (pb : pb_type) :
  make_pb_type elaborate_with_mode incl_metadata yj mdl = Ok pb ->
  name mdl = upper (name mdl) /\
  match pb with
  | PbModes nm _ built _ =>
      nm = name mdl /\ built <> [] /\
      exists s, attr mdl "MODES" = Some s /\
                map (fun m : Mode => fst (fst m)) built = map strip (split_on ";" s)
  | PbLeaf nm _ _ =>
      nm = name mdl /\ attr mdl "MODES" = None /\
      (is_mod_blackbox mdl = true \/ cells mdl = [])
  | PbContainer nm _ body _ =>
      nm = name mdl /\ attr mdl "MODES" = None /\
      is_mod_blackbox mdl = false /\ cells mdl <> []
  end.
Proof.
  unfold make_pb_type, make_pb_type_with. cbv zeta. intros H.
  apply bind_Ok in H as (u & Hname & H). apply assert_Ok in Hname.
  apply String.eqb_eq in Hname. split; [exact Hname|].
  apply bind_Ok in H as (pb_attrs & _ & H).
  destruct (attr mdl "MODES") as [s|] eqn:Em; cbn [option_map] in H.
  - pose proof (split_on_not_nil ";" s) as Hne.
    destruct (split_on ";" s) as [|m0 ms] eqn:Es; [congruence|].
    apply bind_Ok in H as (built & Hb & H).
    apply bind_Ok in H as (u' & _ & [= <-]).
    apply map_result_Forall2 in Hb.
    split; [reflexivity|]. split.
    + inversion Hb; discriminate.
    + exists s. split; [reflexivity|]. rewrite Es. clear Es Hne.
      induction Hb as [|mode m modes built' Hm _ IH]; [reflexivity|].
      cbn [map]. f_equal; [|exact IH].
      now apply make_mode_name in Hm.
  - apply bind_Ok in H as (pb' & Hbody & H).
    apply bind_Ok in H as (u' & _ & [= <-]).
    unfold make_body in Hbody.
    destruct (is_mod_blackbox mdl) eqn:Ebb; cbn [orb negb] in Hbody.
    + cbn [bind PyDict.empty length Nat.eqb negb orb] in Hbody.
      injection Hbody as <-. auto.
    + destruct (Nat.eqb (length (cells mdl)) 0) eqn:Ec; cbn [negb] in Hbody.
      * cbn [bind PyDict.empty length Nat.eqb negb orb] in Hbody.
        injection Hbody as <-. apply length_zero_nil in Ec. auto.
      * assert (Hcells : cells mdl <> []).
        { intros E. apply length_zero_nil in E. congruence. }
        apply bind_Ok in Hbody as ([routing children] & Hget & Hbody).
        destruct (get_children_not_empty yj mdl routing children Hcells Hget)
          as [Hr|Hr].
        -- destruct routing; [congruence|]. cbn [length Nat.eqb negb orb] in Hbody.
           apply bind_Ok in Hbody as (body & _ & [= <-]). auto.
        -- destruct children; [congruence|].
           rewrite Bool.orb_comm in Hbody. cbn [length Nat.eqb negb orb] in Hbody.
           apply bind_Ok in Hbody as (body & _ & [= <-]). auto.
Qed.

Lemma pb_type_kind_witness :
  let built : list Mode :=
    [("A", None, [((None, "in"), (None, "out"), [])]);
     ("B",
      Some (PbContainer "B" []
              {| children_metadata := [("a", []); ("b", [])];
                 directs :=
                   [((None, "in"), (Some "a", "I"), []);
                    ((Some "a", "O"), (Some "b", "D"), []);
                    ((Some "b", "Q"), (None, "out"), [])];
                 muxes := [] |}
              []),
      [((None, "in"), (Some "B", "in"), []);
       ((Some "B", "out"), (None, "out"), [])])] in
  name MODAL_host = upper (name MODAL_host) /\
  "MODAL"%string = name MODAL_host /\ built <> [] /\
  exists s, attr MODAL_host "MODES" = Some s /\
            map (fun m : Mode => fst (fst m)) built = map strip (split_on ";" s).
Proof.
  intros built.
  apply (pb_type_kind (MODAL_elaborate []) (fun _ => [])
           (MODAL_elaborate [] "MODAL" "") MODAL_host
           (PbModes "MODAL" [] built [])).
  vm_compute. reflexivity.
Defined.

(* ===================================================================== *)
(** ** The name of the top module *)

Lemma upper_ascii_idem (c : ascii) : upper_ascii (upper_ascii c) = upper_ascii c.
Proof. destruct c as [[] [] [] [] [] [] [] []]; reflexivity. Qed.

Lemma upper_idem (s : string) : upper (upper s) = upper s.
Proof.
  induction s as [|c s IH]; simpl; [reflexivity|].
  now rewrite upper_ascii_idem, IH.
Qed.

(** The greedy loop stops where the class stops. *)
Lemma greedy_stop {A : Type} (cls : ascii -> bool)
    (k : list ascii -> list ascii -> option A) (w rest acc : list ascii) (r : A) :
  forallb cls w = true ->
  k rest (acc ++ w) = Some r ->
  match rest with [] => True | x :: _ => cls x = false end ->
  greedy cls k (w ++ rest) acc = Some r.
Proof.
  revert acc; induction w as [|x w IH]; intros acc Hw Hk Hrest.
  - rewrite app_nil_r in Hk. simpl.
    destruct rest as [|y rest]; simpl; [exact Hk|]. now rewrite Hrest.
  - simpl in Hw. apply andb_prop in Hw as [Hx Hw]. simpl. rewrite Hx.
    rewrite (IH (acc ++ [x]) Hw); [reflexivity | | exact Hrest].
    now rewrite <- app_assoc.
Qed.

Lemma re_match_literal_app (lit : string) (r : list atom) (s : list ascii)
    (caps : captures) :
  re_match (literal lit ++ r) (list_ascii_of_string lit ++ s) caps
  = re_match r s caps.
Proof.
  unfold literal. induction (list_ascii_of_string lit) as [|c l IH]; simpl;
    [reflexivity|].
  now rewrite Ascii.eqb_refl.
Qed.

(** X17: the top module of [vlog_to_pbtype].  With the argument [top] the
    file name is not looked at and the name is [top] in upper case.  Without
    it a name is found exactly when the file name starts with a run of
    letters, digits and underscores followed by [.sim.v], whatever follows
    that; the name is then the run in upper case.  In both cases the name is
    its own upper case, as [make_pb_type] requires of a module name. *)
Theorem top_name_from_file (top : option string) (iname t : string) :
  top_name top iname = Some t <->
  match top with
  | Some top => t = upper top
  | None =>
      exists w rest,
        iname = (w ++ ".sim.v" ++ rest)%string /\ w <> ""%string /\
        forallb is_word_char (list_ascii_of_string w) = true /\
        t = upper w
  end.
Proof.
  unfold top_name. destruct top as [top|].
  - split; [now intros [= <-] | now intros ->].
  - split.
    + destruct (re_match SIM_V_REGEX (list_ascii_of_string iname) []) as [caps|] eqn:E;
        [|discriminate].
      intros [= <-]. unfold SIM_V_REGEX in E.
      apply re_match_Plus in E as (w & s' & Hs & Hw & Hall & E).
      rewrite <- (app_nil_r (literal ".sim.v")) in E.
      apply re_match_literal in E as (s'' & Hs' & E).
      cbn [re_match] in E. injection E as <-.
      exists (string_of_list_ascii w), (string_of_list_ascii s'').
      repeat split.
      * rewrite <- (string_of_list_ascii_of_string iname), Hs, Hs'.
        rewrite !string_of_list_ascii_app.
        now rewrite string_of_list_ascii_of_string.
      * intros Hnil. apply Hw.
        rewrite <- (list_ascii_of_string_of_list_ascii w), Hnil. reflexivity.
      * now rewrite list_ascii_of_string_of_list_ascii.
      * cbn [record group Nat.eqb]. apply upper_idem.
    + intros (w & rest & -> & Hw & Hall & ->).
      rewrite !list_ascii_of_string_app. unfold SIM_V_REGEX.
      destruct (list_ascii_of_string w) as [|x l] eqn:El.
      { exfalso. apply Hw. rewrite <- (string_of_list_ascii_of_string w), El.
        reflexivity. }
      cbn [forallb] in Hall. apply andb_prop in Hall as [Hx Hl].
      cbn [app re_match]. rewrite Hx.
      rewrite (greedy_stop is_word_char _ l _ [x]
                 (record (Some 1) (string_of_list_ascii ([x] ++ l)) [])).
      * cbn [record group Nat.eqb app]. rewrite upper_idem.
        rewrite <- El, string_of_list_ascii_of_string. reflexivity.
      * exact Hl.
      * rewrite <- (app_nil_r (literal ".sim.v")), re_match_literal_app.
        reflexivity.
      * reflexivity.
Qed.

(* ===================================================================== *)
(** ** normalize_pb_name *)

Lemma match_index_sound (s d : list ascii) :
  match_index s = Some d ->
  exists rest, s = "["%char :: d ++ "]"%char :: rest /\ d <> [] /\
               forallb is_digit d = true /\ at_end rest = false.
Proof.
  destruct s as [|x [|c s']]; try discriminate. unfold match_index.
  destruct (Ascii.eqb_spec x "[") as [->|]; [|discriminate].
  destruct (is_digit c) eqn:Ec; [|discriminate]. cbn [andb].
  intros H. apply greedy_sound in H as (w & rest & -> & Hw & Hk).
  destruct rest as [|y rest']; [discriminate|].
  destruct (Ascii.eqb_spec y "]") as [->|]; [|discriminate].
  destruct (at_end rest') eqn:Ee; [discriminate|]. cbn [negb andb] in Hk.
  injection Hk as <-. exists rest'. cbn [app].
  repeat split; [discriminate | | exact Ee].
  cbn [forallb]. now rewrite Ec, Hw.
Qed.

Lemma search_index_cons (c : ascii) (s : list ascii) :
  search_index (c :: s)
  = match match_index (c :: s) with
    | Some d => Some d
    | None => search_index s
    end.
Proof. reflexivity. Qed.

Lemma search_index_sound (s d : list ascii) :
  search_index s = Some d ->
  exists a rest, s = a ++ "["%char :: d ++ "]"%char :: rest /\ d <> [] /\
                 forallb is_digit d = true /\ at_end rest = false.
Proof.
  induction s as [|c s IH]; [discriminate|]. rewrite search_index_cons.
  destruct (match_index (c :: s)) as [d'|] eqn:E.
  - intros [= ->]. apply match_index_sound in E as (rest & Hs & H).
    exists [], rest. now rewrite Hs.
  - intros H. apply IH in H as (a & rest & -> & H). now exists (c :: a), rest.
Qed.

Lemma match_index_head (c : ascii) (s : list ascii) :
  c <> "["%char -> match_index (c :: s) = None.
Proof.
  intros Hc. destruct s as [|x s]; [reflexivity|]. unfold match_index.
  destruct (Ascii.eqb_spec c "["); [contradiction | reflexivity].
Qed.

Lemma search_index_free (s : list ascii) :
  free_of "[" s -> search_index s = None.
Proof.
  unfold free_of. induction s as [|c s IH]; intros Hf; [reflexivity|].
  rewrite search_index_cons, match_index_head.
  - apply IH. intros Hi. apply Hf. now right.
  - intros ->. apply Hf. now left.
Qed.

(** Two runs of digits that end at a closing bracket are one run. *)
Lemma digits_bracket_unique (w d r1 r2 : list ascii) :
  forallb is_digit w = true -> forallb is_digit d = true ->
  w ++ "]"%char :: r1 = d ++ "]"%char :: r2 -> w = d /\ r1 = r2.
Proof.
  revert d; induction w as [|x w IH]; intros [|y d] Hw Hd; cbn [app forallb] in *.
  - now intros [= <-].
  - intros [= <- _]. discriminate Hd.
  - intros [= -> _]. discriminate Hw.
  - apply andb_prop in Hw as [_ Hw]. apply andb_prop in Hd as [_ Hd].
    intros [= <- H]. destruct (IH d Hw Hd H) as [-> ->]. auto.
Qed.

Lemma match_index_at (d rest : list ascii) :
  d <> [] -> forallb is_digit d = true ->
  match_index ("["%char :: d ++ "]"%char :: rest)
  = if at_end rest then None else Some d.
Proof.
  intros Hd Hall. destruct d as [|x d]; [congruence|].
  cbn [forallb] in Hall. apply andb_prop in Hall as [Hx Hall].
  cbn [app]. unfold match_index. rewrite Hx. cbn [Ascii.eqb Bool.eqb andb].
  destruct (at_end rest) eqn:Ee.
  - match goal with |- ?g = None => destruct g as [r|] eqn:E end; [|reflexivity].
    exfalso. apply greedy_sound in E as (w & rest0 & Hs & Hw & Hk).
    destruct rest0 as [|y rest0']; [discriminate|].
    destruct (Ascii.eqb_spec y "]") as [->|]; [|discriminate].
    destruct (at_end rest0') eqn:Ee0; [discriminate|].
    symmetry in Hs. apply digits_bracket_unique in Hs as [_ ->]; auto. congruence.
  - apply greedy_stop; [exact Hall | | reflexivity].
    cbn [Ascii.eqb Bool.eqb andb]. now rewrite Ee.
Qed.

Lemma digit_not_bracket (d : list ascii) :
  forallb is_digit d = true -> free_of "[" d.
Proof.
  unfold free_of. intros Hall Hi.
  apply (proj1 (forallb_forall _ _) Hall) in Hi. discriminate Hi.
Qed.

Lemma free_of_app (c : ascii) (a b : list ascii) :
  free_of c (a ++ b) <-> free_of c a /\ free_of c b.
Proof. unfold free_of. rewrite in_app_iff. tauto. Qed.

Lemma search_index_at (a d rest : list ascii) :
  free_of "[" a -> free_of "[" rest -> d <> [] -> forallb is_digit d = true ->
  search_index (a ++ "["%char :: d ++ "]"%char :: rest)
  = if at_end rest then None else Some d.
Proof.
  intros Ha Hrest Hd Hall. induction a as [|c a IH].
  - cbn [app]. rewrite search_index_cons, match_index_at by assumption.
    destruct (at_end rest); [|reflexivity].
    apply search_index_free. apply free_of_app. split.
    + now apply digit_not_bracket.
    + unfold free_of in *. intros [E|Hi]; [discriminate E | auto].
  - cbn [app]. rewrite search_index_cons, match_index_head.
    + apply IH. intros Hi. apply Ha. now right.
    + intros ->. apply Ha. now left.
Qed.

Lemma In_remove_all (old : list ascii) (c : ascii) (s : list ascii) (skip : nat) :
  In c (remove_all old skip s) -> In c s.
Proof.
  revert skip; induction s as [|x s IH]; intros skip; [tauto|].
  cbn [remove_all]. destruct skip as [|k].
  - destruct (strip_prefix old (x :: s)).
    + intros Hi. right. eauto.
    + intros [->|Hi]; [now left | right; eauto].
  - intros Hi. right. eauto.
Qed.

Lemma remove_all_skip (old w s : list ascii) :
  remove_all old (length w) (w ++ s) = remove_all old 0 s.
Proof. induction w as [|c w IH]; [reflexivity | exact IH]. Qed.

Lemma remove_all_free (h : ascii) (old s : list ascii) :
  free_of h s -> remove_all (h :: old) 0 s = s.
Proof.
  unfold free_of. induction s as [|c s IH]; intros Hf; [reflexivity|].
  cbn [remove_all strip_prefix].
  destruct (Ascii.eqb_spec h c) as [->|Hn]; [exfalso; apply Hf; now left|].
  rewrite IH; [reflexivity | intros Hi; apply Hf; now right].
Qed.

Lemma remove_all_at (h : ascii) (old a s : list ascii) :
  free_of h a ->
  remove_all (h :: old) 0 (a ++ (h :: old) ++ s) = a ++ remove_all (h :: old) 0 s.
Proof.
  unfold free_of. induction a as [|c a IH]; intros Hf.
  - change ([] ++ (h :: old) ++ s) with (h :: old ++ s).
    cbn [remove_all]. pose proof (strip_prefix_app (h :: old) s) as Hsp.
    cbn [app] in Hsp. rewrite Hsp.
    cbn [length Nat.sub]. rewrite Nat.sub_0_r. apply remove_all_skip.
  - cbn [app remove_all strip_prefix].
    destruct (Ascii.eqb_spec h c) as [->|Hn]; [exfalso; apply Hf; now left|].
    rewrite <- IH; [reflexivity | intros Hi; apply Hf; now right].
Qed.

Lemma dot_to_underscore_not_dot (c : ascii) : dot_to_underscore c <> "."%char.
Proof.
  unfold dot_to_underscore. destruct (Ascii.eqb_spec c "."); [discriminate | assumption].
Qed.

Lemma dots_free (s : list ascii) : free_of "." (map dot_to_underscore s).
Proof.
  unfold free_of. intros Hi. apply in_map_iff in Hi as (c & Hc & _).
  now apply dot_to_underscore_not_dot in Hc.
Qed.

Lemma dots_keep_free (s : list ascii) :
  free_of "[" s -> free_of "[" (map dot_to_underscore s).
Proof.
  unfold free_of. intros Hf Hi. apply in_map_iff in Hi as (c & Hc & Hi).
  unfold dot_to_underscore in Hc.
  destruct (Ascii.eqb c "."); [discriminate|]. subst c. auto.
Qed.

Lemma dots_digits (d : list ascii) :
  forallb is_digit d = true -> map dot_to_underscore d = d.
Proof.
  induction d as [|c d IH]; [reflexivity|]. cbn [forallb map].
  intros H. apply andb_prop in H as [Hc Hd]. rewrite (IH Hd). f_equal.
  unfold dot_to_underscore. destruct (Ascii.eqb_spec c ".") as [->|]; [discriminate|].
  reflexivity.
Qed.

Lemma normalize_chars_free (s : list ascii) : free_of "." (normalize_chars s).
Proof.
  unfold normalize_chars. destruct (search_index s) as [d|] eqn:E; [|apply dots_free].
  apply search_index_sound in E as (a & rest & _ & _ & Hall & _).
  apply free_of_app. split.
  - intros Hi. apply In_remove_all in Hi. now apply dots_free in Hi.
  - unfold free_of. intros [E|Hi]; [discriminate E|].
    apply (proj1 (forallb_forall _ _) Hall) in Hi. discriminate Hi.
Qed.

Lemma normalize_chars_index (a d rest : list ascii) :
  free_of "[" a -> free_of "[" rest -> d <> [] -> forallb is_digit d = true ->
  normalize_chars (a ++ "["%char :: d ++ "]"%char :: rest)
  = if at_end rest
    then map dot_to_underscore a ++ "["%char :: d ++ "]"%char
           :: map dot_to_underscore rest
    else map dot_to_underscore a ++ map dot_to_underscore rest ++ "_"%char :: d.
Proof.
  intros Ha Hrest Hd Hall. unfold normalize_chars.
  rewrite search_index_at by assumption.
  assert (Hmap : map dot_to_underscore (a ++ "["%char :: d ++ "]"%char :: rest)
                 = map dot_to_underscore a ++ ("["%char :: d ++ ["]"%char])
                     ++ map dot_to_underscore rest).
  { rewrite map_app. cbn [map]. rewrite map_app. cbn [map].
    rewrite (dots_digits d Hall). cbn [app]. rewrite <- app_assoc. reflexivity. }
  rewrite Hmap. destruct (at_end rest).
  - cbn [app]. rewrite <- app_assoc. reflexivity.
  - rewrite remove_all_at by (now apply dots_keep_free).
    rewrite remove_all_free by (now apply dots_keep_free).
    now rewrite <- app_assoc.
Qed.

(** X18: [normalize_pb_name] gives a name without a dot.  A name without an
    opening bracket has its dots replaced by underscores and nothing else
    done.  In a name with one index in brackets the index goes to the end,
    after an underscore and without its brackets, as in the example of the
    source; an index that ends the name (or has only a newline after it)
    stays where it is. *)
Theorem normalize_pb_name_moves_index :
  (forall nm r : string,
      normalize_pb_name (Some nm) = Some r ->
      free_of "." (list_ascii_of_string r)) /\
  (forall nm : string,
      free_of "[" (list_ascii_of_string nm) ->
      normalize_pb_name (Some nm) = Some (replace_dots nm)) /\
  (forall a d rest : string,
      free_of "[" (list_ascii_of_string a) ->
      free_of "[" (list_ascii_of_string rest) ->
      d <> ""%string ->
      forallb is_digit (list_ascii_of_string d) = true ->
      normalize_pb_name (Some (a ++ "[" ++ d ++ "]" ++ rest)%string)
      = Some (if at_end (list_ascii_of_string rest)
              then (replace_dots a ++ "[" ++ d ++ "]" ++ replace_dots rest)%string
              else (replace_dots a ++ replace_dots rest ++ "_" ++ d)%string)).
Proof.
  split; [|split].
  - intros nm r [= <-]. rewrite list_ascii_of_string_of_list_ascii.
    apply normalize_chars_free.
  - intros nm Hf. unfold normalize_pb_name, normalize_chars, replace_dots.
    now rewrite search_index_free.
  - intros a d rest Ha Hrest Hd Hall. unfold normalize_pb_name. f_equal.
    rewrite list_ascii_of_string_app.
    change (list_ascii_of_string ("[" ++ d ++ "]" ++ rest))
      with ("["%char :: list_ascii_of_string (d ++ "]" ++ rest)).
    rewrite list_ascii_of_string_app.
    change (list_ascii_of_string ("]" ++ rest))
      with ("]"%char :: list_ascii_of_string rest).
    rewrite normalize_chars_index; try assumption.
    + unfold replace_dots. destruct (at_end (list_ascii_of_string rest)).
      * rewrite string_of_list_ascii_app. cbn [string_of_list_ascii].
        rewrite string_of_list_ascii_app. cbn [string_of_list_ascii].
        rewrite string_of_list_ascii_of_string. reflexivity.
      * rewrite !string_of_list_ascii_app. cbn [string_of_list_ascii].
        rewrite string_of_list_ascii_of_string. reflexivity.
    + intros E. apply Hd. rewrite <- (string_of_list_ascii_of_string d), E.
      reflexivity.
Qed.

Lemma normalize_pb_name_moves_index_witness :
  normalize_pb_name (Some "output_dffs_gen[0].q_out_ff"%string)
  = Some "output_dffs_gen_q_out_ff_0"%string.
Proof.
  apply (proj2 (proj2 normalize_pb_name_moves_index)
           "output_dffs_gen"%string "0"%string ".q_out_ff"%string).
  - unfold free_of. simpl. intuition discriminate.
  - unfold free_of. simpl. intuition discriminate.
  - discriminate.
  - reflexivity.
Defined.

(* ===================================================================== *)
(** ** vlog_to_model: the combinational sinks *)

Lemma remove_first_length (x : string) (l : list string) :
  length (remove_first x l) <= length l.
Proof.
  induction l as [|y l IH]; simpl; [lia|].
  destruct (String.eqb x y); simpl; lia.
Qed.

(** The loop has ended once the index is past the list: more turns change
    nothing. *)
Lemma prune_from_fuel (registered : string -> bool) (f1 f2 i : nat)
    (l : list string) :
  length l - i <= f1 -> length l - i <= f2 ->
  prune_from registered f1 i l = prune_from registered f2 i l.
Proof.
  revert f2 i l; induction f1 as [|f1 IH]; intros f2 i l H1 H2.
  - assert (Hn : nth_error l i = None) by (apply nth_error_None; lia).
    destruct f2; simpl; [reflexivity | now rewrite Hn].
  - destruct f2 as [|f2].
    + assert (Hn : nth_error l i = None) by (apply nth_error_None; lia).
      simpl. now rewrite Hn.
    + simpl. destruct (nth_error l i) as [sink|] eqn:En; [|reflexivity].
      assert (Hi : i < length l) by (apply nth_error_Some; congruence).
      destruct (registered sink).
      * pose proof (remove_first_length sink l). apply IH; lia.
      * apply IH; lia.
Qed.

Lemma remove_first_In (x s : string) (l : list string) :
  In s (remove_first x l) -> In s l.
Proof.
  induction l as [|y l IH]; simpl; [tauto|].
  destruct (String.eqb x y); simpl; tauto.
Qed.

Lemma remove_first_other (x s : string) (l : list string) :
  s <> x -> In s l -> In s (remove_first x l).
Proof.
  intros Hn. induction l as [|y l IH]; simpl; [tauto|].
  destruct (String.eqb_spec x y) as [->|Hxy]; simpl; intuition congruence.
Qed.

Lemma remove_first_fresh (x : string) (kept rest : list string) :
  ~ In x kept -> remove_first x (kept ++ x :: rest) = kept ++ rest.
Proof.
  induction kept as [|y kept IH]; intros Hn; simpl.
  - now rewrite String.eqb_refl.
  - destruct (String.eqb_spec x y) as [->|Hxy]; [exfalso; apply Hn; now left|].
    rewrite IH; [reflexivity | intros Hi; apply Hn; now right].
Qed.

Lemma nth_error_middle (kept rest : list string) (x : string) :
  nth_error (kept ++ x :: rest) (length kept) = Some x.
Proof. induction kept as [|y kept IH]; simpl; auto. Qed.

Lemma NoDup_move (kept rest : list string) (x : string) :
  NoDup (kept ++ x :: rest) -> NoDup ((kept ++ [x]) ++ rest).
Proof. now rewrite <- app_assoc. Qed.

(** The loop at index [length kept] of [kept ++ rest] is the loop from the
    start of [rest], with [kept] before its result. *)
Lemma prune_from_shift (registered : string -> bool) (fuel : nat)
    (kept rest : list string) :
  NoDup (kept ++ rest) -> length rest <= fuel ->
  prune_from registered fuel (length kept) (kept ++ rest)
  = kept ++ prune_sinks registered rest.
Proof.
  unfold prune_sinks.
  revert kept rest; induction fuel as [|fuel IH]; intros kept rest Hnd Hlen.
  - destruct rest; [reflexivity | simpl in Hlen; lia].
  - destruct rest as [|x rest].
    + cbn [prune_from]. rewrite app_nil_r.
      assert (Hn : nth_error kept (length kept) = None)
        by (apply nth_error_None; lia).
      rewrite Hn. simpl. now rewrite app_nil_r.
    + cbn [prune_from length]. rewrite nth_error_middle.
      cbn [nth_error]. simpl in Hlen.
      destruct (registered x) eqn:Ex.
      * rewrite remove_first_fresh.
        2:{ apply NoDup_remove_2 in Hnd. intros Hi. apply Hnd.
            apply in_or_app. now left. }
        cbn [remove_first]. rewrite String.eqb_refl.
        apply NoDup_remove_1 in Hnd.
        destruct rest as [|y rest].
        -- rewrite app_nil_r.
           assert (Hn : nth_error kept (S (length kept)) = None)
             by (apply nth_error_None; lia).
           destruct fuel; cbn [prune_from length];
             rewrite ?Hn, ?app_nil_r; reflexivity.
        -- simpl in Hlen.
           replace (S (length kept)) with (length (kept ++ [y]))
             by (rewrite length_app; simpl; lia).
           replace (kept ++ y :: rest) with ((kept ++ [y]) ++ rest)
             by (now rewrite <- app_assoc).
           rewrite IH; [| now apply NoDup_move | lia].
           rewrite <- app_assoc. cbn [app]. f_equal. f_equal.
           cbn [length].
           rewrite (prune_from_fuel registered (S (length rest)) fuel 1 (y :: rest))
             by (simpl; lia).
           symmetry.
           apply (IH [y] rest); [|lia].
           apply NoDup_app_remove_l in Hnd. exact Hnd.
      * replace (S (length kept)) with (length (kept ++ [x]))
          by (rewrite length_app; simpl; lia).
        replace (kept ++ x :: rest) with ((kept ++ [x]) ++ rest)
          by (now rewrite <- app_assoc).
        rewrite IH; [| now apply NoDup_move | lia].
        rewrite <- app_assoc. cbn [app]. f_equal. f_equal.
        rewrite (prune_from_fuel registered (length rest) fuel 1 (x :: rest))
          by (simpl; lia).
        symmetry.
        apply (IH [x] rest); [|lia].
        apply NoDup_app_remove_l in Hnd. exact Hnd.
Qed.

Lemma prune_from_In (registered : string -> bool) (fuel i : nat)
    (l : list string) (s : string) :
  In s (prune_from registered fuel i l) -> In s l.
Proof.
  revert i l; induction fuel as [|fuel IH]; intros i l; simpl; [tauto|].
  destruct (nth_error l i) as [sink|]; [|tauto].
  destruct (registered sink); [|apply IH].
  intros Hi. apply IH in Hi. now apply remove_first_In in Hi.
Qed.

Lemma prune_from_keeps (registered : string -> bool) (fuel i : nat)
    (l : list string) (s : string) :
  registered s = false -> In s l -> In s (prune_from registered fuel i l).
Proof.
  intros Hs. revert i l; induction fuel as [|fuel IH]; intros i l; simpl; [tauto|].
  destruct (nth_error l i) as [sink|]; [|tauto].
  destruct (registered sink) eqn:E; [|apply IH].
  intros Hi. apply IH. apply remove_first_other; [congruence | exact Hi].
Qed.

(** X19: the loop of [vlog_to_model] that takes the registered sinks out of
    the list of combinational sinks while it runs over that list.  It adds
    no sink and keeps every sink that is not registered.  On a list without
    repetition it goes on with the next sink after one that is not
    registered, but after taking a registered sink out it passes over the
    sink that follows, which stays in the list whether registered or not. *)
Theorem registered_sinks_pruning (registered : string -> bool) :
  (forall sinks s, In s (prune_sinks registered sinks) -> In s sinks) /\
  (forall sinks s,
      In s sinks -> registered s = false -> In s (prune_sinks registered sinks)) /\
  (forall x l,
      NoDup (x :: l) -> registered x = false ->
      prune_sinks registered (x :: l) = x :: prune_sinks registered l) /\
  (forall x, registered x = true -> prune_sinks registered [x] = []) /\
  (forall x y l,
      NoDup (x :: y :: l) -> registered x = true ->
      prune_sinks registered (x :: y :: l) = y :: prune_sinks registered l).
Proof.
  repeat split.
  - intros sinks s. apply prune_from_In.
  - intros sinks s Hi Hs. now apply prune_from_keeps.
  - intros x l Hnd Hx. unfold prune_sinks at 1.
    cbn [length prune_from nth_error]. rewrite Hx.
    apply (prune_from_shift registered (length l) [x] l Hnd). lia.
  - intros x Hx. unfold prune_sinks. cbn [length prune_from nth_error].
    rewrite Hx. cbn [remove_first]. now rewrite String.eqb_refl.
  - intros x y l Hnd Hx. unfold prune_sinks at 1.
    cbn [length prune_from nth_error]. rewrite Hx.
    cbn [remove_first]. rewrite String.eqb_refl.
    apply NoDup_cons_iff in Hnd as [_ Hnd].
    apply (prune_from_shift registered (S (length l)) [y] l Hnd). lia.
Qed.

Lemma registered_sinks_pruning_witness :
  prune_sinks (fun s => negb (String.eqb s "c")) ["a"; "b"; "c"]%string
  = ["b"; "c"]%string.
Proof.
  rewrite (proj2 (proj2 (proj2 (proj2
             (registered_sinks_pruning (fun s => negb (String.eqb s "c"))))))
             "a" "b" ["c"]%string).
  - reflexivity.
  - repeat constructor; simpl; intuition discriminate.
  - reflexivity.
Defined.

(* ===================================================================== *)
(** ** vlog_to_model: the attributes of a port *)

Lemma set_set {K V : Type} `{EqB K} (k : K) (v1 v2 : V) (d : PyDict.dict K V) :
  PyDict.set k v2 (PyDict.set k v1 d) = PyDict.set k v2 d.
Proof.
  induction d as [|[k' v'] d IH]; simpl.
  - now rewrite eqb_refl.
  - destruct (eqb k k') eqn:E; simpl; rewrite E; [reflexivity | now rewrite IH].
Qed.

Lemma non_empty_app {A : Type} (a b : list A) :
  non_empty (a ++ b) = non_empty a || non_empty b.
Proof. destruct a, b; reflexivity. Qed.

Section ModelPortFacts.

Variable clocks : list string.
Variable get_clock_assoc_signals : string -> list string.
Variable get_related_output_for_input : string -> list string.
Variable get_combinational_sinks : string -> list string.
Variable is_clock_name : string -> bool.
Variable py_int : string -> option Z.
Variable tmod : YosysModule.
Variable tq : TimingQueries.

(** The loop over the clocks writes the attribute on every turn on which a
    clock has been found so far; what is left at the end is the list of
    all the clocks found, if any. *)
Lemma clock_loop_result (port iodir : string) (no_seq : option bool)
    (ks clks : list string) (el : attrs) (st' : list string * attrs) :
  loop (clock_step get_clock_assoc_signals get_related_output_for_input
          port iodir no_seq) ks (clks, el) = Some st' ->
  let found :=
    clks ++ assoc_clocks ks get_clock_assoc_signals get_related_output_for_input
              port iodir in
  fst st' = found /\
  snd st' = if non_empty ks && non_empty found && is_not_true no_seq
            then PyDict.set "clock" (String.concat " " found) el
            else el.
Proof.
  cbv zeta. unfold assoc_clocks.
  revert clks el; induction ks as [|k ks IH]; intros clks el.
  - intros [= <-]. cbn [filter fst snd non_empty andb]. now rewrite app_nil_r.
  - cbn [loop filter]. unfold clock_step at 1.
    destruct (is_clock_assoc get_clock_assoc_signals get_related_output_for_input
                k port iodir) as [assoc|]; [|discriminate].
    cbv zeta. intros Hloop. apply IH in Hloop as [Hf Hs]. clear IH.
    set (clks1 := if assoc then clks ++ [k] else clks) in *.
    set (rest := filter _ ks) in *.
    assert (Hfound : clks1 ++ rest = clks ++ (if assoc then k :: rest else rest)).
    { unfold clks1. destruct assoc; [now rewrite <- app_assoc | reflexivity]. }
    rewrite Hfound in Hf, Hs. split; [exact Hf|]. rewrite Hs.
    cbn [non_empty andb].
    destruct (is_not_true no_seq); [|now rewrite !Bool.andb_false_r].
    rewrite !Bool.andb_true_r.
    destruct ks as [|k' ks'].
    + cbn [non_empty andb]. subst rest. cbn [filter] in *.
      rewrite <- Hfound, app_nil_r. reflexivity.
    + cbn [non_empty andb].
      destruct (non_empty (clks ++ (if assoc then k :: rest else rest))) eqn:E.
      * destruct (non_empty clks1); [apply set_set | reflexivity].
      * rewrite <- Hfound, non_empty_app in E.
        apply Bool.orb_false_elim in E as [-> _]. reflexivity.
Qed.

(** X20: the port element that [vlog_to_model] writes for a port of a leaf
    model.  A port that is neither an input nor an output stops the program;
    otherwise the element goes to the list of its direction and has, in this
    order, the name, then [is_clock] for a clock port or else, unless
    [NO_SEQ] is set, [clock] with all the clocks the port is associated with
    when there is one, then for an input with combinational sinks left after
    the registered ones are taken out the attribute
    [combinational_sink_ports], unless [NO_COMB] is set or, for a clock,
    unless it is not given as zero.  So no port has both [is_clock] and
    [clock]. *)
Theorem model_port_attributes (port : Port) (dir : string) (el : attrs) :
  model_port clocks get_clock_assoc_signals get_related_output_for_input
    get_combinational_sinks is_clock_name py_int tmod tq port = Some (dir, el) ->
  exists no_comb no_seq is_clock,
    port_flag py_int tq (port_name port) "NO_COMB" = Some no_comb /\
    port_flag py_int tq (port_name port) "NO_SEQ" = Some no_seq /\
    port_is_clock clocks is_clock_name py_int tmod (port_name port) = Some is_clock /\
    dir = port_iodir port /\
    (dir = "input"%string \/ dir = "output"%string) /\
    let clks :=
      assoc_clocks clocks get_clock_assoc_signals get_related_output_for_input
        (port_name port) (port_iodir port) in
    let sinks :=
      prune_sinks (is_registered_path tq (port_name port))
        (get_combinational_sinks (port_name port)) in
    el =
      ("name"%string, port_name port)
      :: (if is_clock then [("is_clock"%string, "1"%string)]
          else if non_empty clks && is_not_true no_seq
               then [("clock"%string, String.concat " " clks)]
               else [])
      ++ (if non_empty sinks && String.eqb dir "input" &&
             ((negb is_clock && is_not_true no_comb) ||
              (is_clock && is_false no_comb))
          then [("combinational_sink_ports"%string, String.concat " " sinks)]
          else []).
Proof.
  unfold model_port. cbv zeta.
  destruct (port_flag py_int tq (port_name port) "NO_COMB") as [no_comb|];
    [|discriminate].
  destruct (port_flag py_int tq (port_name port) "NO_SEQ") as [no_seq|];
    [|discriminate].
  destruct (port_is_clock clocks is_clock_name py_int tmod (port_name port))
    as [is_clock|]; [|discriminate].
  set (sinks := prune_sinks _ _).
  set (comb := String.concat " " sinks).
  intros H. exists no_comb, no_seq, is_clock.
  do 3 (split; [reflexivity|]).
  assert (Hdir : dir = port_iodir port /\
                 (dir = "input"%string \/ dir = "output"%string)).
  { destruct (if is_clock then _ else _) as [a|]; [|discriminate].
    destruct (String.eqb_spec (port_iodir port) "input") as [E|_].
    - injection H as <- _. rewrite E. auto.
    - destruct (String.eqb_spec (port_iodir port) "output") as [E|_];
        [|discriminate].
      injection H as <- _. rewrite E. auto. }
  destruct Hdir as [Hdir Hio]. split; [exact Hdir|]. split; [exact Hio|].
  rewrite Hdir.
  set (cond := non_empty sinks && String.eqb (port_iodir port) "input" &&
               ((negb is_clock && is_not_true no_comb) ||
                (is_clock && is_false no_comb))) in *.
  assert (Hattrs : forall a : attrs,
             (if String.eqb (port_iodir port) "input" then Some ("input"%string, a)
              else if String.eqb (port_iodir port) "output"
                   then Some ("output"%string, a) else None)
             = Some (dir, el) -> el = a).
  { intros a. destruct (String.eqb (port_iodir port) "input");
      [now intros [= _ <-]|].
    destruct (String.eqb (port_iodir port) "output"); [now intros [= _ <-]|].
    discriminate. }
  destruct is_clock.
  - apply Hattrs in H. rewrite H. destruct cond; reflexivity.
  - destruct (loop _ clocks _) as [st'|] eqn:Eloop; [|discriminate].
    cbn [option_map] in H. apply Hattrs in H. rewrite H.
    apply clock_loop_result in Eloop. cbv zeta in Eloop. cbn [app] in Eloop.
    destruct Eloop as [_ Hs]. rewrite Hs.
    set (clks := assoc_clocks clocks _ _ _ _).
    assert (Hne : non_empty clocks && non_empty clks = non_empty clks).
    { destruct clocks; [reflexivity|]. reflexivity. }
    rewrite Hne.
    destruct (non_empty clks && is_not_true no_seq); destruct cond; reflexivity.
Qed.

End ModelPortFacts.

Lemma model_port_attributes_witness :
  exists no_comb no_seq is_clock,
    port_flag (fun _ => None) (Build_TimingQueries [] (fun _ => []) (fun _ _ => [])
                                 (fun _ _ => None)) "d" "NO_COMB" = Some no_comb /\
    port_flag (fun _ => None) (Build_TimingQueries [] (fun _ => []) (fun _ _ => [])
                                 (fun _ _ => None)) "d" "NO_SEQ" = Some no_seq /\
    port_is_clock ["clk"%string] (String.eqb "clk") (fun _ => None)
      (empty_module "TOP") "d" = Some is_clock /\
    "input"%string = "input"%string /\
    ("input"%string = "input"%string \/ "input"%string = "output"%string) /\
    [("name", "d"); ("clock", "clk"); ("combinational_sink_ports", "y")]%string =
      ("name"%string, "d"%string)
      :: (if is_clock then [("is_clock"%string, "1"%string)]
          else if non_empty ["clk"%string] && is_not_true no_seq
               then [("clock"%string, "clk"%string)]
               else [])
      ++ (if non_empty ["y"%string] && true &&
             ((negb is_clock && is_not_true no_comb) ||
              (is_clock && is_false no_comb))
          then [("combinational_sink_ports"%string, "y"%string)]
          else []).
Proof.
  apply (model_port_attributes ["clk"%string] (fun _ => ["q"%string])
           (fun _ => ["q"%string]) (fun _ => ["y"%string]) (String.eqb "clk")
           (fun _ => None) (empty_module "TOP")
           (Build_TimingQueries [] (fun _ => []) (fun _ _ => []) (fun _ _ => None))
           ("d"%string, 1, [2%Z], "input"%string) "input"%string
           [("name", "d"); ("clock", "clk"); ("combinational_sink_ports", "y")]%string).
  reflexivity.
Defined.

(* ===================================================================== *)
(** ** The ports of a pb_type *)

Lemma mem_clocks_add (x y : string) (clocks : list string) :
  mem x (clocks_add y clocks) = String.eqb x y || mem x clocks.
Proof.
  unfold clocks_add. destruct (mem y clocks) eqn:E; [|reflexivity].
  destruct (String.eqb_spec x y) as [->|]; [now rewrite E | reflexivity].
Qed.

Lemma mem_clocks_discard (x y : string) (clocks : list string) :
  mem x (clocks_discard y clocks) = negb (String.eqb x y) && mem x clocks.
Proof.
  unfold clocks_discard, mem. induction clocks as [|c clocks IH]; simpl in *.
  - now rewrite Bool.andb_false_r.
  - destruct (String.eqb y c) eqn:Eyc; simpl; rewrite IH.
    + apply String.eqb_eq in Eyc. subst c.
      destruct (String.eqb x y); reflexivity.
    + destruct (String.eqb_spec x c) as [Exc|]; [|reflexivity].
      subst c. rewrite String.eqb_sym, Eyc. reflexivity.
Qed.

(** A three-way split of a list is a rearrangement of it. *)
Lemma split_three_perm {A : Type} (f g h : A -> bool) (l : list A) :
  (forall x, In x l ->
     (f x = true /\ g x = false /\ h x = false) \/
     (f x = false /\ g x = true /\ h x = false) \/
     (f x = false /\ g x = false /\ h x = true)) ->
  Permutation (filter f l ++ filter g l ++ filter h l) l.
Proof.
  induction l as [|x l IH]; intros Hx; [constructor|].
  assert (IH' := IH (fun y Hy => Hx y (or_intror Hy))). clear IH.
  cbn [filter].
  destruct (Hx x (or_introl eq_refl)) as [(-> & -> & ->)|[(-> & -> & ->)|(-> & -> & ->)]].
  - cbn [app]. now constructor.
  - symmetry. apply Permutation_cons_app. now symmetry.
  - symmetry. rewrite app_assoc. apply Permutation_cons_app.
    rewrite <- app_assoc. now symmetry.
Qed.

Section MakePortsFacts.

Variable list_clocks : list string.
Variable is_clock_name : string -> bool.
Variable py_int : string -> option Z.
Variable mod_net_attr : string -> string -> option string.
Variable mdl : YosysModule.

(** The ports after [x] leave the answer for [x] as it is. *)
Lemma clocks_loop_other (ps : list Port) (s cs : list string) (x : string) :
  loop
    (fun clocks port =>
       match pb_port_is_clock is_clock_name py_int mdl port with
       | Some true => Some (clocks_add (port_name port) clocks)
       | Some false => Some (clocks_discard (port_name port) clocks)
       | None => None
       end) ps s = Some cs ->
  ~ In x (map port_name ps) -> mem x cs = mem x s.
Proof.
  revert s; induction ps as [|p ps IH]; intros s; cbn [loop map].
  - now intros [= <-].
  - intros H Hn.
    assert (Hxp : String.eqb x (port_name p) = false).
    { apply String.eqb_neq. intros ->. apply Hn. now left. }
    assert (Hn' : ~ In x (map port_name ps)) by (intros Hi; apply Hn; now right).
    destruct (pb_port_is_clock is_clock_name py_int mdl p) as [[|]|];
      [| |discriminate].
    + rewrite (IH _ H Hn'), mem_clocks_add, Hxp. reflexivity.
    + rewrite (IH _ H Hn'), mem_clocks_discard, Hxp. reflexivity.
Qed.

(** After the loop a port is in [clocks] exactly when [is_clock] was true
    on its turn, whatever [clocks] held at the start. *)
Lemma clocks_loop_ports (ps : list Port) (s cs : list string) :
  loop
    (fun clocks port =>
       match pb_port_is_clock is_clock_name py_int mdl port with
       | Some true => Some (clocks_add (port_name port) clocks)
       | Some false => Some (clocks_discard (port_name port) clocks)
       | None => None
       end) ps s = Some cs ->
  NoDup (map port_name ps) ->
  forall p, In p ps ->
    pb_port_is_clock is_clock_name py_int mdl p = Some (mem (port_name p) cs).
Proof.
  revert s; induction ps as [|q ps IH]; intros s; cbn [loop map];
    [intros _ _ p []|].
  intros H Hnd p Hp. apply NoDup_cons_iff in Hnd as [Hq Hnd].
  destruct (pb_port_is_clock is_clock_name py_int mdl q) as [b|] eqn:Eq.
  2:{ discriminate. }
  destruct Hp as [<-|Hp].
  - rewrite Eq. f_equal. destruct b.
    + rewrite (clocks_loop_other ps _ cs (port_name q) H Hq), mem_clocks_add.
      now rewrite String.eqb_refl.
    + rewrite (clocks_loop_other ps _ cs (port_name q) H Hq), mem_clocks_discard.
      now rewrite String.eqb_refl.
  - destruct b; apply (IH _ H Hnd p Hp).
Qed.

(** One call of [make_ports]: the elements of the wanted kind are added in
    the order of the ports, and every port that is not a clock is an input
    or an output. *)
Lemma make_ports_result (cs : list string) (t : string) (ps : list Port)
    (els els' : list PortElement) :
  In t ["clock"; "input"; "output"]%string ->
  (forall p, In p ps ->
     pb_port_is_clock is_clock_name py_int mdl p = Some (mem (port_name p) cs)) ->
  loop (make_ports_step mod_net_attr mdl cs (Some (t ++ "s")%string)) ps els
  = Some els' ->
  (forall p, In p ps -> port_kind is_clock_name py_int mdl p <> None) /\
  els' = els ++ map (port_element is_clock_name py_int mod_net_attr mdl)
                  (filter (of_kind is_clock_name py_int mdl t) ps).
Proof.
  intros Ht. revert els; induction ps as [|p ps IH]; intros els Hcs; cbn [loop].
  - intros [= <-]. split; [intros p []|]. cbn [filter map]. now rewrite app_nil_r.
  - intros H.
    pose proof (Hcs p (or_introl eq_refl)) as Hp.
    assert (Hcs' : forall q, In q ps ->
               pb_port_is_clock is_clock_name py_int mdl q
               = Some (mem (port_name q) cs)) by (intros q Hq; apply Hcs; now right).
    destruct (make_ports_step mod_net_attr mdl cs (Some (t ++ "s")%string) els p)
      as [els1|] eqn:Es; [|discriminate].
    destruct (IH els1 Hcs' H) as [Hall ->]. clear IH H.
    assert (Hk : exists k, port_kind is_clock_name py_int mdl p = Some k /\
                           In k ["clock"; "input"; "output"]%string /\
                           els1 = if String.eqb k t
                                  then els ++ [(k, port_ioattrs mod_net_attr p,
                                                port_carry mdl p)]
                                  else els).
    { unfold make_ports_step in Es. unfold port_kind. rewrite Hp.
      destruct (mem (port_name p) cs).
      - exists "clock"%string. split; [reflexivity|]. split; [simpl; auto|].
        destruct Ht as [<-|[<-|[<-|[]]]]; cbn in Es; now injection Es as <-.
      - destruct (String.eqb (port_iodir p) "input").
        + exists "input"%string. split; [reflexivity|]. split; [simpl; auto|].
          destruct Ht as [<-|[<-|[<-|[]]]]; cbn in Es; now injection Es as <-.
        + destruct (String.eqb (port_iodir p) "output"); [|discriminate].
          exists "output"%string. split; [reflexivity|]. split; [simpl; auto|].
          destruct Ht as [<-|[<-|[<-|[]]]]; cbn in Es; now injection Es as <-. }
    destruct Hk as (k & Hk & _ & ->). split.
    + intros q [<-|Hq]; [congruence | now apply Hall].
    + cbn [filter]. unfold of_kind at 2. rewrite Hk.
      destruct (String.eqb k t); [|reflexivity].
      cbn [map]. unfold port_element at 2. rewrite Hk.
      now rewrite <- app_assoc.
Qed.

(** X21: the port elements of a pb_type.  When the three calls of
    [make_ports] return, every port has one element: first the clocks, then
    the inputs, then the outputs, each kind in the order of the ports.  With
    port names that differ, the kind of a port follows from the port alone
    (its name, its direction and its CLOCK attribute): the clocks that Yosys
    lists have no part in it, since the loop before the calls puts each port
    into the set of clocks or takes it out. *)
Theorem pb_ports_partition (els : list PortElement) :
  NoDup (map port_name (ports mdl)) ->
  pb_ports list_clocks is_clock_name py_int mod_net_attr mdl = Some els ->
  (forall p, In p (ports mdl) ->
     exists k, port_kind is_clock_name py_int mdl p = Some k /\
               In k ["clock"; "input"; "output"]%string) /\
  exists ordered,
    ordered = filter (of_kind is_clock_name py_int mdl "clock") (ports mdl)
              ++ filter (of_kind is_clock_name py_int mdl "input") (ports mdl)
              ++ filter (of_kind is_clock_name py_int mdl "output") (ports mdl) /\
    Permutation ordered (ports mdl) /\
    els = map (port_element is_clock_name py_int mod_net_attr mdl) ordered.
Proof.
  intros Hnd. unfold pb_ports, pb_clocks, make_ports.
  destruct (loop _ (ports mdl) (py_set list_clocks)) as [cs|] eqn:Ecs;
    [|discriminate].
  pose proof (clocks_loop_ports (ports mdl) _ cs Ecs Hnd) as Hcs.
  destruct (loop (make_ports_step mod_net_attr mdl cs (Some "clocks"%string)) _ [])
    as [els1|] eqn:E1; [|discriminate].
  destruct (loop (make_ports_step mod_net_attr mdl cs (Some "inputs"%string)) _ els1)
    as [els2|] eqn:E2; [|discriminate].
  intros E3.
  apply (make_ports_result cs "clock" (ports mdl) [] els1) in E1 as [Hall ->];
    [| simpl; auto | exact Hcs].
  apply (make_ports_result cs "input" (ports mdl)) in E2 as [_ ->];
    [| simpl; auto | exact Hcs].
  apply (make_ports_result cs "output" (ports mdl)) in E3 as [_ ->];
    [| simpl; auto | exact Hcs].
  assert (Hkind : forall p, In p (ports mdl) ->
             exists k, port_kind is_clock_name py_int mdl p = Some k /\
                       In k ["clock"; "input"; "output"]%string).
  { intros p Hp. specialize (Hall p Hp). unfold port_kind in *.
    destruct (pb_port_is_clock is_clock_name py_int mdl p) as [[|]|];
      [eexists; split; [reflexivity | simpl; auto] | | congruence].
    destruct (String.eqb (port_iodir p) "input");
      [eexists; split; [reflexivity | simpl; auto]|].
    destruct (String.eqb (port_iodir p) "output");
      [eexists; split; [reflexivity | simpl; auto] | congruence]. }
  split; [exact Hkind|].
  eexists. split; [reflexivity|]. split.
  - apply split_three_perm. intros p Hp.
    destruct (Hkind p Hp) as (k & Hk & Hin). unfold of_kind. rewrite Hk.
    destruct Hin as [<-|[<-|[<-|[]]]]; cbn; auto.
  - cbn [app]. rewrite !map_app, <- app_assoc. reflexivity.
Qed.

End MakePortsFacts.

Lemma pb_ports_partition_witness :
  (forall p, In p (ports FAN_module) ->
     exists k, port_kind (String.eqb "in") (fun _ => None) FAN_module p = Some k /\
               In k ["clock"; "input"; "output"]%string) /\
  exists ordered,
    ordered = filter (of_kind (String.eqb "in") (fun _ => None) FAN_module "clock")
                (ports FAN_module)
              ++ filter (of_kind (String.eqb "in") (fun _ => None) FAN_module "input")
                   (ports FAN_module)
              ++ filter (of_kind (String.eqb "in") (fun _ => None) FAN_module "output")
                   (ports FAN_module) /\
    Permutation ordered (ports FAN_module) /\
    [("clock", [("name", "in"); ("num_pins", "1")], None);
     ("output", [("name", "thru"); ("num_pins", "1")], None);
     ("output", [("name", "x"); ("num_pins", "1")], None);
     ("output", [("name", "y"); ("num_pins", "1")], None)]%string
    = map (port_element (String.eqb "in") (fun _ => None) (fun _ _ => None) FAN_module)
        ordered.
Proof.
  apply (pb_ports_partition ["thru"%string] (String.eqb "in") (fun _ => None)
           (fun _ _ => None) FAN_module).
  - repeat constructor; simpl; intuition discriminate.
  - reflexivity.
Defined.

(* ===================================================================== *)
(** ** The timing elements of a leaf *)

Lemma replace_char_free (a b : ascii) (s : string) :
  a <> b -> ~ In a (list_ascii_of_string (replace_char a b s)).
Proof.
  intros Hab. induction s as [|c s IH]; simpl; [tauto|].
  intros [E|Hi]; [|tauto].
  destruct (Ascii.eqb_spec c a); congruence.
Qed.

Lemma process_clocked_tmg_ok (tmgspec : option string) (port iodir xmltype : string) :
  process_clocked_tmg tmgspec port iodir xmltype <> None <->
  (forall s, tmgspec = Some s ->
             exists clock value, split_on " " s = [clock; value]) /\
  (xmltype = "T_clock_to_Q"%string -> tmgspec <> None -> iodir = "output"%string).
Proof.
  unfold process_clocked_tmg. destruct tmgspec as [s|].
  2:{ split; [|discriminate]. intros _.
      split; [intros s E; discriminate E | congruence]. }
  destruct (split_on " " s) as [|c [|v [|x l]]] eqn:Es.
  1,2,4: split; [congruence|]; intros [H _];
         destruct (H s eq_refl) as (c' & v' & E); rewrite Es in E; discriminate E.
  destruct (String.eqb_spec xmltype "T_clock_to_Q") as [Ex|Ex].
  - destruct (String.eqb_spec iodir "output") as [Eo|Eo].
    + split; [|discriminate]. intros _. split; [|auto].
      intros s' [= <-]. rewrite Es. eauto.
    + split; [congruence|]. intros [_ H]. exfalso. apply Eo, H; congruence.
  - split; [|discriminate]. intros _. split; [|congruence].
    intros s' [= <-]. rewrite Es. eauto.
Qed.

Lemma process_clocked_tmg_elements (tmgspec : option string)
    (port iodir xmltype : string) (els : list TimingElement) (e : TimingElement) :
  process_clocked_tmg tmgspec port iodir xmltype = Some els -> In e els ->
  fst (fst e) = xmltype /\ element_port e = Some port /\ snd e = None /\
  (xmltype = "T_clock_to_Q"%string -> iodir = "output"%string).
Proof.
  unfold process_clocked_tmg. destruct tmgspec as [s|]; [|intros [= <-] []].
  destruct (split_on " " s) as [|c [|v [|x l]]]; try discriminate.
  destruct (String.eqb_spec xmltype "T_clock_to_Q") as [Ex|Ex].
  - destruct (String.eqb_spec iodir "output") as [Eo|Eo]; [|discriminate].
    intros [= <-] [<-|[]]. repeat split; auto.
  - intros [= <-] [<-|[]]. repeat split; auto. congruence.
Qed.

Lemma delay_elements_In (port : string) (net_attrs : attrs) (e : TimingElement) :
  In e (delay_elements port net_attrs) ->
  fst (fst e) <> "T_clock_to_Q"%string /\ element_port e = Some port /\
  (forall text, snd e = Some text -> ~ In ";"%char (list_ascii_of_string text)).
Proof.
  unfold delay_elements. intros Hi. apply in_flat_map in Hi as ([a v] & _ & Hi).
  destruct (String.prefix "DELAY_CONST_" a).
  - destruct Hi as [<-|[]]. repeat split; [discriminate | discriminate].
  - destruct (String.prefix "DELAY_MATRIX_" a); [|destruct Hi].
    destruct Hi as [<-|[]]. repeat split; [discriminate|].
    intros text [= <-]. cbn [list_ascii_of_string].
    intros [E|Hi]; [discriminate E|].
    rewrite list_ascii_of_string_app in Hi. apply in_app_or in Hi as [Hi|Hi].
    + revert Hi. apply replace_char_free. discriminate.
    + destruct Hi as [E|[]]. discriminate E.
Qed.

Section MakeLeafPbFacts.

Variable mod_net_attr : string -> string -> option string.
Variable mod_net_attrs : string -> attrs.
Variable mdl : YosysModule.

Lemma leaf_port_ok (p : Port) :
  leaf_port mod_net_attr mod_net_attrs p <> None <-> well_timed mod_net_attr p.
Proof.
  unfold leaf_port, well_timed, two_parts. cbv zeta.
  pose proof (process_clocked_tmg_ok (mod_net_attr (port_name p) "SETUP")
                (port_name p) (port_iodir p) "T_setup") as H1.
  pose proof (process_clocked_tmg_ok (mod_net_attr (port_name p) "HOLD")
                (port_name p) (port_iodir p) "T_hold") as H2.
  pose proof (process_clocked_tmg_ok (mod_net_attr (port_name p) "CLK_TO_Q")
                (port_name p) (port_iodir p) "T_clock_to_Q") as H3.
  destruct (process_clocked_tmg (mod_net_attr (port_name p) "SETUP") _ _ _) as [a|].
  2:{ split; [congruence|]. intros (Hs & _). exfalso.
      apply (proj2 H1); [|reflexivity]. split; [exact Hs | discriminate]. }
  destruct (process_clocked_tmg (mod_net_attr (port_name p) "HOLD") _ _ _) as [b|].
  2:{ split; [congruence|]. intros (_ & Hh & _). exfalso.
      apply (proj2 H2); [|reflexivity]. split; [exact Hh | discriminate]. }
  destruct (process_clocked_tmg (mod_net_attr (port_name p) "CLK_TO_Q") _ _ _) as [c|].
  2:{ split; [congruence|]. intros (_ & _ & Hc & Ho). exfalso.
      apply (proj2 H3); [|reflexivity]. split; [exact Hc | intros _; exact Ho]. }
  split; [|discriminate]. intros _.
  destruct (proj1 H1) as [Hs _]; [discriminate|].
  destruct (proj1 H2) as [Hh _]; [discriminate|].
  destruct (proj1 H3) as [Hc Ho]; [discriminate|].
  repeat split; auto.
Qed.

Lemma leaf_port_elements (p : Port) (els : list TimingElement) (e : TimingElement) :
  leaf_port mod_net_attr mod_net_attrs p = Some els -> In e els ->
  element_port e = Some (port_name p) /\
  (fst (fst e) = "T_clock_to_Q"%string -> port_iodir p = "output"%string) /\
  (forall text, snd e = Some text -> ~ In ";"%char (list_ascii_of_string text)).
Proof.
  unfold leaf_port. cbv zeta.
  destruct (process_clocked_tmg (mod_net_attr (port_name p) "SETUP") _ _ _)
    as [a|] eqn:Ea; [|discriminate].
  destruct (process_clocked_tmg (mod_net_attr (port_name p) "HOLD") _ _ _)
    as [b|] eqn:Eb; [|discriminate].
  destruct (process_clocked_tmg (mod_net_attr (port_name p) "CLK_TO_Q") _ _ _)
    as [c|] eqn:Ec; [|discriminate].
  intros [= <-] Hi.
  apply in_app_or in Hi as [Hi|Hi]; [|apply in_app_or in Hi as [Hi|Hi];
    [|apply in_app_or in Hi as [Hi|Hi]]].
  - destruct (process_clocked_tmg_elements _ _ _ _ _ e Ea Hi) as (Ht & Hp & Hn & _).
    repeat split; [exact Hp | rewrite Ht; discriminate | rewrite Hn; discriminate].
  - destruct (process_clocked_tmg_elements _ _ _ _ _ e Eb Hi) as (Ht & Hp & Hn & _).
    repeat split; [exact Hp | rewrite Ht; discriminate | rewrite Hn; discriminate].
  - destruct (process_clocked_tmg_elements _ _ _ _ _ e Ec Hi) as (Ht & Hp & Hn & Ho).
    repeat split; [exact Hp | auto | rewrite Hn; discriminate].
  - destruct (delay_elements_In _ _ e Hi) as (Ht & Hp & Hx).
    repeat split; [exact Hp | congruence | exact Hx].
Qed.

Lemma leaf_loop (ps : list Port) (els : list TimingElement) :
  (loop (fun els p =>
           match leaf_port mod_net_attr mod_net_attrs p with
           | Some more => Some (els ++ more)
           | None => None
           end) ps els <> None <->
   forall p, In p ps -> leaf_port mod_net_attr mod_net_attrs p <> None) /\
  (forall out e,
      loop (fun els p =>
              match leaf_port mod_net_attr mod_net_attrs p with
              | Some more => Some (els ++ more)
              | None => None
              end) ps els = Some out ->
      In e out ->
      In e els \/
      exists p more, In p ps /\
                     leaf_port mod_net_attr mod_net_attrs p = Some more /\
                     In e more).
Proof.
  revert els; induction ps as [|p ps IH]; intros els; cbn [loop].
  - split.
    + split; [intros _ q [] | discriminate].
    + intros out e [= <-] Hi. now left.
  - destruct (leaf_port mod_net_attr mod_net_attrs p) as [more|] eqn:Ep.
    + destruct (IH (els ++ more)) as [Hok Hel]. split.
      * rewrite Hok. split.
        -- intros H q [<-|Hq]; [congruence | auto].
        -- intros H q Hq. apply H. now right.
      * intros out e Hout Hi.
        destruct (Hel out e Hout Hi) as [Hin|(q & m & Hq & Hm & Hin)].
        -- apply in_app_or in Hin as [Hin|Hin]; [now left|].
           right. exists p, more. simpl. auto.
        -- right. exists q, m. simpl. auto.
    + split; [|discriminate]. split; [congruence|].
      intros H. exfalso. apply (H p); [now left | exact Ep].
Qed.

(** X22: the timing elements of a leaf.  [make_leaf_pb] goes through when
    every SETUP, HOLD and CLK_TO_Q attribute of a port splits at its blanks
    into two parts exactly and CLK_TO_Q is given on output ports only, and
    stops on a failed assertion otherwise.  Every element it writes is about
    a port of the module, a T_clock_to_Q element about an output, and the
    text of a delay matrix has no semicolon left. *)
Theorem leaf_timing_elements :
  (make_leaf_pb mod_net_attr mod_net_attrs mdl <> None <->
   forall p, In p (ports mdl) -> well_timed mod_net_attr p) /\
  (forall els e,
      make_leaf_pb mod_net_attr mod_net_attrs mdl = Some els -> In e els ->
      exists p, In p (ports mdl) /\
                element_port e = Some (port_name p) /\
                (fst (fst e) = "T_clock_to_Q"%string ->
                 port_iodir p = "output"%string) /\
                (forall text, snd e = Some text ->
                              ~ In ";"%char (list_ascii_of_string text))).
Proof.
  unfold make_leaf_pb. destruct (leaf_loop (ports mdl) []) as [Hok Hel]. split.
  - rewrite Hok. split; intros H p Hp; apply leaf_port_ok; auto.
  - intros els e Hout Hi.
    destruct (Hel els e Hout Hi) as [[]|(p & more & Hp & Hm & Hin)].
    exists p. split; [exact Hp|]. exact (leaf_port_elements p more e Hm Hin).
Qed.

End MakeLeafPbFacts.

Lemma leaf_timing_elements_witness :
  exists p, In p (ports FF_module) /\
            element_port ("T_clock_to_Q", [("port", "Q"); ("clock", "clk");
                                           ("max", "1e-10")], None)%string
            = Some (port_name p) /\
            ("T_clock_to_Q"%string = "T_clock_to_Q"%string ->
             port_iodir p = "output"%string) /\
            (forall text, @None string = Some text ->
                          ~ In ";"%char (list_ascii_of_string text)).
Proof.
  apply (proj2 (leaf_timing_elements
                  (fun port a =>
                     if String.eqb port "Q" && String.eqb a "CLK_TO_Q"
                     then Some "clk 1e-10"%string else None)
                  (fun _ => []) FF_module)
           [("T_clock_to_Q", [("port", "Q"); ("clock", "clk"); ("max", "1e-10")],
             None)]%string
           ("T_clock_to_Q", [("port", "Q"); ("clock", "clk"); ("max", "1e-10")],
            None)%string).
  - reflexivity.
  - now left.
Defined.
